(** * The sales dashboard controller

    A shallow embedding of [backend/src/controllers/salesController.ts]
    (the loader [getSalesData] and the Express handlers [getStates],
    [getDateRange] and [getDashboardData]) together with the properties
    the specification states about them, and of the data of the city
    chart and of the products chart that the component [Dashboard] draws
    from the summary, together with further properties of the handlers
    and of how they fit together.

    How the program's world is modelled, following the source text:

    - a JavaScript [number] is an IEEE-754 binary64 value.  The controller
      is written once over an interface [Number]; the instance that
      describes the running program is the kernel's primitive [float].  A
      second instance over the exact rationals [Qc] serves to say what
      holds "up to rounding";
    - the loader yields what it declares, a [SalesRecord[]] whose fields
      are strings and numbers: [JSON_parse] gives the records of a text
      that is the JSON of such an array, and nothing for a text that is
      not JSON.  A text that is JSON of another shape is not described;
      the properties that depend on what the handlers do with the loaded
      value are stated for data files that hold records
      ([holds_records]).  A query parameter is a string or [undefined];
    - an object used as a dictionary is the list of its own properties in
      creation order, and it inherits from [Object.prototype]: reading
      [acc[k]] finds an own property, else a member of the prototype,
      else [undefined], and writing [acc["__proto__"]] creates nothing.
      So a grouping holds a number under most keys and a string under a
      key that names a member of [Object.prototype] ([cell]).
      [Object.entries] enumerates array-index keys first, in ascending
      numeric order, and then the other keys in creation order, as
      ECMAScript prescribes;
    - a [Date] is its time value: [Some ms], or [None] for the invalid
      date.  [new Date(text)] is a parameter of the controller, because
      ECMAScript leaves the reading of most texts to the implementation;
      [toISOString] is computed;
    - what ECMAScript leaves to the engine is a parameter ([JS.Engine]):
      the number of arguments a call can pass, past which
      [Math.min(...times)] throws a RangeError, and the order in which
      [Array.prototype.sort] leaves an array when the comparison function
      is not consistent.  With a consistent comparison function the sort
      is the stable sort (ECMAScript 2019);
    - the data file, [JSON.parse] and the console are explicit: a handler
      is a function from the world to an answer and a new world.  Memory
      is not modelled;
    - the page holds a summary of the shape the handler builds: its
      declared type [DashboardData], but for the strings that a grouping
      may hold.  How the answer travels from the handler to the page is
      not modelled. *)

From Stdlib Require Import ZArith QArith Qround Qcanon Floats Uint63 List String Ascii Bool Lia.
From Stdlib Require Import Permutation Sorted.
Import ListNotations.

Set Warnings "-inexact-float".
Set Implicit Arguments.

(* ================================================================== *)
(** * Part 1: the JavaScript platform *)
(* ================================================================== *)

Module JS.

(** ** Property keys

    A property key is an array index when it is the canonical decimal
    spelling of an integer between 0 and 2^32 - 2. *)

Definition is_digit (c : ascii) : bool :=
  let n := nat_of_ascii c in (48 <=? n)%nat && (n <=? 57)%nat.

Definition digit_value (c : ascii) : N := N.of_nat (nat_of_ascii c - 48).

Fixpoint digits (s : string) (acc : N) : option N :=
  match s with
  | EmptyString => Some acc
  | String c s' =>
      if is_digit c then digits s' (10 * acc + digit_value c)%N else None
  end.

Definition array_index (s : string) : option N :=
  match s with
  | EmptyString => None
  | String c rest =>
      if Ascii.eqb c "0" && negb (String.eqb rest EmptyString) then None
      else match digits s 0 with
           | Some n => if (n <? 4294967295)%N then Some n else None
           | None => None
           end
  end.

Definition is_array_index (s : string) : bool :=
  match array_index s with Some _ => true | None => false end.

(** ** Objects used as dictionaries *)

Section Objects.

Context {V : Type}.

(** Own properties, oldest first. *)
Definition object := list (string * V).

Definition empty_object : object := [].

(** The own keys in creation order. *)
Definition own_keys (o : object) : list string := map fst o.

(** [o[k]]: [None] is [undefined]. *)
Fixpoint get_prop (o : object) (k : string) : option V :=
  match o with
  | [] => None
  | (k', v) :: o' => if String.eqb k' k then Some v else get_prop o' k
  end.

(** [o[k] = v]: an existing property keeps its place, a new one is created
    last. *)
Fixpoint set_prop (o : object) (k : string) (v : V) : object :=
  match o with
  | [] => [(k, v)]
  | (k', v') :: o' =>
      if String.eqb k' k then (k', v) :: o' else (k', v') :: set_prop o' k v
  end.

(** *** The prototype of a plain object

    An object written [{}] inherits from [Object.prototype]: eleven
    functions and the accessor [__proto__]. *)
Definition Object_prototype : list string :=
  ["constructor"; "__defineGetter__"; "__defineSetter__"; "hasOwnProperty";
   "__lookupGetter__"; "__lookupSetter__"; "isPrototypeOf";
   "propertyIsEnumerable"; "toString"; "valueOf"; "__proto__";
   "toLocaleString"]%string.

Definition inherited (k : string) : bool :=
  existsb (String.eqb k) Object_prototype.

(** What [o[k]] finds on a plain object: an own property, else a member
    of [Object.prototype], else [undefined]. *)
Inductive reading : Type :=
| Own (v : V)
| Inherited (name : string)
| Undefined.

Definition along_prototype (k : string) (own : option V) : reading :=
  match own with
  | Some v => Own v
  | None => if inherited k then Inherited k else Undefined
  end.

Definition get (o : object) (k : string) : reading :=
  along_prototype k (get_prop o k).

(** [o[k] = v] on a plain object, for a [v] that is a number or a string:
    the setter of [__proto__] ignores such a value; under any other key an
    own property is written. *)
Definition put (o : object) (k : string) (v : V) : object :=
  if String.eqb k "__proto__" then o else set_prop o k v.

(** Ascending insertion of an array-index property. *)
Fixpoint insert_index (n : N) (kv : string * V) (l : list (N * (string * V)))
  : list (N * (string * V)) :=
  match l with
  | [] => [(n, kv)]
  | (m, kv') :: l' =>
      if (n <? m)%N then (n, kv) :: l else (m, kv') :: insert_index n kv l'
  end.

Fixpoint index_props (o : object) : list (N * (string * V)) :=
  match o with
  | [] => []
  | (k, v) :: o' =>
      match array_index k with
      | Some n => insert_index n (k, v) (index_props o')
      | None => index_props o'
      end
  end.

Definition named_props (o : object) : list (string * V) :=
  filter (fun kv => negb (is_array_index (fst kv))) o.

(** [Object.entries(o)], in OrdinaryOwnPropertyKeys order. *)
Definition Object_entries (o : object) : list (string * V) :=
  map snd (index_props o) ++ named_props o.

Definition Object_keys (o : object) : list string := map fst (Object_entries o).

Definition Object_values (o : object) : list V := map snd (Object_entries o).

End Objects.

Arguments object : clear implicits.
Arguments reading : clear implicits.

(** ** Arrays *)

Section Arrays.

Context {A B : Type}.

(** [arr.reduce(f, init)] *)
Definition reduce (f : B -> A -> B) (init : B) (arr : list A) : B :=
  fold_left f arr init.

(** [arr.slice(0, n)] *)
Definition slice0 (n : nat) (arr : list A) : list A := firstn n arr.

End Arrays.

(** ** Exceptions *)

Inductive Exception : Type :=
| Error (message : string)
| RangeError (message : string)
| SyntaxError (message : string)
| SystemError (code : string).

Inductive completion (A : Type) : Type :=
| Normal (a : A)
| Throw (e : Exception).

Arguments Normal {A} a.
Arguments Throw {A} e.

(** ** The engine

    What ECMAScript leaves to the implementation and the controller meets:
    how many arguments a call can pass, and the order [sort] produces when
    the comparison function is not consistent. *)
Class Engine : Type := {
  (** a call [f(...args)] with more arguments throws a RangeError *)
  max_arguments : nat;
  (** [arr.sort(comparefn)] for a [comparefn] that is not consistent on
      [arr]: some order of the same elements *)
  unspecified_sort :
    forall (R A : Type), (A -> A -> R) -> list A -> list A;
  unspecified_sort_permutes :
    forall (R A : Type) (comparefn : A -> A -> R) (arr : list A),
      Permutation (unspecified_sort comparefn arr) arr
}.

(** [f(...args)] *)
Definition spread_call {engine : Engine} {A B : Type} (f : list A -> B)
  (args : list A) : completion B :=
  if (max_arguments <? List.length args)%nat
  then Throw (RangeError "Maximum call stack size exceeded")
  else Normal (f args).

(** ** Strings as query parameters: [undefined] and the empty string are
    falsy. *)

Definition param := option string.

Definition truthy_param (p : param) : bool :=
  match p with
  | None => false
  | Some s => negb (String.eqb s EmptyString)
  end.

(** [p !== lit] and [field === p] for a parameter that may be [undefined]. *)
Definition param_is (p : param) (lit : string) : bool :=
  match p with
  | None => false
  | Some s => String.eqb s lit
  end.

(** [s.split(sep)[0]]: the text before the first separator. *)
Fixpoint split_head (sep : ascii) (s : string) : string :=
  match s with
  | EmptyString => EmptyString
  | String c s' =>
      if Ascii.eqb c sep then EmptyString else String c (split_head sep s')
  end.

End JS.

(* ================================================================== *)
(** * Part 2: numbers *)
(* ================================================================== *)

(** The operations the controller applies to a [number]. *)
Class Number (num : Type) : Type := {
  lit : Z -> num;                    (* an integer literal *)
  add : num -> num -> num;           (* a + b *)
  sub : num -> num -> num;           (* a - b *)
  mul : num -> num -> num;           (* a * b *)
  div : num -> num -> num;           (* a / b *)
  ltb : num -> num -> bool;          (* a < b *)
  truthy : num -> bool;              (* ToBoolean(a) *)
  Math_round : num -> num            (* Math.round(a) *)
}.

Declare Scope js_scope.
Delimit Scope js_scope with js.
Infix "+" := add : js_scope.
Infix "-" := sub : js_scope.
Infix "*" := mul : js_scope.
Infix "/" := div : js_scope.
Infix "<?" := ltb : js_scope.

Section NumberOps.

Context {num : Type} `{Number num}.

Definition zero : num := lit 0.

(** [a > b] *)
Definition gtb (a b : num) : bool := ltb b a.

(** [a || b] on numbers. *)
Definition or_else (a b : num) : num := if truthy a then a else b.

(** [arr.reduce((sum, x) => sum + x, 0)] *)
Definition sum (l : list num) : num := JS.reduce add zero l.

(** [NaN], as [0 / 0] makes it. *)
Definition NaN : num := div zero zero.

End NumberOps.

Notation "a >? b" := (gtb a b) (at level 70) : js_scope.

(** ** What a grouping holds under a key

    The groupings are declared [{ [key: string]: number }], and a number
    is what [acc[k] = (acc[k] || 0) + record.Sales] stores as long as
    [acc[k]] reads [undefined] or a number.  Under a key that names a
    member of [Object.prototype] it reads that member, which is truthy,
    and [+] concatenates: the value is then a string, the text of the
    member followed by the decimal forms of the numbers appended to it.
    [Text k l] is that string for the member [k] and the numbers [l]; the
    text of a native function is left to the implementation, so is the
    decimal form of a number here. *)
Inductive cell (num : Type) : Type :=
| Num (x : num)
| Text (origin : string) (appended : list num).

Arguments Num {num} x.
Arguments Text {num} origin appended.

(** [ToNumber]: such a string is not the text of a number. *)
Definition to_number {num : Type} `{Number num} (c : cell num) : num :=
  match c with
  | Num x => x
  | Text _ _ => NaN
  end.

(** The cell is a number. *)
Definition is_number {num : Type} (c : cell num) : bool :=
  match c with
  | Num _ => true
  | Text _ _ => false
  end.

(** ** [Array.prototype.sort] *)

Section Sorting.

Context {num : Type} `{Number num} {engine : JS.Engine}.
Context {A : Type}.

Local Open Scope js_scope.

(** [x] moves behind [y] exactly when [comparefn(x, y) > 0]. *)
Fixpoint sort_insert (comparefn : A -> A -> num) (x : A) (l : list A) : list A :=
  match l with
  | [] => [x]
  | y :: l' =>
      if comparefn x y >? zero then y :: sort_insert comparefn x l' else x :: l
  end.

(** The stable sort by [comparefn]. *)
Definition stable_sort (comparefn : A -> A -> num) (arr : list A) : list A :=
  fold_right (sort_insert comparefn) [] arr.

(** [x] may stand before [y]: [comparefn(x, y)] is not positive. *)
Definition in_order (comparefn : A -> A -> num) (x y : A) : bool :=
  negb (comparefn x y >? zero).

(** [comparefn] is a consistent comparison function for the elements of
    [l]: its sign turns over with its arguments, of two elements one may
    stand first, and standing before is transitive.  A result that is NaN
    counts as 0, as [sort] takes it. *)
Definition consistent (comparefn : A -> A -> num) (l : list A) : bool :=
  forallb (fun a => forallb (fun b =>
     Bool.eqb (comparefn a b <? zero) (comparefn b a >? zero)) l) l &&
  forallb (fun a => forallb (fun b =>
     in_order comparefn a b || in_order comparefn b a) l) l &&
  forallb (fun a => forallb (fun b => forallb (fun c =>
     implb (in_order comparefn a b && in_order comparefn b c)
           (in_order comparefn a c)) l) l) l.

(** [arr.sort(comparefn)]: the sort is stable (ECMAScript 2019); for a
    comparison function that is not consistent the order is the
    engine's. *)
Definition Array_sort (comparefn : A -> A -> num) (arr : list A) : list A :=
  if consistent comparefn arr then stable_sort comparefn arr
  else JS.unspecified_sort comparefn arr.

End Sorting.

(** ** The running program's numbers: binary64 *)

Module Float64.

Definition of_Z (z : Z) : float :=
  match z with
  | Z0 => PrimFloat.zero
  | Zpos _ => PrimFloat.of_uint63 (Uint63.of_Z z)
  | Zneg p => PrimFloat.opp (PrimFloat.of_uint63 (Uint63.of_Z (Zpos p)))
  end.

(** [ToBoolean]: false for +0, -0 and NaN. *)
Definition to_boolean (x : float) : bool :=
  negb (PrimFloat.is_zero x || PrimFloat.is_nan x).

(** [Math.round]: the integer nearest to [x], ties towards +infinity;
    a result of zero keeps the sign of [x].  The value of a finite float
    [S754_finite s m e] is [(-1)^s * m * 2^e]. *)
Definition round (x : float) : float :=
  match Prim2SF x with
  | S754_finite s m e =>
      if (0 <=? e)%Z then x
      else
        let k := (- e)%Z in
        let v := if s then Zneg m else Zpos m in
        let n := ((2 * v + 2 ^ k) / 2 ^ (k + 1))%Z in
        if (n =? 0)%Z then (if s then PrimFloat.opp PrimFloat.zero else PrimFloat.zero)
        else of_Z n
  | _ => x
  end.

#[global] Instance number : Number float := {
  lit := of_Z;
  add := PrimFloat.add;
  sub := PrimFloat.sub;
  mul := PrimFloat.mul;
  div := PrimFloat.div;
  ltb := PrimFloat.ltb;
  truthy := to_boolean;
  Math_round := round
}.

End Float64.

(** [a <> b] for two closed binary64 values. *)
Ltac float_neq :=
  let E := fresh "E" in
  intro E;
  match type of E with
  | ?a = _ => apply (f_equal (PrimFloat.eqb a)) in E
  end;
  vm_compute in E; discriminate E.


(** *** Notions used to reason about binary64 *)

(** A float that is not zero, with its sign. *)
Definition signed (s : bool) (x : spec_float) : Prop :=
  match x with
  | S754_finite s' _ _ => s' = s
  | S754_infinity s' => s' = s
  | _ => False
  end.

(** The order of finite floats of one sign: exponents first, then
    mantissas. *)
Definition lex (e1 : Z) (m1 : positive) (e2 : Z) (m2 : positive) : comparison :=
  match (e1 ?= e2)%Z with
  | Lt => Lt
  | Gt => Gt
  | Eq => Pos.compare_cont Eq m1 m2
  end.

(** ** Exact arithmetic: the rationals *)

Module Exact.

Definition of_Z (z : Z) : Qc := Q2Qc (inject_Z z).

Definition ltb (a b : Qc) : bool :=
  match (a ?= b)%Qc with Lt => true | _ => false end.

Definition to_boolean (a : Qc) : bool := negb (Qc_eq_bool a (of_Z 0)).

Definition round (a : Qc) : Qc :=
  of_Z (Qfloor (this a + (1 # 2))%Q).

#[global] Instance number : Number Qc := {
  lit := of_Z;
  add := Qcplus;
  sub := Qcminus;
  mul := Qcmult;
  div := Qcdiv;
  ltb := ltb;
  truthy := to_boolean;
  Math_round := round
}.

End Exact.

(* ================================================================== *)
(** * Part 3: dates *)
(* ================================================================== *)

Module Date.

Local Open Scope Z_scope.

(** A [Date] object is its time value in milliseconds since the epoch;
    [None] is the invalid date, whose time value is NaN. *)
Definition t := option Z.

Definition msPerDay : Z := 86400000.

(** [new Date(value)] for a number: TimeClip. *)
Definition of_time (v : option Z) : t :=
  match v with
  | Some ms => if Z.abs ms <=? 8640000000000000 then Some ms else None
  | None => None
  end.

Definition getTime (d : t) : option Z := d.

(** [a >= b] and [a <= b] on dates compare the time values; a comparison
    with NaN is false. *)
Definition geb (a b : t) : bool :=
  match a, b with
  | Some x, Some y => y <=? x
  | _, _ => false
  end.

Definition leb (a b : t) : bool :=
  match a, b with
  | Some x, Some y => x <=? y
  | _, _ => false
  end.

(** [Math.min(...xs)] and [Math.max(...xs)] over time values: NaN as soon
    as one argument is NaN.  For no argument the result is an infinity,
    which is not a time value either. *)
Fixpoint Math_min (xs : list (option Z)) : option Z :=
  match xs with
  | [] => None
  | [x] => x
  | x :: xs' =>
      match x, Math_min xs' with
      | Some a, Some b => Some (Z.min a b)
      | _, _ => None
      end
  end.

Fixpoint Math_max (xs : list (option Z)) : option Z :=
  match xs with
  | [] => None
  | [x] => x
  | x :: xs' =>
      match x, Math_max xs' with
      | Some a, Some b => Some (Z.max a b)
      | _, _ => None
      end
  end.

(** The proleptic Gregorian date of a day number (days since 1970-01-01). *)
Definition civil_from_days (z : Z) : Z * Z * Z :=
  let z := z + 719468 in
  let era := z / 146097 in
  let doe := z - era * 146097 in
  let yoe := (doe - doe / 1460 + doe / 36524 - doe / 146096) / 365 in
  let y := yoe + era * 400 in
  let doy := doe - (365 * yoe + yoe / 4 - yoe / 100) in
  let mp := (5 * doy + 2) / 153 in
  let d := doy - (153 * mp + 2) / 5 + 1 in
  let m := if mp <? 10 then mp + 3 else mp - 9 in
  ((if m <=? 2 then y + 1 else y), m, d).

Definition days_from_civil (y m d : Z) : Z :=
  let y := if m <=? 2 then y - 1 else y in
  let era := y / 400 in
  let yoe := y - era * 400 in
  let doy := (153 * (if 2 <? m then m - 3 else m + 9) + 2) / 5 + d - 1 in
  let doe := yoe * 365 + yoe / 4 - yoe / 100 + doy in
  era * 146097 + doe - 719468.

Definition YearFromTime (ms : Z) : Z := fst (fst (civil_from_days (ms / msPerDay))).
Definition MonthFromTime (ms : Z) : Z := snd (fst (civil_from_days (ms / msPerDay))).
Definition DateFromTime (ms : Z) : Z := snd (civil_from_days (ms / msPerDay)).

Definition digit (n : Z) : ascii := ascii_of_nat (48 + Z.to_nat (n mod 10)).

Definition pad2 (n : Z) : string :=
  String (digit (n / 10)) (String (digit n) EmptyString).

Definition pad3 (n : Z) : string := String (digit (n / 100)) (pad2 n).

Definition pad4 (n : Z) : string := String (digit (n / 1000)) (pad3 n).

Definition pad6 (n : Z) : string :=
  String (digit (n / 100000)) (String (digit (n / 10000)) (pad4 n)).

(** Years 0 to 9999 are written with four digits, the others with a sign
    and six digits. *)
Definition year_string (y : Z) : string :=
  if (0 <=? y) && (y <=? 9999) then pad4 y
  else if y <? 0 then String "-" (pad6 (- y))
  else String "+" (pad6 y).

Definition date_string (ms : Z) : string :=
  (year_string (YearFromTime ms) ++ "-" ++ pad2 (MonthFromTime ms)
     ++ "-" ++ pad2 (DateFromTime ms))%string.

Definition time_string (ms : Z) : string :=
  let w := ms mod msPerDay in
  (pad2 (w / 3600000) ++ ":" ++ pad2 (w / 60000 mod 60) ++ ":"
     ++ pad2 (w / 1000 mod 60) ++ "." ++ pad3 (w mod 1000))%string.

(** [d.toISOString()]: YYYY-MM-DDTHH:mm:ss.sssZ in UTC; a RangeError for
    the invalid date. *)
Definition toISOString (d : t) : JS.completion string :=
  match d with
  | None => JS.Throw (JS.RangeError "Invalid time value")
  | Some ms => JS.Normal (date_string ms ++ "T" ++ time_string ms ++ "Z")%string
  end.

(** A valid date: its time value is a number within the range of dates. *)
Definition valid (d : t) : bool :=
  match of_time d with Some _ => true | None => false end.

(** The shape YYYY-MM-DD: ten characters, digits around two hyphens. *)
Definition is_calendar_date (s : string) : bool :=
  match list_ascii_of_string s with
  | [y1; y2; y3; y4; dash1; m1; m2; dash2; d1; d2] =>
      forallb JS.is_digit [y1; y2; y3; y4; m1; m2; d1; d2]
      && Ascii.eqb dash1 "-" && Ascii.eqb dash2 "-"
  | _ => false
  end.

(** The date-only ISO form YYYY-MM-DD, which [Date.parse] reads as UTC
    midnight.  What [Date.parse] makes of other spellings is left to the
    implementation by ECMAScript, so the controller takes the parser as a
    parameter; this one is the instance used on concrete data. *)
Definition digit_of (c : ascii) : option Z :=
  if JS.is_digit c then Some (Z.of_nat (nat_of_ascii c) - 48) else None.

Definition number_of (cs : list ascii) : option Z :=
  fold_left (fun acc c =>
               match acc, digit_of c with
               | Some a, Some d => Some (10 * a + d)
               | _, _ => None
               end) cs (Some 0).

Definition DaysInMonth (y m : Z) : Z :=
  if m =? 2 then
    (if ((y mod 4 =? 0) && negb (y mod 100 =? 0)) || (y mod 400 =? 0) then 29 else 28)
  else if (m =? 4) || (m =? 6) || (m =? 9) || (m =? 11) then 30
  else 31.

Definition calendar_time (year month day : option Z) : t :=
  match year, month, day with
  | Some y, Some m, Some d =>
      if (1 <=? m) && (m <=? 12) && (1 <=? d) && (d <=? DaysInMonth y m)
      then of_time (Some (days_from_civil y m d * msPerDay))
      else None
  | _, _, _ => None
  end.

(** YYYY-MM-DD, and the expanded years +YYYYYY-MM-DD and -YYYYYY-MM-DD
    (-000000 is not a year). *)
Definition parse_date_only (s : string) : t :=
  match list_ascii_of_string s with
  | [y1; y2; y3; y4; dash1; m1; m2; dash2; d1; d2] =>
      if Ascii.eqb dash1 "-" && Ascii.eqb dash2 "-"
      then calendar_time (number_of [y1; y2; y3; y4]) (number_of [m1; m2])
             (number_of [d1; d2])
      else None
  | [sign; y1; y2; y3; y4; y5; y6; dash1; m1; m2; dash2; d1; d2] =>
      if Ascii.eqb dash1 "-" && Ascii.eqb dash2 "-" then
        match number_of [y1; y2; y3; y4; y5; y6] with
        | Some y =>
            if Ascii.eqb sign "+"
            then calendar_time (Some y) (number_of [m1; m2]) (number_of [d1; d2])
            else if Ascii.eqb sign "-" && negb (y =? 0)
            then calendar_time (Some (- y)) (number_of [m1; m2]) (number_of [d1; d2])
            else None
        | None => None
        end
      else None
  | _ => None
  end.

End Date.

(* ================================================================== *)
(** * Part 4: the data model and the world *)
(* ================================================================== *)

(** [interface SalesRecord] *)
Record SalesRecord (num : Type) : Type := {
  Row_ID : num;
  Order_ID : string;
  Order_Date : string;
  Ship_Date : string;
  Ship_Mode : string;
  Customer_ID : string;
  Customer_Name : string;
  Segment : string;
  Country : string;
  City : string;
  State : string;
  Postal_Code : num;
  Region : string;
  Product_ID : string;
  Category : string;
  Sub_Category : string;
  Product_Name : string;
  Sales : num;
  Quantity : num;
  Discount : num;
  Profit : num
}.

(** An element [{ name, sales }] of [salesByProducts]. *)
Module Product.
Record t (num : Type) : Type := { name : string; sales : cell num }.
End Product.

(** An element [{ name, value }] of [salesBySubCategory]. *)
Module SubCategory.
Record t (num : Type) : Type := { name : string; value : cell num }.
End SubCategory.

(** The object [response] that [getDashboardData] sends. *)
Record Dashboard (num : Type) : Type := {
  totalSales : num;
  quantitySold : num;
  discountPercentage : num;
  totalProfit : num;
  salesByCity : JS.object (cell num);
  salesByProducts : list (Product.t num);
  salesByCategory : JS.object (cell num);
  salesBySubCategory : list (SubCategory.t num);
  salesBySegment : JS.object (cell num)
}.

(** What a handler passes to [res.json]. *)
Inductive Body (num : Type) : Type :=
| StatesBody (states : list string)
| DateRangeBody (minDate maxDate : string)
| DashboardBody (data : Dashboard num)
| ErrorBody (error : string).

Arguments StatesBody {num} states.
Arguments DateRangeBody {num} minDate maxDate.
Arguments DashboardBody {num} data.
Arguments ErrorBody {num} error.

(** [res.status(code).json(body)]; [res.json(body)] answers 200. *)
Record Response (num : Type) : Type := { status : nat; body : Body num }.

(** The query string of [/api/dashboard]. *)
Record Query : Type := {
  state : JS.param;
  startDate : JS.param;
  endDate : JS.param
}.

(** One call of [console.log] or [console.error]. *)
Inductive LogArg (num : Type) : Type :=
| LText (s : string)
| LCount (n : nat)
| LNumber (x : num)
| LQuery (q : Query)
| LException (e : JS.Exception).

Arguments LText {num} s.
Arguments LCount {num} n.
Arguments LNumber {num} x.
Arguments LQuery {num} q.
Arguments LException {num} e.

Inductive LogLine (num : Type) : Type :=
| console_log (message : string) (args : list (LogArg num))
| console_error (message : string) (args : list (LogArg num)).

(** The world a request runs in: the content of [../data/sales.json]
    ([None] when the file cannot be read) and what was written to the
    console so far, oldest line first. *)
Record World (num : Type) : Type := {
  sales_json : option string;
  console : list (LogLine num)
}.

(** ** Computations that read the world, write the console and may throw *)

Section Effects.

Context {num : Type}.

Definition IO (A : Type) : Type := World num -> JS.completion A * World num.

Definition ret {A : Type} (a : A) : IO A := fun w => (JS.Normal a, w).

Definition bind {A B : Type} (m : IO A) (k : A -> IO B) : IO B :=
  fun w =>
    match m w with
    | (JS.Normal a, w') => k a w'
    | (JS.Throw e, w') => (JS.Throw e, w')
    end.

Definition throw {A : Type} (e : JS.Exception) : IO A := fun w => (JS.Throw e, w).

(** [try { body } catch (error) { handler }] *)
Definition try_catch {A : Type} (body : IO A) (handler : JS.Exception -> IO A) : IO A :=
  fun w =>
    match body w with
    | (JS.Normal a, w') => (JS.Normal a, w')
    | (JS.Throw e, w') => handler e w'
    end.

Definition lift {A : Type} (c : JS.completion A) : IO A := fun w => (c, w).

(** The world after some more console lines. *)
Definition log_to (w : World num) (lines : list (LogLine num)) : World num :=
  {| sales_json := sales_json w; console := console w ++ lines |}.

(** [console.log(...)] and [console.error(...)] *)
Definition write (line : LogLine num) : IO unit :=
  fun w => (JS.Normal tt, log_to w [line]).

(** [fs.readFileSync(path, 'utf8')] of the data file. *)
Definition readFileSync : IO string :=
  fun w =>
    match sales_json w with
    | Some raw => (JS.Normal raw, w)
    | None => (JS.Throw (JS.SystemError "ENOENT"), w)
    end.

End Effects.

Arguments IO : clear implicits.

Declare Scope io_scope.
Delimit Scope io_scope with io.
Notation "x <- m ;; k" := (bind m (fun x => k))
  (at level 61, m at next level, right associativity) : io_scope.
Notation "m ;; k" := (bind m (fun _ => k))
  (at level 61, right associativity) : io_scope.

(* ================================================================== *)
(** * Part 5: the controller *)
(* ================================================================== *)

Section Controller.

Context {num : Type} `{Number num} {engine : JS.Engine}.

(** [JSON.parse] of the file's text at the type the loader declares,
    [SalesRecord[]]: the records, for the JSON text of an array of sales
    records; [None] when the text is not JSON (a SyntaxError). *)
Variable JSON_parse : string -> option (list (SalesRecord num)).

(** [new Date(text)]. *)
Variable Date_parse : string -> Date.t.

Local Open Scope io_scope.
Local Open Scope js_scope.

Local Abbreviation record := (SalesRecord num).
Local Abbreviation action := (IO num).

Definition filePath : string := "../data/sales.json".

(** ** [getSalesData] *)

Definition parse_sales (rawData : string) : action (list record) :=
  match JSON_parse rawData with
  | Some salesData => ret salesData
  | None => throw (JS.SyntaxError "Unexpected token")
  end.

Definition getSalesData : action (list record) :=
  try_catch
    (write (console_log "Reading sales data from:" [LText filePath]) ;;
     rawData <- readFileSync ;;
     salesData <- parse_sales rawData ;;
     write (console_log "Successfully loaded sales data. Number of records:"
              [LCount (List.length salesData)]) ;;
     ret salesData)
    (fun error =>
       write (console_error "Error reading sales data:" [LException error]) ;;
       ret []).

(** ** [getStates] *)

(** [[...new Set(values)]]: the distinct values, each at its first place. *)
Fixpoint distinct (seen values : list string) : list string :=
  match values with
  | [] => []
  | v :: rest =>
      if existsb (String.eqb v) seen then distinct seen rest
      else v :: distinct (v :: seen) rest
  end.

Definition getStates : action (Response num) :=
  try_catch
    (salesData <- getSalesData ;;
     let states := distinct [] (map (fun r : record => State r) salesData) in
     ret {| status := 200; body := StatesBody states |})
    (fun error =>
       ret {| status := 500; body := ErrorBody "Failed to fetch states" |}).

(** ** [getDateRange] *)

Definition getDateRange (state : string) : action (Response num) :=
  try_catch
    (salesData <- getSalesData ;;
     let stateRecords :=
       filter (fun r : record => String.eqb (State r) state) salesData in
     if (List.length stateRecords =? 0)%nat then
       ret {| status := 404; body := ErrorBody "State not found" |}
     else
       let dates := map (fun r : record => Date_parse (Order_Date r)) stateRecords in
       minTime <- lift (JS.spread_call Date.Math_min (map Date.getTime dates)) ;;
       let minDate := Date.of_time minTime in
       maxTime <- lift (JS.spread_call Date.Math_max (map Date.getTime dates)) ;;
       let maxDate := Date.of_time maxTime in
       minText <- lift (Date.toISOString minDate) ;;
       maxText <- lift (Date.toISOString maxDate) ;;
       ret {| status := 200;
              body := DateRangeBody (JS.split_head "T" minText)
                                    (JS.split_head "T" maxText) |})
    (fun error =>
       ret {| status := 500; body := ErrorBody "Failed to fetch date range" |}).

(** ** [getDashboardData]: the filters *)

(** Lines 88-91: [if (state && state !== 'All States')]. *)
Definition state_filter_applies (state : JS.param) : bool :=
  JS.truthy_param state && negb (JS.param_is state "All States").

Definition filterByState (state : JS.param) (data : list record) : list record :=
  filter (fun r : record => JS.param_is state (State r)) data.

(** Lines 94-102: [if (startDate && endDate)]. *)
Definition date_filter_applies (startDate endDate : JS.param) : bool :=
  JS.truthy_param startDate && JS.truthy_param endDate.

Definition param_text (p : JS.param) : string :=
  match p with Some s => s | None => EmptyString end.

Definition in_date_range (startDate endDate : JS.param) (r : record) : bool :=
  let recordDate := Date_parse (Order_Date r) in
  let start := Date_parse (param_text startDate) in
  let end_ := Date_parse (param_text endDate) in
  Date.geb recordDate start && Date.leb recordDate end_.

Definition filterByDate (startDate endDate : JS.param) (data : list record)
  : list record :=
  filter (in_date_range startDate endDate) data.

(** The value of [filteredData] at line 103. *)
Definition filteredData (q : Query) (salesData : list record) : list record :=
  let data := salesData in
  let data :=
    if state_filter_applies (state q) then filterByState (state q) data else data in
  if date_filter_applies (startDate q) (endDate q)
  then filterByDate (startDate q) (endDate q) data
  else data.

(** ** [getDashboardData]: the aggregation, lines 104-169

    The record [Dashboard] has the names [totalSales], [quantitySold],
    [discountPercentage], [totalProfit], [salesByCity], [salesByCategory],
    [salesBySubCategory] and [salesBySegment] for the fields of the answer;
    the local constants of the same names are written here with
    underscores. *)

(** [(found || 0) + x], where [found] is what [acc[key]] read: a number
    that is truthy is added to, one that is falsy and [undefined] give
    [0 + x]; a string and a member of [Object.prototype] are truthy, and
    [+] appends the decimal form of [x] to their text. *)
Definition or_zero_plus (found : JS.reading (cell num)) (x : num) : cell num :=
  match found with
  | JS.Own (Num a) => Num (or_else a zero + x)
  | JS.Own (Text origin appended) => Text origin (appended ++ [x])
  | JS.Inherited name => Text name [x]
  | JS.Undefined => Num (zero + x)
  end.

(** [acc[key] = (acc[key] || 0) + record.Sales] on an [acc] that began as
    [{}]. *)
Definition accumulate (key : record -> string) (acc : JS.object (cell num))
  (r : record) : JS.object (cell num) :=
  JS.put acc (key r) (or_zero_plus (JS.get acc (key r)) (Sales r)).

Definition salesBy (key : record -> string) (data : list record)
  : JS.object (cell num) :=
  JS.reduce (accumulate key) JS.empty_object data.

Definition total_sales (data : list record) : num :=
  JS.reduce (fun sum r => sum + Sales r) zero data.

Definition quantity_sold (data : list record) : num :=
  JS.reduce (fun sum r => sum + Quantity r) zero data.

Definition totalDiscount (data : list record) : num :=
  JS.reduce (fun sum r => sum + Sales r * Discount r) zero data.

Definition total_profit (data : list record) : num :=
  JS.reduce (fun sum r => sum + Profit r) zero data.

Definition discount_percentage (data : list record) : num :=
  if total_sales data >? zero
  then totalDiscount data / total_sales data * lit 100
  else zero.

Definition sales_by_city (data : list record) : JS.object (cell num) :=
  salesBy (fun r => City r) data.

Definition productSalesMap (data : list record) : JS.object (cell num) :=
  fold_left (accumulate (fun r => Product_Name r)) data JS.empty_object.

(** [(a, b) => b[1] - a[1]]: [-] takes its operands by [ToNumber]. *)
Definition by_sales_descending (a b : string * cell num) : num :=
  to_number (snd b) - to_number (snd a).

Definition sorted_products (data : list record) : list (string * cell num) :=
  Array_sort by_sales_descending (JS.Object_entries (productSalesMap data)).

Definition top10Products (data : list record) : list (Product.t num) :=
  map (fun e => {| Product.name := fst e; Product.sales := snd e |})
      (JS.slice0 10 (sorted_products data)).

Definition sales_by_category (data : list record) : JS.object (cell num) :=
  salesBy (fun r => Category r) data.

Definition sales_by_sub_category (data : list record) : list (SubCategory.t num) :=
  map (fun e => {| SubCategory.name := fst e; SubCategory.value := snd e |})
      (JS.Object_entries (salesBy (fun r => Sub_Category r) data)).

Definition sales_by_segment (data : list record) : JS.object (cell num) :=
  salesBy (fun r => Segment r) data.

Definition response (data : list record) : Dashboard num :=
  {| totalSales := Math_round (total_sales data);
     quantitySold := quantity_sold data;
     discountPercentage := Math_round (discount_percentage data * lit 10) / lit 10;
     totalProfit := Math_round (total_profit data);
     salesByCity := sales_by_city data;
     salesByProducts := top10Products data;
     salesByCategory := sales_by_category data;
     salesBySubCategory := sales_by_sub_category data;
     salesBySegment := sales_by_segment data |}.

(** ** [getDashboardData]: the handler *)

Definition getDashboardData (q : Query) : action (Response num) :=
  try_catch
    (write (console_log "Received request with params:" [LQuery q]) ;;
     salesData <- getSalesData ;;
     (if (List.length salesData =? 0)%nat
      then throw (JS.Error "No sales data available")
      else ret tt) ;;
     let byState :=
       if state_filter_applies (state q)
       then filterByState (state q) salesData else salesData in
     (if state_filter_applies (state q)
      then write (console_log "Filtered by state. Records remaining:"
                    [LCount (List.length byState)])
      else ret tt) ;;
     let byDate :=
       if date_filter_applies (startDate q) (endDate q)
       then filterByDate (startDate q) (endDate q) byState else byState in
     (if date_filter_applies (startDate q) (endDate q)
      then write (console_log "Filtered by date range. Records remaining:"
                    [LCount (List.length byDate)])
      else ret tt) ;;
     let response := response byDate in
     write (console_log "Sending response with data:"
              [LNumber (totalSales response); LCount (List.length byDate)]) ;;
     ret {| status := 200; body := DashboardBody response |})
    (fun error =>
       write (console_error "Error processing dashboard data:" [LException error]) ;;
       ret {| status := 500; body := ErrorBody "Failed to process dashboard data" |}).

End Controller.

(* ================================================================== *)
(** * Part 6: what the specification's words describe *)
(* ================================================================== *)

Section Specification.

Context {num : Type} `{Number num} {engine : JS.Engine}.

Local Open Scope js_scope.

(** The keys of a record set in encounter order of their first occurrence. *)
Definition first_occurrences (keys : list string) : list string := distinct [] keys.

(** The sales of the records whose key is [k], in encounter order. *)
Definition sales_of (key : SalesRecord num -> string) (k : string)
  (data : list (SalesRecord num)) : list num :=
  map (fun r => Sales r) (filter (fun r => String.eqb (key r) k) data).

(** What repeated [acc = (acc || 0) + x] leaves in [acc]: the running sum,
    taken up again from 0 whenever it has become falsy (0 or NaN). *)
Definition running_total (l : list num) : num :=
  fold_left (fun acc x => or_else acc zero + x) l zero.

(** The values [acc] takes before each addition of [sum + x] over [l]. *)
Fixpoint partial_sums (acc : num) (l : list num) : list num :=
  match l with
  | [] => []
  | x :: l' => acc :: partial_sums (acc + x) l'
  end.

(** Group-by-sum "in encounter order", as section 4.3 words it. *)
Definition group_by_sum (key : SalesRecord num -> string)
  (data : list (SalesRecord num)) : list (string * num) :=
  map (fun k => (k, running_total (sales_of key k data)))
      (first_occurrences (map key data)).

(** A list of names and numbers as the entries of a grouping. *)
Definition as_cells (l : list (string * num)) : list (string * cell num) :=
  map (fun e => (fst e, Num (snd e))) l.

(** Section 4.3's top products: the groups in encounter order, a stable
    descending sort, the first ten. *)
Definition top_products_spec (data : list (SalesRecord num)) : list (Product.t num) :=
  map (fun e => {| Product.name := fst e; Product.sales := snd e |})
      (firstn 10 (stable_sort by_sales_descending
                    (as_cells (group_by_sum (fun r => Product_Name r) data)))).

(** Section 4.3's sub-category list: the groups in encounter order. *)
Definition sub_categories_spec (data : list (SalesRecord num))
  : list (SubCategory.t num) :=
  map (fun e => {| SubCategory.name := fst e; SubCategory.value := snd e |})
      (as_cells (group_by_sum (fun r => Sub_Category r) data)).

(** What the loop [acc[k] = (acc[k] || 0) + record.Sales] has stored
    under [k] after the sales [l] of the records of key [k]: their running
    total, or, when [k] names a member of [Object.prototype], the text of
    that member with the sales appended. *)
Definition settled (k : string) (l : list num) : cell num :=
  if JS.inherited k then Text k l else Num (running_total l).

(** The keys the loop creates, in creation order: every key at its first
    occurrence, but never [__proto__]. *)
Definition created_keys (keys : list string) : list string :=
  filter (fun k => negb (String.eqb k "__proto__")) (first_occurrences keys).

(** The object the loop builds from [{}]. *)
Definition grouping (key : SalesRecord num -> string)
  (data : list (SalesRecord num)) : JS.object (cell num) :=
  map (fun k => (k, settled k (sales_of key k data)))
      (created_keys (map key data)).

(** The values of a grouping, as numbers. *)
Definition numbers (o : JS.object (cell num)) : list num :=
  map (fun e => to_number (snd e)) o.

(** Every value of the grouping is a number. *)
Definition all_numbers (o : JS.object (cell num)) : Prop :=
  Forall (fun e => is_number (snd e) = true) o.

(** No record's key names a member of [Object.prototype]. *)
Definition plain_keys (key : SalesRecord num -> string)
  (data : list (SalesRecord num)) : Prop :=
  Forall (fun r => JS.inherited (key r) = false) data.

(** Section 4.3's discount percentage: the quotient unless the total is 0. *)
Definition discount_percentage_spec (totalDiscountAmount totalSales : num) : num :=
  if truthy totalSales then totalDiscountAmount / totalSales * lit 100 else zero.

(** The order in which an object's own keys are enumerated, given the order
    in which they were created: array indices ascending, then the rest. *)
Definition enumeration_of (created enumerated : list string) : Prop :=
  exists indices named,
    enumerated = indices ++ named /\
    named = filter (fun k => negb (JS.is_array_index k)) created /\
    Permutation indices (filter JS.is_array_index created) /\
    StronglySorted
      (fun a b => match JS.array_index a, JS.array_index b with
                  | Some n, Some m => (n <= m)%N
                  | _, _ => False
                  end) indices.


(** [comparefn] ranks [e] and [x] equal. *)
Definition ranks_equal {A : Type} (comparefn : A -> A -> num) (e x : A) : bool :=
  in_order comparefn e x && in_order comparefn x e.

(** [p] may stand before [q] in a list that is descending by sales. *)
Definition not_below (p q : Product.t num) : Prop :=
  (to_number (Product.sales q) - to_number (Product.sales p) >? zero) = false.

Definition as_product (e : string * cell num) : Product.t num :=
  {| Product.name := fst e; Product.sales := snd e |}.

(** The plain mean of the discount rates, as a percentage: what the
    discount percentage is not. *)
Definition mean_discount_percentage (data : list (SalesRecord num)) : num :=
  sum (map (fun r => Discount r) data) / lit (Z.of_nat (List.length data)) * lit 100.

(** The comparison function [(a, b) => b[1] - a[1]] lets [x] stand before
    [y]: it does not ask for [y] first. *)
Definition keeps (x y : string * cell num) : bool :=
  in_order by_sales_descending x y.

(** The comparison function ranks [x] and [y] equal. *)
Definition tied (x y : string * cell num) : bool :=
  ranks_equal by_sales_descending x y.

(** ECMAScript leaves the order a sort produces to the implementation
    unless the comparison function is consistent on the values sorted.
    For [(a, b) => b[1] - a[1]] on the list [l] this asks that its sign
    turns over with its arguments, that of two elements one may stand
    first, and that standing before is transitive. *)
Definition consistent_on (l : list (string * cell num)) : bool :=
  consistent by_sales_descending l.

End Specification.

(** The summary of no records at all, in the program's arithmetic. *)
Definition empty_summary : Dashboard float :=
  {| totalSales := 0%float; quantitySold := 0%float; discountPercentage := 0%float;
     totalProfit := 0%float; salesByCity := []; salesByProducts := [];
     salesByCategory := []; salesBySubCategory := []; salesBySegment := [] |}.

(** No record has a negative sale (nor one that is NaN). *)
Definition no_negative_sales (data : list (SalesRecord float)) : Prop :=
  Forall (fun r => (0 <=? Sales r)%float = true) data.

(** A query parameter is absent: the query does not have it, or gives it
    no text, as in [?startDate=&endDate=2014-01-31]. *)
Definition absent (p : JS.param) : Prop := p = None \/ p = Some EmptyString.

(** ** What the handlers answer, as functions of the data file *)

Section Outcomes.

Context {num : Type} `{Number num} {engine : JS.Engine}.

Variable JSON_parse : string -> option (list (SalesRecord num)).
Variable Date_parse : string -> Date.t.

Local Abbreviation record := (SalesRecord num).

(** The data file, if it can be read, is the text of an array of sales
    records, as the loader's type [SalesRecord[]] has it. *)
Definition holds_records (w : World num) : Prop :=
  forall raw, sales_json w = Some raw ->
    exists salesData, JSON_parse raw = Some salesData.

(** What the loader yields: the parsed file, or nothing. *)
Definition loaded (w : World num) : list record :=
  match sales_json w with
  | Some raw => match JSON_parse raw with Some salesData => salesData | None => [] end
  | None => []
  end.

Definition loader_lines (w : World num) : list (LogLine num) :=
  console_log "Reading sales data from:" [LText filePath] ::
  match sales_json w with
  | Some raw =>
      match JSON_parse raw with
      | Some salesData =>
          [console_log "Successfully loaded sales data. Number of records:"
             [LCount (List.length salesData)]]
      | None =>
          [console_error "Error reading sales data:"
             [LException (JS.SyntaxError "Unexpected token")]]
      end
  | None =>
      [console_error "Error reading sales data:"
         [LException (JS.SystemError "ENOENT")]]
  end.

(** The answer of [getDashboardData] as a function of what was loaded. *)
Definition dashboard_reply (q : Query) (salesData : list record) : Response num :=
  if (List.length salesData =? 0)%nat
  then {| status := 500; body := ErrorBody "Failed to process dashboard data" |}
  else {| status := 200;
          body := DashboardBody (response (filteredData Date_parse q salesData)) |}.

(** The answer of [getDateRange] as a function of what was loaded. *)
Definition date_range_reply (st : string) (salesData : list record) : Response num :=
  let stateRecords := filter (fun r : record => String.eqb (State r) st) salesData in
  let times := map (fun r : record => Date.getTime (Date_parse (Order_Date r))) stateRecords in
  if (List.length stateRecords =? 0)%nat
  then {| status := 404; body := ErrorBody "State not found" |}
  else if (JS.max_arguments <? List.length times)%nat
  then {| status := 500; body := ErrorBody "Failed to fetch date range" |}
  else
    match Date.of_time (Date.Math_min times), Date.of_time (Date.Math_max times) with
    | Some lo, Some hi =>
        {| status := 200;
           body := DateRangeBody
                     (JS.split_head "T" (Date.date_string lo ++ "T" ++ Date.time_string lo ++ "Z"))
                     (JS.split_head "T" (Date.date_string hi ++ "T" ++ Date.time_string hi ++ "Z")) |}
    | _, _ => {| status := 500; body := ErrorBody "Failed to fetch date range" |}
    end.

(** The order date of [r] lies between the two bounds, both included. *)
Definition within (from to : string) (r : record) : bool :=
  match Date_parse (Order_Date r), Date_parse from, Date_parse to with
  | Some time, Some lo, Some hi => ((lo <=? time) && (time <=? hi))%Z
  | _, _, _ => false
  end.

End Outcomes.

(* ================================================================== *)
(** * Part 7: sample data *)
(* ================================================================== *)

Module Sample.

Local Open Scope string_scope.
Local Open Scope float_scope.

Definition sale (city st date product category sub segment : string)
  (sales quantity discount profit : float) : SalesRecord float :=
  {| Row_ID := 1; Order_ID := "CA-2014-100006"; Order_Date := date;
     Ship_Date := date; Ship_Mode := "Standard Class"; Customer_ID := "DK-13375";
     Customer_Name := "Dennis Kane"; Segment := segment; Country := "United States";
     City := city; State := st; Postal_Code := 10024; Region := "East";
     Product_ID := "TEC-PH-10002075"; Category := category; Sub_Category := sub;
     Product_Name := product; Sales := sales; Quantity := quantity;
     Discount := discount; Profit := profit |}.

(** The example of section 8 of the specification. *)
Definition two_records : list (SalesRecord float) :=
  [ sale "A" "New York" "2014-01-03" "Stapler" "Office Supplies" "Fasteners"
      "Consumer" 100 2 0.1 10;
    sale "B" "Texas" "2014-02-07" "Bookcase" "Furniture" "Bookcases"
      "Corporate" 50 1 0.2 5 ].

(** A single return: the sale is negative. *)
Definition refund : list (SalesRecord float) :=
  [ sale "A" "New York" "2014-01-03" "Stapler" "Office Supplies" "Fasteners"
      "Consumer" (-100) 1 0.1 (-10) ].

(** Three small sales in two cities. *)
Definition cents : list (SalesRecord float) :=
  [ sale "B" "Texas" "2014-01-03" "Pins" "Office Supplies" "Fasteners"
      "Consumer" 0.1 1 0 0.01;
    sale "A" "New York" "2014-01-04" "Clips" "Office Supplies" "Fasteners"
      "Consumer" 0.2 1 0 0.02;
    sale "A" "New York" "2014-01-05" "Tacks" "Office Supplies" "Fasteners"
      "Consumer" 0.3 1 0 0.03 ].

(** Products and sub-categories that are named by numbers. *)
Definition numbered : list (SalesRecord float) :=
  [ sale "A" "New York" "2014-01-03" "2" "Office Supplies" "2" "Consumer" 5 1 0 1;
    sale "A" "New York" "2014-01-04" "1" "Office Supplies" "1" "Consumer" 5 1 0 1;
    sale "B" "Texas" "2014-01-05" "Chair" "Furniture" "Chairs" "Consumer" 7 1 0 2 ].

(** Twelve products, some with equal sales, one sold twice. *)
Definition catalogue : list (SalesRecord float) :=
  map (fun ps => sale "A" "New York" "2014-03-01" (fst ps) "Technology" "Phones"
                   "Consumer" (snd ps) 1 0 1)
      [ ("P01", 10); ("P02", 30); ("P03", 20); ("P04", 30); ("P05", 5);
        ("P06", 20); ("P07", 1); ("P08", 2); ("P09", 3); ("P10", 4);
        ("P11", 30); ("P12", 6); ("P05", 15.5) ].

(** Four sales in three sub-categories: the first sub-category comes
    back, and has the smallest total. *)
Definition shelves : list (SalesRecord float) :=
  [ sale "A" "New York" "2014-01-03" "Stool" "Furniture" "Chairs" "Consumer" 10 1 0 1;
    sale "A" "New York" "2014-01-04" "Desk" "Furniture" "Tables" "Consumer" 30 1 0 3;
    sale "B" "Texas" "2014-01-05" "Bench" "Furniture" "Chairs" "Consumer" 5 1 0 1;
    sale "B" "Texas" "2014-01-06" "Handset" "Technology" "Phones" "Consumer" 20 1 0 2 ].

(** Three sales whose city, product, category and sub-category are named
    like members of [Object.prototype]. *)
Definition namesakes : list (SalesRecord float) :=
  [ sale "constructor" "Texas" "2014-01-03" "__proto__" "toString" "valueOf"
      "Consumer" 100 1 0 10;
    sale "__proto__" "Texas" "2014-01-04" "Stapler" "Office Supplies" "__proto__"
      "Consumer" 50 1 0 5;
    sale "constructor" "Texas" "2014-01-05" "Stapler" "toString" "Fasteners"
      "Consumer" 25 1 0 2 ].

(** A record whose order date is not a date. *)
Definition undated : list (SalesRecord float) :=
  [ sale "A" "New York" "" "Stapler" "Office Supplies" "Fasteners"
      "Consumer" 100 2 0.1 10 ].

(** A record dated in the year 10000. *)
Definition far_future : list (SalesRecord float) :=
  [ sale "A" "New York" "+010000-01-01" "Stapler" "Office Supplies" "Fasteners"
      "Consumer" 100 2 0.1 10 ].

(** The same three small sales as [cents], in exact arithmetic. *)
Definition exact_sale (city : string) (sales : Qc) : SalesRecord Qc :=
  {| Row_ID := 1%Qc; Order_ID := "CA-2014-100006"; Order_Date := "2014-01-03";
     Ship_Date := "2014-01-07"; Ship_Mode := "Standard Class";
     Customer_ID := "DK-13375"; Customer_Name := "Dennis Kane";
     Segment := "Consumer"; Country := "United States"; City := city;
     State := "New York"; Postal_Code := 1%Qc; Region := "East";
     Product_ID := "TEC-PH-10002075"; Category := "Office Supplies";
     Sub_Category := "Fasteners"; Product_Name := "Pins"; Sales := sales;
     Quantity := 1%Qc; Discount := 0%Qc; Profit := 0%Qc |}.

Definition exact_cents : list (SalesRecord Qc) :=
  [ exact_sale "B" (Q2Qc (1 # 10)); exact_sale "A" (Q2Qc (2 # 10));
    exact_sale "A" (Q2Qc (3 # 10)) ].

(** A data file and the parser's reading of it. *)
Definition read_as {num : Type} (data : list (SalesRecord num)) (raw : string)
  : option (list (SalesRecord num)) :=
  if String.eqb raw "[ ... ]" then Some data else None.

Definition disk {num : Type} : World num :=
  {| sales_json := Some "[ ... ]"; console := [] |}.

Definition corrupt_disk {num : Type} : World num :=
  {| sales_json := Some "[ ...,"; console := [] |}.

Definition no_disk {num : Type} : World num :=
  {| sales_json := None; console := [] |}.

(** An engine for the examples: a call passes up to 65535 arguments, and a
    sort by a comparison function that is not consistent leaves the array
    as it is. *)
Definition engine : JS.Engine :=
  {| JS.max_arguments := 2 ^ 16 - 1;
     JS.unspecified_sort := fun (R A : Type) (_ : A -> A -> R) (arr : list A) => arr;
     JS.unspecified_sort_permutes :=
       fun (R A : Type) (_ : A -> A -> R) (arr : list A) => Permutation_refl arr |}.

(** An engine whose calls pass one argument only. *)
Definition narrow_engine : JS.Engine :=
  {| JS.max_arguments := 1;
     JS.unspecified_sort := fun (R A : Type) (_ : A -> A -> R) (arr : list A) => arr;
     JS.unspecified_sort_permutes :=
       fun (R A : Type) (_ : A -> A -> R) (arr : list A) => Permutation_refl arr |}.

End Sample.

(** No record of a sample is named like a member of [Object.prototype]. *)
Ltac plain_names :=
  unfold plain_keys; repeat constructor.

(** The property holds whatever the engine is. *)
Definition on_every_engine (P : JS.Engine -> Prop) : Prop :=
  forall engine : JS.Engine, P engine.

(* ================================================================== *)
(** * Part 8: the page that draws the summary *)
(* ================================================================== *)

(** The data of two charts, as the component [Dashboard] computes them
    from [data], the [DashboardData] it fetched from [/api/dashboard]
    ([null] as long as no answer has arrived).  Numbers are the running
    program's; the arithmetic of the page takes the value of a grouping
    by [ToNumber]. *)

Module Page.

Section Charts.

Context {engine : JS.Engine}.

(** Evaluating an expression of the page yields a value or throws a
    TypeError. *)
Inductive evaluation (A : Type) : Type :=
| Value (a : A)
| TypeError (message : string).

Arguments Value {A} a.
Arguments TypeError {A} message.

(** [arr.map(f)] for a callback that may throw. *)
Fixpoint Array_map {A B : Type} (f : A -> evaluation B) (arr : list A)
  : evaluation (list B) :=
  match arr with
  | [] => Value []
  | x :: arr' =>
      match f x with
      | Value y =>
          match Array_map f arr' with
          | Value ys => Value (y :: ys)
          | TypeError message => TypeError message
          end
      | TypeError message => TypeError message
      end
  end.

(** [([, a], [, b]) => b - a] *)
Definition by_value_descending (x y : string * cell float) : float :=
  sub (to_number (snd y)) (to_number (snd x)).

(** [cityChartOption.yAxis.data] *)
Definition cityChart_yAxis_data (data : option (Dashboard float)) : list string :=
  match data with
  | Some data =>
      map (fun e => fst e)
        (JS.slice0 8 (Array_sort by_value_descending
                        (JS.Object_entries (salesByCity data))))
  | None => []
  end.

(** [cityChartOption.series[0].data] *)
Definition cityChart_series_data (data : option (Dashboard float))
  : list (cell float) :=
  match data with
  | Some data =>
      map (fun e => snd e)
        (JS.slice0 8 (Array_sort by_value_descending
                        (JS.Object_entries (salesByCity data))))
  | None => []
  end.

(** [productsChartOption.yAxis.data] *)
Definition productsChart_yAxis_data (data : option (Dashboard float)) : list string :=
  match data with
  | Some data =>
      map (fun product => Product.name product) (JS.slice0 10 (salesByProducts data))
  | None => []
  end.

(** [data.salesByProducts[0].sales]: reading [sales] of [undefined]
    throws. *)
Definition first_product_sales (data : Dashboard float) : evaluation (cell float) :=
  match nth_error (salesByProducts data) 0 with
  | Some product => Value (Product.sales product)
  | None => TypeError "Cannot read properties of undefined (reading 'sales')"
  end.

(** [productsChartOption.series[0].data], the values of the bars drawn
    behind: [data.salesByProducts[0].sales * 1.2] for every product. *)
Definition productsChart_background_data (data : option (Dashboard float))
  : evaluation (list float) :=
  match data with
  | Some data =>
      Array_map (fun _ : Product.t float =>
                   match first_product_sales data with
                   | Value sales => Value (mul (to_number sales) 1.2%float)
                   | TypeError message => TypeError message
                   end)
                (JS.slice0 10 (salesByProducts data))
  | None => Value []
  end.

(** [productsChartOption.series[1].data], the values of the bars. *)
Definition productsChart_series_data (data : option (Dashboard float))
  : list (cell float) :=
  match data with
  | Some data =>
      map (fun product => Product.sales product) (JS.slice0 10 (salesByProducts data))
  | None => []
  end.

End Charts.

End Page.

(* ================================================================== *)
(** * Part 9: notions used to state further properties *)
(* ================================================================== *)

Section Notions.

Context {num : Type} `{Number num} {engine : JS.Engine}.

Variable Date_parse : string -> Date.t.

(** The record passes the filters the query asks for. *)
Definition passes (q : Query) (r : SalesRecord num) : bool :=
  (if state_filter_applies (state q) then JS.param_is (state q) (State r) else true)
  && (if date_filter_applies (startDate q) (endDate q)
      then in_date_range Date_parse (startDate q) (endDate q) r else true).

(** The order date of [r] is not later than [time]. *)
Definition ordered_by (time : Z) (r : SalesRecord num) : bool :=
  match Date_parse (Order_Date r) with
  | Some ordered => (ordered <=? time)%Z
  | None => false
  end.

(** The order date of [r] is a midnight in UTC. *)
Definition ordered_at_midnight (r : SalesRecord num) : Prop :=
  exists day : Z, Date_parse (Order_Date r) = Some (day * Date.msPerDay)%Z.

(** The largest entries of a grouping: the first [n] of its entries
    sorted by [(a, b) => b[1] - a[1]]. *)
Definition top_entries (n : nat) (o : JS.object (cell num))
  : list (string * cell num) :=
  firstn n (Array_sort by_sales_descending (JS.Object_entries o)).

End Notions.

(** The value held under the key [k] is a number that is not negative
    or, under a key that names a member of [Object.prototype], a
    string. *)
Definition not_negative (k : string) (c : cell float) : Prop :=
  match c with
  | Num x => (0 <=? x)%float = true
  | Text _ _ => JS.inherited k = true
  end.

(** Midnight in UTC of the day of [ms]. *)
Definition day_start (ms : Z) : Z := (ms / Date.msPerDay * Date.msPerDay)%Z.

(** A data file in two states: the records of section 8 of the
    specification in their order, and in the reverse order. *)
Module Shelf.

Definition parse (raw : string) : option (list (SalesRecord float)) :=
  if String.eqb raw "reversed" then Some (rev Sample.two_records)
  else Some Sample.two_records.

Definition as_filed : World float :=
  {| sales_json := Some "in order"%string; console := [] |}.

Definition reversed : World float :=
  {| sales_json := Some "reversed"%string; console := [] |}.

End Shelf.

(* ================================================================== *)
(** * Part 10: facts about the platform *)
(* ================================================================== *)

Lemma string_eqb_sym (a b : string) : String.eqb a b = String.eqb b a.
Proof.
  destruct (String.eqb_spec a b) as [->|Hab].
  - now rewrite String.eqb_refl.
  - destruct (String.eqb_spec b a) as [->|_]; [contradiction|reflexivity].
Qed.

Lemma existsb_eqb_In (k : string) (l : list string) :
  existsb (String.eqb k) l = true <-> In k l.
Proof.
  rewrite existsb_exists. split.
  - intros [x [Hx Hk]]. apply String.eqb_eq in Hk. now subst.
  - intros Hin. exists k. split; [assumption | apply String.eqb_refl].
Qed.

Lemma existsb_eqb_notIn (k : string) (l : list string) :
  existsb (String.eqb k) l = false <-> ~ In k l.
Proof.
  rewrite <- existsb_eqb_In.
  destruct (existsb (String.eqb k) l); split; intros; easy.
Qed.

Section ObjectFacts.

Context {V : Type}.

Implicit Types (o : JS.object V) (k : string) (v : V).

Lemma get_prop_set_same o k v : JS.get_prop (JS.set_prop o k v) k = Some v.
Proof.
  induction o as [|[k' v'] o IH]; simpl.
  - now rewrite String.eqb_refl.
  - destruct (String.eqb k' k) eqn:E; simpl; rewrite E; [reflexivity | exact IH].
Qed.

Lemma get_prop_set_other o k k' v :
  k' <> k -> JS.get_prop (JS.set_prop o k v) k' = JS.get_prop o k'.
Proof.
  intros Hne. induction o as [|[k0 v0] o IH]; simpl.
  - destruct (String.eqb_spec k k'); [congruence | reflexivity].
  - destruct (String.eqb_spec k0 k) as [->|Hk0]; simpl.
    + destruct (String.eqb_spec k k'); [congruence | reflexivity].
    + now rewrite IH.
Qed.

Lemma get_prop_None o k : JS.get_prop o k = None <-> ~ In k (JS.own_keys o).
Proof.
  induction o as [|[k0 v0] o IH]; simpl.
  - tauto.
  - destruct (String.eqb_spec k0 k) as [->|Hk0].
    + split; [discriminate | intros Hn; exfalso; apply Hn; now left].
    + rewrite IH. split; [intros Hn [Heq|Hin]; [congruence | auto] | tauto].
Qed.

Lemma own_keys_set o k v :
  JS.own_keys (JS.set_prop o k v) =
  if existsb (String.eqb k) (JS.own_keys o) then JS.own_keys o
  else JS.own_keys o ++ [k].
Proof.
  unfold JS.own_keys.
  induction o as [|[k0 v0] o IH]; simpl; [reflexivity|].
  rewrite (string_eqb_sym k k0).
  destruct (String.eqb k0 k) eqn:E; simpl; [reflexivity|].
  rewrite IH.
  now destruct (existsb (String.eqb k) (map fst o)).
Qed.

Lemma get_prop_put_same o k v :
  k <> "__proto__"%string -> JS.get_prop (JS.put o k v) k = Some v.
Proof.
  intros Hk. unfold JS.put.
  destruct (String.eqb_spec k "__proto__"); [contradiction|].
  apply get_prop_set_same.
Qed.

Lemma get_prop_put_other o k k' v :
  k' <> k -> JS.get_prop (JS.put o k v) k' = JS.get_prop o k'.
Proof.
  intros Hk. unfold JS.put.
  destruct (String.eqb k "__proto__"); [reflexivity|].
  now apply get_prop_set_other.
Qed.

Lemma own_keys_put o k v :
  JS.own_keys (JS.put o k v) =
  if String.eqb k "__proto__" || existsb (String.eqb k) (JS.own_keys o)
  then JS.own_keys o
  else JS.own_keys o ++ [k].
Proof.
  unfold JS.put. destruct (String.eqb k "__proto__"); [reflexivity|].
  apply own_keys_set.
Qed.

(** An object is determined by its keys in creation order and by what
    [get_prop] answers for each of them. *)
Lemma object_ext o (f : string -> V) :
  NoDup (JS.own_keys o) ->
  (forall k, In k (JS.own_keys o) -> JS.get_prop o k = Some (f k)) ->
  o = map (fun k => (k, f k)) (JS.own_keys o).
Proof.
  induction o as [|[k0 v0] o IH]; simpl; intros Hnd Hget; [reflexivity|].
  inversion Hnd as [|? ? Hnotin Hnd']; subst.
  f_equal.
  - specialize (Hget k0 (or_introl eq_refl)). rewrite String.eqb_refl in Hget.
    now inversion Hget.
  - apply IH; [assumption|].
    intros k Hin. specialize (Hget k (or_intror Hin)).
    destruct (String.eqb_spec k0 k) as [->|_]; [contradiction | assumption].
Qed.

(** *** The enumeration order of [Object.entries] *)

Lemma insert_index_perm n (kv : string * V) l :
  Permutation (JS.insert_index n kv l) ((n, kv) :: l).
Proof.
  induction l as [|[m kv'] l IH]; simpl; [reflexivity|].
  destruct (n <? m)%N; [reflexivity|].
  rewrite IH. apply perm_swap.
Qed.

Lemma insert_index_sorted n (kv : string * V) l :
  StronglySorted (fun a b => (fst a <= fst b)%N) l ->
  StronglySorted (fun a b => (fst a <= fst b)%N) (JS.insert_index n kv l).
Proof.
  induction l as [|[m kv'] l IH]; simpl; intros Hs.
  - repeat constructor.
  - inversion Hs as [|? ? Hs' Hall]; subst.
    destruct (N.ltb_spec n m) as [Hlt|Hge].
    + constructor; [assumption|]. constructor; simpl; [lia|].
      eapply Forall_impl; [|exact Hall]. simpl. intros a Ha. lia.
    + constructor; [auto|].
      eapply Permutation_Forall; [symmetry; apply insert_index_perm|].
      constructor; [simpl; lia | assumption].
Qed.

Lemma index_props_sorted o :
  StronglySorted (fun a b => (fst a <= fst b)%N) (JS.index_props o).
Proof.
  induction o as [|[k v] o IH]; simpl; [constructor|].
  destruct (JS.array_index k); [now apply insert_index_sorted | assumption].
Qed.

Lemma index_props_perm o :
  Permutation (map snd (JS.index_props o))
              (filter (fun kv => JS.is_array_index (fst kv)) o).
Proof.
  induction o as [|[k v] o IH]; simpl; [reflexivity|].
  unfold JS.is_array_index at 1. destruct (JS.array_index k); simpl; [|exact IH].
  rewrite insert_index_perm. simpl. now constructor.
Qed.

Lemma index_props_index o :
  Forall (fun e => JS.array_index (fst (snd e)) = Some (fst e)) (JS.index_props o).
Proof.
  induction o as [|[k v] o IH]; simpl; [constructor|].
  destruct (JS.array_index k) eqn:E; [|assumption].
  eapply Permutation_Forall; [symmetry; apply insert_index_perm|].
  constructor; [exact E | assumption].
Qed.

Lemma Object_entries_perm o : Permutation (JS.Object_entries o) o.
Proof.
  unfold JS.Object_entries, JS.named_props.
  rewrite index_props_perm.
  induction o as [|[k v] o IH]; simpl; [reflexivity|].
  destruct (JS.is_array_index k); simpl.
  - now constructor.
  - rewrite <- Permutation_middle. now constructor.
Qed.

Lemma Object_entries_named o :
  (forall k, In k (JS.own_keys o) -> JS.is_array_index k = false) ->
  JS.Object_entries o = o.
Proof.
  intros Hk. unfold JS.Object_entries, JS.named_props.
  assert (Hidx : JS.index_props o = []).
  { induction o as [|[k v] o IH]; simpl; [reflexivity|].
    assert (Hi := Hk k (or_introl eq_refl)). unfold JS.is_array_index in Hi.
    destruct (JS.array_index k); [discriminate|].
    apply IH. intros k' Hin. apply Hk. now right. }
  rewrite Hidx. simpl.
  induction o as [|[k v] o IH]; simpl; [reflexivity|].
  rewrite (Hk k (or_introl eq_refl)). simpl. f_equal.
  apply IH.
  - intros k' Hin. apply Hk. now right.
  - simpl in Hidx. assert (Hi := Hk k (or_introl eq_refl)).
    unfold JS.is_array_index in Hi. now destruct (JS.array_index k).
Qed.

End ObjectFacts.

Lemma filter_map_fst {V : Type} (P : string -> bool) (o : list (string * V)) :
  map fst (filter (fun kv => P (fst kv)) o) = filter P (map fst o).
Proof.
  induction o as [|[k v] o IH]; simpl; [reflexivity|].
  destruct (P k); simpl; now rewrite IH.
Qed.

Lemma Object_keys_enumeration {V : Type} (o : JS.object V) :
  enumeration_of (JS.own_keys o) (JS.Object_keys o).
Proof.
  exists (map fst (map snd (JS.index_props o))), (map fst (JS.named_props o)).
  split; [|split; [|split]].
  - unfold JS.Object_keys, JS.Object_entries. now rewrite map_app.
  - unfold JS.named_props, JS.own_keys.
    exact (filter_map_fst (fun k => negb (JS.is_array_index k)) o).
  - unfold JS.own_keys. rewrite <- (filter_map_fst JS.is_array_index o).
    apply Permutation_map, index_props_perm.
  - generalize (index_props_sorted o) (index_props_index o).
    induction (JS.index_props o) as [|e l IH]; simpl; intros Hs Hi; [constructor|].
    inversion Hs as [|? ? Hs' Hall]; subst.
    inversion Hi as [|? ? He Hi']; subst.
    constructor; [now apply IH|].
    rewrite Forall_map, Forall_map.
    rewrite Forall_forall in Hall, Hi' |- *.
    intros e' Hin. rewrite He, (Hi' e' Hin). now apply Hall.
Qed.

(** *** Distinct values *)

Lemma distinct_ext (s1 s2 l : list string) :
  (forall x, In x s1 <-> In x s2) -> distinct s1 l = distinct s2 l.
Proof.
  revert s1 s2. induction l as [|v l IH]; simpl; intros s1 s2 Hs; [reflexivity|].
  assert (E : existsb (String.eqb v) s1 = existsb (String.eqb v) s2).
  { destruct (existsb (String.eqb v) s2) eqn:E2.
    - apply existsb_eqb_In. apply Hs. now apply existsb_eqb_In.
    - apply existsb_eqb_notIn. rewrite Hs. now apply existsb_eqb_notIn. }
  rewrite E. destruct (existsb (String.eqb v) s2).
  - now apply IH.
  - f_equal. apply IH. intros x. simpl. now rewrite Hs.
Qed.

Lemma distinct_In (seen l : list string) (x : string) :
  In x (distinct seen l) <-> In x l /\ ~ In x seen.
Proof.
  revert seen. induction l as [|v l IH]; simpl; intros seen; [tauto|].
  destruct (existsb (String.eqb v) seen) eqn:E.
  - apply existsb_eqb_In in E. rewrite IH. split.
    + tauto.
    + intros [[->|Hin] Hn]; [contradiction | tauto].
  - apply existsb_eqb_notIn in E. simpl. rewrite IH. simpl. split.
    + intros [->|[Hin Hn]]; [tauto|]. split; [tauto|]. intros Hs. apply Hn. now right.
    + intros [[->|Hin] Hn]; [now left|].
      destruct (String.eqb_spec v x) as [->|Hne]; [now left|].
      right. split; [assumption|]. intros [Heq|Hs]; [congruence | contradiction].
Qed.

Lemma distinct_NoDup (seen l : list string) : NoDup (distinct seen l).
Proof.
  revert seen. induction l as [|v l IH]; simpl; intros seen; [constructor|].
  destruct (existsb (String.eqb v) seen); [apply IH|].
  constructor; [|apply IH].
  rewrite distinct_In. simpl. tauto.
Qed.

(** A value that a filter drops may as well count as seen. *)
Lemma distinct_filter_seen (P : string -> bool) (x : string) (seen l : list string) :
  P x = false -> filter P (distinct (x :: seen) l) = filter P (distinct seen l).
Proof.
  intros Hx. revert seen. induction l as [|v l IH]; intros seen; [reflexivity|].
  cbn [distinct existsb].
  destruct (String.eqb_spec v x) as [->|Hne]; cbn [orb].
  - destruct (existsb (String.eqb x) seen); [apply IH|].
    cbn [filter]. now rewrite Hx.
  - destruct (existsb (String.eqb v) seen); [apply IH|].
    cbn [filter]. rewrite <- (IH (v :: seen)).
    rewrite (@distinct_ext (v :: x :: seen) (x :: v :: seen) l);
      [reflexivity | intros y; simpl; tauto].
Qed.

Lemma first_occurrences_In (l : list string) (x : string) :
  In x (first_occurrences l) <-> In x l.
Proof. unfold first_occurrences. rewrite distinct_In. simpl. tauto. Qed.

(** *** Group-by-sum *)

Section GroupFacts.

Context {num : Type} `{Number num}.

Local Open Scope js_scope.

Implicit Types (key : SalesRecord num -> string) (data : list (SalesRecord num)).

Lemma accumulate_keys key data (o : JS.object (cell num)) :
  JS.own_keys (fold_left (accumulate key) data o) =
  JS.own_keys o ++
  filter (fun k => negb (String.eqb k "__proto__"))
         (distinct (JS.own_keys o) (map key data)).
Proof.
  revert o. induction data as [|r data IH]; intros o.
  - simpl. now rewrite app_nil_r.
  - cbn [fold_left map distinct]. rewrite IH. unfold accumulate.
    rewrite own_keys_put.
    destruct (existsb (String.eqb (key r)) (JS.own_keys o)) eqn:E.
    + now rewrite orb_true_r.
    + rewrite orb_false_r. cbn [filter].
      destruct (String.eqb_spec (key r) "__proto__") as [Hp|Hp]; cbn [negb].
      * f_equal. symmetry. apply distinct_filter_seen.
        rewrite Hp. reflexivity.
      * rewrite <- app_assoc. simpl. do 3 f_equal.
        apply distinct_ext. intros x. rewrite in_app_iff. simpl. tauto.
Qed.

(** What the loop makes of the property [k] over the sales [l] of the
    records of key [k]. *)
Lemma accumulate_get key data (o : JS.object (cell num)) (k : string) :
  k <> "__proto__"%string ->
  JS.get_prop (fold_left (accumulate key) data o) k =
  fold_left (fun found x => Some (or_zero_plus (JS.along_prototype k found) x))
            (sales_of key k data) (JS.get_prop o k).
Proof.
  intros Hk. revert o. induction data as [|r data IH]; simpl; intros o; [reflexivity|].
  rewrite IH. unfold sales_of. simpl. unfold accumulate.
  destruct (String.eqb_spec (key r) k) as [->|Hne]; simpl.
  - now rewrite get_prop_put_same.
  - now rewrite get_prop_put_other by congruence.
Qed.

Lemma settle_number (k : string) (l : list num) (a : num) :
  fold_left (fun found x => Some (or_zero_plus (JS.along_prototype k found) x)) l
            (Some (Num a)) =
  Some (Num (fold_left (fun acc x => or_else acc zero + x) l a)).
Proof.
  revert a. induction l as [|x l IH]; simpl; intros a; [reflexivity|]. apply IH.
Qed.

Lemma settle_text (k origin : string) (l appended : list num) :
  fold_left (fun found x => Some (or_zero_plus (JS.along_prototype k found) x)) l
            (Some (Text origin appended)) =
  Some (Text origin (appended ++ l)).
Proof.
  revert appended. induction l as [|x l IH]; simpl; intros appended.
  - now rewrite app_nil_r.
  - rewrite IH, <- app_assoc. reflexivity.
Qed.

Lemma settled_first (k : string) (l : list num) :
  l <> [] ->
  fold_left (fun found x => Some (or_zero_plus (JS.along_prototype k found) x)) l None =
  Some (settled k l).
Proof.
  destruct l as [|x l]; [congruence|]. intros _. unfold settled. simpl.
  destruct (JS.inherited k); simpl.
  - apply settle_text.
  - rewrite settle_number. unfold running_total. simpl.
    unfold or_else. now destruct (truthy zero).
Qed.

Lemma sales_of_nonempty key data k :
  In k (map key data) -> sales_of key k data <> [].
Proof.
  unfold sales_of. induction data as [|r data IH]; simpl; [tauto|].
  intros [<-|Hin].
  - rewrite String.eqb_refl. discriminate.
  - destruct (String.eqb (key r) k); [discriminate | auto].
Qed.

Lemma created_keys_In (keys : list string) (k : string) :
  In k (created_keys keys) <-> In k keys /\ k <> "__proto__"%string.
Proof.
  unfold created_keys. rewrite filter_In, first_occurrences_In, negb_true_iff.
  destruct (String.eqb_spec k "__proto__"); intuition congruence.
Qed.

Lemma created_keys_NoDup (keys : list string) : NoDup (created_keys keys).
Proof. apply NoDup_filter, distinct_NoDup. Qed.

(** The object a group-by loop builds from [{}] holds, in creation order,
    one property per distinct key other than [__proto__], first
    occurrences first, each with what the loop has settled under it. *)
Lemma salesBy_grouping key data : salesBy key data = grouping key data.
Proof.
  unfold salesBy, JS.reduce, grouping, created_keys, first_occurrences.
  assert (Hk := accumulate_keys key data JS.empty_object). simpl in Hk.
  rewrite <- Hk. apply object_ext.
  - rewrite Hk. apply NoDup_filter, distinct_NoDup.
  - intros k Hin. rewrite Hk in Hin.
    apply (proj1 (created_keys_In (map key data) k)) in Hin.
    destruct Hin as [Hin Hp].
    rewrite accumulate_get by exact Hp. simpl.
    now apply settled_first, sales_of_nonempty.
Qed.

Lemma productSalesMap_grouping data :
  productSalesMap data = grouping (fun r => Product_Name r) data.
Proof. exact (salesBy_grouping (fun r => Product_Name r) data). Qed.

Lemma grouping_keys key data :
  JS.own_keys (grouping key data) = created_keys (map key data).
Proof. unfold grouping, JS.own_keys. rewrite map_map. simpl. apply map_id. Qed.

Lemma plain_key_not_proto (k : string) :
  JS.inherited k = false -> k <> "__proto__"%string.
Proof. intros Hk ->. vm_compute in Hk. discriminate. Qed.

Lemma plain_keys_In key data (k : string) :
  plain_keys key data -> In k (map key data) -> JS.inherited k = false.
Proof.
  unfold plain_keys. rewrite Forall_forall. intros Hp Hin.
  apply in_map_iff in Hin. destruct Hin as [r [<- Hr]]. now apply Hp.
Qed.

Lemma created_keys_plain key data :
  plain_keys key data -> created_keys (map key data) = first_occurrences (map key data).
Proof.
  intros Hp. unfold created_keys.
  rewrite forallb_filter_id; [reflexivity|].
  apply forallb_forall. intros k Hk.
  apply (proj1 (first_occurrences_In _ _)) in Hk.
  apply negb_true_iff.
  destruct (String.eqb_spec k "__proto__") as [->|]; [|reflexivity].
  exfalso. apply (plain_key_not_proto (plain_keys_In _ Hp Hk)). reflexivity.
Qed.

(** When no key names a member of [Object.prototype] the grouping holds
    the running totals of section 4.3's group-by-sum. *)
Lemma grouping_plain key data :
  plain_keys key data -> grouping key data = as_cells (group_by_sum key data).
Proof.
  intros Hp. unfold grouping, as_cells, group_by_sum.
  rewrite (created_keys_plain Hp), map_map. simpl.
  apply map_ext_in. intros k Hk.
  apply (proj1 (first_occurrences_In _ _)) in Hk.
  unfold settled. now rewrite (plain_keys_In _ Hp Hk).
Qed.

Lemma salesBy_group_by_sum key data :
  plain_keys key data -> salesBy key data = as_cells (group_by_sum key data).
Proof. intros Hp. rewrite salesBy_grouping. now apply grouping_plain. Qed.

Lemma group_by_sum_keys key data :
  JS.own_keys (group_by_sum key data) = first_occurrences (map key data).
Proof.
  unfold group_by_sum, JS.own_keys. rewrite map_map. simpl. apply map_id.
Qed.

Lemma as_cells_keys (l : list (string * num)) :
  JS.own_keys (as_cells l) = JS.own_keys l.
Proof. unfold as_cells, JS.own_keys. rewrite map_map. reflexivity. Qed.

(** Grouping by key splits the sales: the groups' sales, one group after
    the other, are the sales of all the records in another order. *)
Lemma flat_map_insert (ks : list string) (k0 : string) (x : num)
  (f : string -> list num) :
  NoDup ks -> In k0 ks ->
  Permutation
    (flat_map (fun k => if String.eqb k0 k then x :: f k else f k) ks)
    (x :: flat_map f ks).
Proof.
  induction ks as [|k ks IH]; intros Hnd Hin; [contradiction|].
  inversion Hnd as [|? ? Hnotin Hnd']; subst. simpl.
  destruct (String.eqb_spec k0 k) as [->|Hne].
  - simpl. constructor. apply Permutation_app_head.
    clear IH Hin Hnd Hnd'. induction ks as [|k' ks IH]; [reflexivity|].
    simpl. destruct (String.eqb_spec k k') as [->|_].
    + exfalso. apply Hnotin. now left.
    + apply Permutation_app_head, IH. intros Hin. apply Hnotin. now right.
  - destruct Hin as [->|Hin]; [congruence|].
    rewrite (IH Hnd' Hin). symmetry. apply Permutation_middle.
Qed.

Lemma sales_partition_over key data (ks : list string) :
  NoDup ks -> (forall r, In r data -> In (key r) ks) ->
  Permutation (flat_map (fun k => sales_of key k data) ks)
              (map (fun r => Sales r) data).
Proof.
  intros Hnd. induction data as [|r data IH]; intros Hks.
  - unfold sales_of. simpl. clear Hnd Hks.
    induction ks as [|k ks IHks]; [reflexivity | exact IHks].
  - simpl. rewrite <- IH by (intros r' Hr'; apply Hks; now right).
    rewrite <- (@flat_map_insert ks (key r) (Sales r)
                  (fun k => sales_of key k data) Hnd (Hks r (or_introl eq_refl))).
    unfold sales_of. simpl.
    apply Permutation_refl'. apply flat_map_ext. intros k.
    now destruct (String.eqb (key r) k).
Qed.

Lemma sales_partition key data :
  Permutation
    (flat_map (fun k => sales_of key k data) (first_occurrences (map key data)))
    (map (fun r => Sales r) data).
Proof.
  apply sales_partition_over.
  - apply distinct_NoDup.
  - intros r Hr. apply first_occurrences_In. now apply in_map.
Qed.

End GroupFacts.

(** *** [Array.prototype.sort] *)

Section SortFacts.

Context {num : Type} `{Number num} {engine : JS.Engine} {A : Type}.

Variable comparefn : A -> A -> num.

Local Open Scope js_scope.

Lemma sort_insert_perm (x : A) (l : list A) :
  Permutation (sort_insert comparefn x l) (x :: l).
Proof.
  induction l as [|y l IH]; simpl; [reflexivity|].
  destruct (comparefn x y >? zero); [|reflexivity].
  rewrite IH. apply perm_swap.
Qed.

Lemma stable_sort_perm (l : list A) : Permutation (stable_sort comparefn l) l.
Proof.
  induction l as [|x l IH]; simpl; [reflexivity|].
  rewrite sort_insert_perm. now constructor.
Qed.

(** Whatever the comparison function, the sorted array holds the elements
    of the array. *)
Lemma Array_sort_perm (l : list A) : Permutation (Array_sort comparefn l) l.
Proof.
  unfold Array_sort. destruct (consistent comparefn l).
  - apply stable_sort_perm.
  - apply JS.unspecified_sort_permutes.
Qed.

Lemma Array_sort_length (l : list A) :
  List.length (Array_sort comparefn l) = List.length l.
Proof. apply Permutation_length, Array_sort_perm. Qed.

Lemma Array_sort_consistent (l : list A) :
  consistent comparefn l = true -> Array_sort comparefn l = stable_sort comparefn l.
Proof. unfold Array_sort. now intros ->. Qed.

Lemma consistent_total (l : list A) :
  consistent comparefn l = true ->
  forall a b, In a l -> In b l ->
    in_order comparefn a b = true \/ in_order comparefn b a = true.
Proof.
  unfold consistent. intros Hc a b Ha Hb.
  apply andb_prop in Hc. destruct Hc as [Hc _].
  apply andb_prop in Hc. destruct Hc as [_ Ht].
  rewrite forallb_forall in Ht. specialize (Ht a Ha).
  rewrite forallb_forall in Ht. specialize (Ht b Hb).
  now apply orb_prop in Ht.
Qed.

Lemma consistent_trans (l : list A) :
  consistent comparefn l = true ->
  forall a b c, In a l -> In b l -> In c l ->
    in_order comparefn a b = true ->
    in_order comparefn b c = true ->
    in_order comparefn a c = true.
Proof.
  unfold consistent. intros Hc a b c Ha Hb Hcin Hab Hbc.
  apply andb_prop in Hc. destruct Hc as [_ Ht].
  rewrite forallb_forall in Ht. specialize (Ht a Ha).
  rewrite forallb_forall in Ht. specialize (Ht b Hb).
  rewrite forallb_forall in Ht. specialize (Ht c Hcin).
  rewrite Hab, Hbc in Ht. exact Ht.
Qed.

(** The elements on which the comparison function is consistent. *)
Variable dom : A -> Prop.

Hypothesis in_order_total :
  forall a b, dom a -> dom b -> in_order comparefn a b = true \/ in_order comparefn b a = true.

Hypothesis in_order_trans :
  forall a b c, dom a -> dom b -> dom c ->
    in_order comparefn a b = true -> in_order comparefn b c = true -> in_order comparefn a c = true.

Lemma sort_insert_sorted (x : A) (l : list A) :
  dom x -> Forall dom l ->
  StronglySorted (fun a b => in_order comparefn a b = true) l ->
  StronglySorted (fun a b => in_order comparefn a b = true) (sort_insert comparefn x l).
Proof.
  intros Hx. induction l as [|y l IH]; simpl; intros Hd Hs.
  - repeat constructor.
  - inversion Hd as [|? ? Hy Hd']; subst.
    inversion Hs as [|? ? Hs' Hall]; subst.
    destruct (comparefn x y >? zero) eqn:E.
    + constructor; [now apply IH|].
      eapply Permutation_Forall; [symmetry; apply sort_insert_perm|].
      constructor; [|assumption].
      destruct (in_order_total Hx Hy) as [Hxy|Hyx]; [|assumption].
      unfold in_order in Hxy. rewrite E in Hxy. discriminate.
    + constructor; [assumption|].
      assert (Hxy : in_order comparefn x y = true) by (unfold in_order; now rewrite E).
      constructor; [assumption|].
      rewrite Forall_forall in Hall, Hd' |- *. intros z Hz.
      apply (in_order_trans Hx Hy (Hd' z Hz) Hxy). now apply Hall.
Qed.

Lemma stable_sort_sorted (l : list A) :
  Forall dom l ->
  StronglySorted (fun a b => in_order comparefn a b = true) (stable_sort comparefn l).
Proof.
  induction l as [|x l IH]; simpl; intros Hd; [constructor|].
  inversion Hd as [|? ? Hx Hd']; subst.
  apply sort_insert_sorted; [assumption| |now apply IH].
  eapply Permutation_Forall; [symmetry; apply stable_sort_perm | assumption].
Qed.

(** Stability: among the elements the comparison function ranks equal to
    [e], the sort changes nothing. *)
Lemma sort_insert_stable (e x : A) (l : list A) :
  dom e -> dom x -> Forall dom l ->
  filter (ranks_equal comparefn e) (sort_insert comparefn x l) =
  filter (ranks_equal comparefn e) (x :: l).
Proof.
  intros He Hx. induction l as [|y l IH]; intros Hd; [reflexivity|].
  inversion Hd as [|? ? Hy Hd']; subst.
  cbn [sort_insert].
  destruct (comparefn x y >? zero) eqn:E; [|reflexivity].
  cbn [filter]. rewrite (IH Hd'). cbn [filter].
  destruct (ranks_equal comparefn e x) eqn:Tx, (ranks_equal comparefn e y) eqn:Ty; try reflexivity.
  exfalso. unfold ranks_equal in Tx, Ty.
  apply andb_prop in Tx, Ty. destruct Tx as [_ Hxe], Ty as [Hey _].
  assert (Hxy := in_order_trans Hx He Hy Hxe Hey).
  unfold in_order in Hxy. rewrite E in Hxy. discriminate.
Qed.

Lemma stable_sort_stable (e : A) (l : list A) :
  dom e -> Forall dom l ->
  filter (ranks_equal comparefn e) (stable_sort comparefn l) = filter (ranks_equal comparefn e) l.
Proof.
  intros He. induction l as [|x l IH]; intros Hd; [reflexivity|].
  inversion Hd as [|? ? Hx Hd']; subst.
  cbn [stable_sort fold_right].
  rewrite sort_insert_stable; try assumption.
  - cbn [filter]. fold (stable_sort comparefn l). now rewrite (IH Hd').
  - eapply Permutation_Forall; [symmetry; apply stable_sort_perm | assumption].
Qed.

End SortFacts.

Section ConsistentSortFacts.

Context {num : Type} `{Number num} {engine : JS.Engine} {A : Type}.

Variable comparefn : A -> A -> num.

(** With a consistent comparison function the sorted array is in order. *)
Lemma Array_sort_sorted (l : list A) :
  consistent comparefn l = true ->
  StronglySorted (fun a b => in_order comparefn a b = true) (Array_sort comparefn l).
Proof.
  intros Hc. rewrite (Array_sort_consistent _ _ Hc).
  apply stable_sort_sorted with (dom := fun e => In e l).
  - intros a b. now apply consistent_total.
  - intros a b c. now apply consistent_trans.
  - now apply Forall_forall.
Qed.

(** With a consistent comparison function the elements that rank equal
    keep their order. *)
Lemma Array_sort_stable (e : A) (l : list A) :
  consistent comparefn l = true -> In e l ->
  filter (ranks_equal comparefn e) (Array_sort comparefn l)
  = filter (ranks_equal comparefn e) l.
Proof.
  intros Hc He. rewrite (Array_sort_consistent _ _ Hc).
  apply stable_sort_stable with (dom := fun e => In e l).
  - intros a b c. now apply consistent_trans.
  - exact He.
  - now apply Forall_forall.
Qed.

(** Consistency is a property of the elements, not of their order. *)
Lemma consistent_permutation (l l' : list A) :
  Permutation l l' -> consistent comparefn l = true -> consistent comparefn l' = true.
Proof.
  intros Hp. unfold consistent. rewrite !andb_true_iff, !forallb_forall.
  intros [[H1 H2] H3].
  assert (Hin : forall x, In x l' -> In x l)
    by (intros x; apply Permutation_in; now symmetry).
  repeat split.
  - intros a Ha. apply forallb_forall. intros b Hb.
    specialize (H1 a (Hin a Ha)). rewrite forallb_forall in H1. now apply H1, Hin.
  - intros a Ha. apply forallb_forall. intros b Hb.
    specialize (H2 a (Hin a Ha)). rewrite forallb_forall in H2. now apply H2, Hin.
  - intros a Ha. apply forallb_forall. intros b Hb. apply forallb_forall. intros c Hc.
    specialize (H3 a (Hin a Ha)). rewrite forallb_forall in H3.
    specialize (H3 b (Hin b Hb)). rewrite forallb_forall in H3. now apply H3, Hin.
Qed.

End ConsistentSortFacts.

(* ================================================================== *)
(** * Part 11: what the handlers compute *)
(* ================================================================== *)

Section HandlerFacts.

Context {num : Type} `{Number num} {engine : JS.Engine}.

Variable JSON_parse : string -> option (list (SalesRecord num)).
Variable Date_parse : string -> Date.t.

Local Abbreviation record := (SalesRecord num).

Lemma log_to_log_to (w : World num) (a b : list (LogLine num)) :
  log_to (log_to w a) b = log_to w (a ++ b).
Proof. unfold log_to. simpl. now rewrite app_assoc. Qed.

Lemma loaded_log_to (w : World num) (a : list (LogLine num)) :
  loaded JSON_parse (log_to w a) = loaded JSON_parse w.
Proof. reflexivity. Qed.

Lemma getSalesData_run (w : World num) :
  getSalesData JSON_parse w = (JS.Normal (loaded JSON_parse w), log_to w (loader_lines JSON_parse w)).
Proof.
  unfold getSalesData, try_catch, bind, write, readFileSync, parse_sales, ret, throw,
    loaded, loader_lines.
  simpl. destruct (sales_json w) as [raw|]; simpl.
  - destruct (JSON_parse raw) as [salesData|]; simpl;
      now rewrite log_to_log_to.
  - now rewrite log_to_log_to.
Qed.

Lemma getDashboardData_run (q : Query) (w : World num) :
  exists lines,
    getDashboardData JSON_parse Date_parse q w =
    (JS.Normal (dashboard_reply Date_parse q (loaded JSON_parse w)), log_to w lines).
Proof.
  unfold getDashboardData, try_catch, bind. unfold write at 1.
  rewrite getSalesData_run, loaded_log_to, log_to_log_to.
  unfold dashboard_reply, filteredData.
  destruct (List.length (loaded JSON_parse w) =? 0)%nat; unfold throw, ret, write; simpl.
  - rewrite log_to_log_to. eauto.
  - destruct (state_filter_applies (state q)),
      (date_filter_applies (startDate q) (endDate q)); simpl;
      repeat rewrite log_to_log_to; eauto.
Qed.

Lemma getDateRange_run (st : string) (w : World num) :
  getDateRange JSON_parse Date_parse st w =
  (JS.Normal (date_range_reply Date_parse st (loaded JSON_parse w)), log_to w (loader_lines JSON_parse w)).
Proof.
  unfold getDateRange, try_catch, bind. rewrite getSalesData_run.
  unfold date_range_reply.
  set (stateRecords := filter _ (loaded JSON_parse w)).
  destruct (List.length stateRecords =? 0)%nat; [reflexivity|].
  rewrite !map_map. unfold lift, ret, JS.spread_call, Date.toISOString, Date.getTime.
  set (times := map _ stateRecords).
  destruct (JS.max_arguments <? List.length times)%nat; [reflexivity|].
  destruct (Date.of_time (Date.Math_min times)), (Date.of_time (Date.Math_max times));
    reflexivity.
Qed.

End HandlerFacts.

(* ================================================================== *)
(** * Part 12: facts about dates *)
(* ================================================================== *)

Section DateFacts.

Local Open Scope Z_scope.

Lemma Math_min_some (ts : list Z) :
  ts <> [] ->
  exists m, Date.Math_min (map Some ts) = Some m /\ In m ts /\
            forall x, In x ts -> m <= x.
Proof.
  induction ts as [|a ts IH]; [congruence|]. intros _.
  destruct ts as [|b ts].
  - exists a. simpl. split; [reflexivity|]. split; [now left|].
    intros x [<-|[]]. lia.
  - destruct IH as [m [Hm [Hin Hle]]]; [discriminate|].
    exists (Z.min a m). split.
    + change (Date.Math_min (map Some (a :: b :: ts)))
        with (match Some a, Date.Math_min (map Some (b :: ts)) with
              | Some x, Some y => Some (Z.min x y)
              | _, _ => None
              end).
      now rewrite Hm.
    + split.
      * destruct (Z.min_spec a m) as [[_ ->]|[_ ->]]; [now left | now right].
      * intros x [<-|Hx]; [lia|]. specialize (Hle x Hx). lia.
Qed.

Lemma Math_max_some (ts : list Z) :
  ts <> [] ->
  exists m, Date.Math_max (map Some ts) = Some m /\ In m ts /\
            forall x, In x ts -> x <= m.
Proof.
  induction ts as [|a ts IH]; [congruence|]. intros _.
  destruct ts as [|b ts].
  - exists a. simpl. split; [reflexivity|]. split; [now left|].
    intros x [<-|[]]. lia.
  - destruct IH as [m [Hm [Hin Hle]]]; [discriminate|].
    exists (Z.max a m). split.
    + change (Date.Math_max (map Some (a :: b :: ts)))
        with (match Some a, Date.Math_max (map Some (b :: ts)) with
              | Some x, Some y => Some (Z.max x y)
              | _, _ => None
              end).
      now rewrite Hm.
    + split.
      * destruct (Z.max_spec a m) as [[_ ->]|[_ ->]]; [now right | now left].
      * intros x [<-|Hx]; [lia|]. specialize (Hle x Hx). lia.
Qed.

Lemma Math_min_nan (xs : list (option Z)) : In None xs -> Date.Math_min xs = None.
Proof.
  induction xs as [|x xs IH]; [intros []|]. intros Hin.
  destruct xs as [|y xs].
  - destruct Hin as [->|[]]. reflexivity.
  - change (Date.Math_min (x :: y :: xs))
      with (match x, Date.Math_min (y :: xs) with
            | Some a, Some b => Some (Z.min a b)
            | _, _ => None
            end).
    destruct Hin as [->|Hin]; [reflexivity|].
    rewrite (IH Hin). now destruct x.
Qed.

(** A list of valid dates is a list of time values within range. *)
Lemma valid_times (ds : list Date.t) :
  Forall (fun d => Date.valid d = true) ds ->
  exists ts, ds = map Some ts /\
             Forall (fun x => Z.abs x <= 8640000000000000) ts.
Proof.
  induction ds as [|d ds IH]; intros Hv.
  - exists []. split; [reflexivity | constructor].
  - inversion Hv as [|? ? Hd Hv']; subst.
    destruct (IH Hv') as [ts [-> Hts]].
    unfold Date.valid, Date.of_time in Hd. destruct d as [x|]; [|discriminate].
    exists (x :: ts). split; [reflexivity|].
    constructor; [|assumption].
    destruct (Z.leb_spec (Z.abs x) 8640000000000000); [assumption | discriminate].
Qed.

(** *** The text of a date *)

Lemma digit_is_digit (n : Z) : JS.is_digit (Date.digit n) = true.
Proof.
  unfold Date.digit.
  assert (Hr : 0 <= n mod 10 < 10) by (apply Z.mod_pos_bound; lia).
  assert (Hc : exists k, (k < 10)%nat /\ Z.to_nat (n mod 10) = k).
  { exists (Z.to_nat (n mod 10)). split; [lia | reflexivity]. }
  destruct Hc as [k [Hk ->]].
  do 10 (destruct k as [|k]; [reflexivity|]). lia.
Qed.

Lemma list_ascii_app (a b : string) :
  list_ascii_of_string (a ++ b) = (list_ascii_of_string a ++ list_ascii_of_string b)%list.
Proof. induction a as [|c a IH]; simpl; [reflexivity | now rewrite IH]. Qed.

Lemma split_head_append (sep : ascii) (a b : string) :
  (forall c, In c (list_ascii_of_string a) -> c <> sep) ->
  JS.split_head sep (a ++ String sep b) = a.
Proof.
  induction a as [|c a IH]; simpl; intros Hc.
  - now rewrite Ascii.eqb_refl.
  - destruct (Ascii.eqb_spec c sep) as [->|_].
    + exfalso. now apply (Hc sep); [left|].
    + f_equal. apply IH. intros c' Hin. apply Hc. now right.
Qed.

Lemma is_digit_not_T (c : ascii) : JS.is_digit c = true -> c <> "T"%char.
Proof. intros Hd ->. discriminate. Qed.

Lemma year_string_chars (y : Z) (c : ascii) :
  In c (list_ascii_of_string (Date.year_string y)) -> c <> "T"%char.
Proof.
  unfold Date.year_string, Date.pad6, Date.pad4, Date.pad3, Date.pad2.
  destruct ((0 <=? y) && (y <=? 9999)); [|destruct (y <? 0)]; simpl;
    intros Hin;
    repeat (destruct Hin as [<-|Hin];
            [first [apply is_digit_not_T, digit_is_digit | discriminate]|]);
    contradiction.
Qed.

Lemma date_string_chars (ms : Z) (c : ascii) :
  In c (list_ascii_of_string (Date.date_string ms)) -> c <> "T"%char.
Proof.
  unfold Date.date_string.
  rewrite !list_ascii_app. rewrite !in_app_iff.
  unfold Date.pad2. simpl.
  intros [Hy|[[<-|[]]|[Hm|[[<-|[]]|Hd]]]].
  - now apply (year_string_chars (Date.YearFromTime ms)).
  - discriminate.
  - destruct Hm as [<-|[<-|[]]]; apply is_digit_not_T, digit_is_digit.
  - discriminate.
  - destruct Hd as [<-|[<-|[]]]; apply is_digit_not_T, digit_is_digit.
Qed.

(** [d.toISOString().split('T')[0]] is the date part. *)
Lemma iso_date_part (ms : Z) :
  JS.split_head "T" (Date.date_string ms ++ "T" ++ Date.time_string ms ++ "Z")
  = Date.date_string ms.
Proof. apply split_head_append, date_string_chars. Qed.

(** For a year from 0 to 9999 the date part has the shape YYYY-MM-DD. *)
Lemma date_string_shape (ms : Z) :
  0 <= Date.YearFromTime ms <= 9999 ->
  Date.is_calendar_date (Date.date_string ms) = true.
Proof.
  intros Hy. unfold Date.date_string, Date.year_string.
  replace ((0 <=? Date.YearFromTime ms) && (Date.YearFromTime ms <=? 9999))
    with true by (symmetry; apply andb_true_intro; split; apply Z.leb_le; lia).
  generalize (Date.YearFromTime ms) (Date.MonthFromTime ms) (Date.DateFromTime ms).
  intros y m d.
  unfold Date.is_calendar_date, Date.pad4, Date.pad3, Date.pad2.
  cbn -[Date.digit JS.is_digit Z.div].
  now rewrite !digit_is_digit.
Qed.

End DateFacts.

(* ================================================================== *)
(** * Part 13: facts about binary64

    The kernel specifies its floats by the functions of [SpecFloat]; from
    them: a difference of two floats is positive exactly when the second
    is below the first, and [<] is a strict weak order away from NaN. *)
(* ================================================================== *)

Section Binary64Facts.

Local Open Scope Z_scope.

Section Rounding.

Lemma digits2_pos_bounds (m : positive) :
  2 ^ (Zpos (digits2_pos m) - 1) <= Zpos m < 2 ^ Zpos (digits2_pos m).
Proof.
  induction m as [m IH|m IH|]; cbn [digits2_pos].
  - rewrite Pos2Z.inj_succ.
    replace (Z.succ (Zpos (digits2_pos m)) - 1) with (Z.succ (Zpos (digits2_pos m) - 1)) by lia.
    rewrite !Z.pow_succ_r by lia. lia.
  - rewrite Pos2Z.inj_succ.
    replace (Z.succ (Zpos (digits2_pos m)) - 1) with (Z.succ (Zpos (digits2_pos m) - 1)) by lia.
    rewrite !Z.pow_succ_r by lia. lia.
  - simpl. lia.
Qed.

Lemma shr_1_m (r : shr_record) : 0 <= shr_m r -> shr_m (shr_1 r) = shr_m r / 2.
Proof.
  destruct r as [m r s]. simpl. intros Hm.
  destruct m as [|p|p]; [reflexivity| |lia].
  destruct p as [p|p|]; simpl.
  - rewrite Pos2Z.inj_xI. apply Z.div_unique with (r := 1); lia.
  - rewrite Pos2Z.inj_xO. apply Z.div_unique with (r := 0); lia.
  - reflexivity.
Qed.

Lemma iter_shr_1_m (p : positive) (r : shr_record) :
  0 <= shr_m r -> shr_m (iter_pos shr_1 p r) = shr_m r / 2 ^ Zpos p.
Proof.
  revert r. induction p as [p IH|p IH|]; intros r Hr; cbn [iter_pos].
  - assert (H1 : 0 <= shr_m (shr_1 r)) by (rewrite shr_1_m by assumption; apply Z.div_pos; lia).
    assert (H2 : 0 <= shr_m (iter_pos shr_1 p (shr_1 r)))
      by (rewrite IH by assumption; apply Z.div_pos; [assumption | apply Z.pow_pos_nonneg; lia]).
    rewrite IH, IH, shr_1_m by assumption.
    rewrite !Z.div_div by (try apply Z.pow_pos_nonneg; lia).
    replace (2 ^ Zpos p~1) with (2 * (2 ^ Zpos p * 2 ^ Zpos p)); [reflexivity|].
    rewrite Pos2Z.inj_xI.
    replace (2 * Zpos p + 1) with (Z.succ (Zpos p + Zpos p)) by lia.
    rewrite Z.pow_succ_r, Z.pow_add_r by lia. reflexivity.
  - assert (H2 : 0 <= shr_m (iter_pos shr_1 p r))
      by (rewrite IH by assumption; apply Z.div_pos; [assumption | apply Z.pow_pos_nonneg; lia]).
    rewrite IH, IH by assumption.
    rewrite !Z.div_div by (try apply Z.pow_pos_nonneg; lia).
    replace (2 ^ Zpos p~0) with (2 ^ Zpos p * 2 ^ Zpos p); [reflexivity|].
    rewrite <- Z.pow_add_r by lia. f_equal. lia.
  - now rewrite shr_1_m.
Qed.

Lemma shr_record_of_loc_m (m : Z) (l : location) : shr_m (shr_record_of_loc m l) = m.
Proof. destruct l as [|[]]; reflexivity. Qed.

Lemma shr_fexp_pos (m : positive) (e : Z) (l : location) :
  emin <= e ->
  0 < shr_m (fst (shr_fexp prec emax (Zpos m) e l)) /\
  emin <= snd (shr_fexp prec emax (Zpos m) e l).
Proof.
  intros He. unfold shr_fexp, shr.
  destruct (fexp prec emax (Zdigits2 (Zpos m) + e) - e) as [|p|p] eqn:E; simpl.
  - rewrite shr_record_of_loc_m. lia.
  - rewrite iter_shr_1_m by (rewrite shr_record_of_loc_m; lia).
    rewrite shr_record_of_loc_m. split.
    + apply Z.div_str_pos. split; [apply Z.pow_pos_nonneg; lia|].
      destruct (digits2_pos_bounds m) as [Hlo _].
      eapply Z.le_trans; [|exact Hlo].
      apply Z.pow_le_mono_r; [lia|].
      unfold fexp, SpecFloat.emin, prec, emax in *.
      change (Zdigits2 (Zpos m)) with (Zpos (digits2_pos m)) in E. lia.
    + lia.
  - rewrite shr_record_of_loc_m. lia.
Qed.

Lemma round_nearest_even_pos (m : Z) (l : location) :
  0 < m -> 0 < round_nearest_even m l.
Proof.
  intros Hm. destruct l as [|[]]; simpl; try lia.
  destruct (Z.even m); lia.
Qed.

Lemma binary_round_aux_signed (s : bool) (m : positive) (e : Z) (l : location) :
  emin <= e -> signed s (binary_round_aux prec emax s (Zpos m) e l).
Proof.
  intros He. unfold binary_round_aux.
  destruct (shr_fexp_pos m l He) as [Hm1 He1].
  destruct (shr_fexp prec emax (Zpos m) e l) as [mrs1 e1]. simpl in Hm1, He1.
  assert (Hr := round_nearest_even_pos (loc_of_shr_record mrs1) Hm1).
  destruct (round_nearest_even (shr_m mrs1) (loc_of_shr_record mrs1)) as [|m2|m2];
    try lia.
  destruct (shr_fexp_pos m2 loc_Exact He1) as [Hm2 He2].
  destruct (shr_fexp prec emax (Zpos m2) e1 loc_Exact) as [mrs2 e2]. simpl in Hm2, He2.
  destruct (shr_m mrs2) as [|m3|m3]; try lia.
  destruct (e2 <=? emax - prec); reflexivity.
Qed.

Lemma binary_round_signed (s : bool) (m : positive) (e : Z) :
  emin <= e -> signed s (binary_round prec emax s m e).
Proof.
  intros He. unfold binary_round, shl_align.
  destruct (fexp prec emax (Zpos (digits2_pos m) + e) - e) as [|p|p] eqn:E;
    apply binary_round_aux_signed; try assumption.
  unfold fexp. lia.
Qed.

Lemma binary_normalize_sign (d e : Z) :
  emin <= e ->
  match d ?= 0 with
  | Eq => binary_normalize prec emax d e false = S754_zero false
  | Gt => signed false (binary_normalize prec emax d e false)
  | Lt => signed true (binary_normalize prec emax d e false)
  end.
Proof.
  intros He. destruct d as [|p|p]; simpl; [reflexivity| |];
    now apply binary_round_signed.
Qed.

End Rounding.

Section Comparison.

Lemma iter_xO_value (m d : positive) : Zpos (Pos.iter xO m d) = Zpos m * 2 ^ Zpos d.
Proof.
  rewrite <- Z.shiftl_mul_pow2 by lia.
  change (Z.shiftl (Zpos m) (Zpos d)) with (Pos.iter (Z.mul 2) (Zpos m) d).
  apply Pos.iter_swap_gen. reflexivity.
Qed.

Lemma shl_align_value (m : positive) (e ez : Z) :
  ez <= e -> Zpos (fst (shl_align m e ez)) = Zpos m * 2 ^ (e - ez).
Proof.
  intros Hle. unfold shl_align.
  destruct (ez - e) as [|d|d] eqn:E; cbn [fst].
  - replace (e - ez) with 0 by lia. rewrite Z.pow_0_r. lia.
  - lia.
  - rewrite iter_xO_value. replace (e - ez) with (Zpos d) by lia. reflexivity.
Qed.

Lemma bounded_canonical (m : positive) (e : Z) :
  bounded prec emax m e = true ->
  emin <= e /\ Zpos (digits2_pos m) <= prec /\
  (e = emin \/ Zpos (digits2_pos m) = prec).
Proof.
  unfold bounded, canonical_mantissa. intros Hb.
  apply andb_prop in Hb. destruct Hb as [Hc _].
  apply Z.eqb_eq in Hc. unfold fexp, SpecFloat.emin, prec, emax in *. lia.
Qed.

Lemma aligned_compare (mx my : positive) (ex ey : Z) :
  bounded prec emax mx ex = true -> bounded prec emax my ey = true ->
  (Zpos (fst (shl_align mx ex (Z.min ex ey))) ?= Zpos (fst (shl_align my ey (Z.min ex ey))))
  = match ex ?= ey with
    | Lt => Lt
    | Gt => Gt
    | Eq => Pos.compare_cont Eq mx my
    end.
Proof.
  intros Hx Hy.
  apply bounded_canonical in Hx, Hy.
  destruct Hx as (Hxe & Hxd & Hxn), Hy as (Hye & Hyd & Hyn).
  destruct (digits2_pos_bounds mx) as [Hxlo Hxhi].
  destruct (digits2_pos_bounds my) as [Hylo Hyhi].
  assert (Hpx : Zpos mx < 2 ^ prec).
  { eapply Z.lt_le_trans; [exact Hxhi|]. apply Z.pow_le_mono_r; lia. }
  assert (Hpy : Zpos my < 2 ^ prec).
  { eapply Z.lt_le_trans; [exact Hyhi|]. apply Z.pow_le_mono_r; lia. }
  rewrite !shl_align_value by lia.
  destruct (Z.compare_spec ex ey) as [Heq|Hlt|Hgt].
  - subst ey. rewrite Z.min_id, Z.sub_diag, !Z.mul_1_r. reflexivity.
  - rewrite Z.min_l by lia. rewrite Z.sub_diag, Z.mul_1_r.
    apply Z.compare_lt_iff.
    assert (Hd : Zpos (digits2_pos my) = prec) by lia.
    rewrite Hd in Hylo.
    assert (H2 : 2 ^ 1 <= 2 ^ (ey - ex)) by (apply Z.pow_le_mono_r; lia).
    assert (H3 : 2 ^ prec = 2 ^ (prec - 1) * 2 ^ 1) by reflexivity.
    nia.
  - rewrite Z.min_r by lia. rewrite Z.sub_diag, Z.mul_1_r.
    apply Z.compare_gt_iff.
    assert (Hd : Zpos (digits2_pos mx) = prec) by lia.
    rewrite Hd in Hxlo.
    assert (H2 : 2 ^ 1 <= 2 ^ (ex - ey)) by (apply Z.pow_le_mono_r; lia).
    assert (H3 : 2 ^ prec = 2 ^ (prec - 1) * 2 ^ 1) by reflexivity.
    nia.
Qed.

(** The order of two valid finite floats is the order of their aligned
    signed mantissas. *)
Lemma SFcompare_aligned (sx sy : bool) (mx my : positive) (ex ey : Z) :
  bounded prec emax mx ex = true -> bounded prec emax my ey = true ->
  SFcompare (S754_finite sx mx ex) (S754_finite sy my ey)
  = Some (cond_Zopp sx (Zpos (fst (shl_align mx ex (Z.min ex ey))))
          ?= cond_Zopp sy (Zpos (fst (shl_align my ey (Z.min ex ey))))).
Proof.
  intros Hx Hy. assert (Hc := @aligned_compare mx my ex ey Hx Hy).
  unfold SFcompare. destruct sx, sy; cbv beta iota delta [cond_Zopp].
  - rewrite Z.compare_opp.
    rewrite (Z.compare_antisym (Zpos (fst (shl_align mx ex (Z.min ex ey))))), Hc.
    now destruct (ex ?= ey).
  - reflexivity.
  - reflexivity.
  - rewrite Hc. reflexivity.
Qed.

End Comparison.

Section Subtraction.

Lemma signed_positive (r : spec_float) :
  signed false r ->
  SFltb (S754_zero false) r = true /\ SFltb r (S754_zero false) = false.
Proof. destruct r as [s|s| |s m e]; simpl; try tauto; intros ->; split; reflexivity. Qed.

Lemma signed_negative (r : spec_float) :
  signed true r ->
  SFltb (S754_zero false) r = false /\ SFltb r (S754_zero false) = true.
Proof. destruct r as [s|s| |s m e]; simpl; try tauto; intros ->; split; reflexivity. Qed.

Lemma SFsub_sign_finite (sx sy : bool) (mx my : positive) (ex ey : Z) :
  bounded prec emax mx ex = true -> bounded prec emax my ey = true ->
  SFltb (S754_zero false) (SF64sub (S754_finite sy my ey) (S754_finite sx mx ex))
  = SFltb (S754_finite sx mx ex) (S754_finite sy my ey) /\
  SFltb (SF64sub (S754_finite sy my ey) (S754_finite sx mx ex)) (S754_zero false)
  = SFltb (S754_finite sy my ey) (S754_finite sx mx ex).
Proof.
  intros Hx Hy.
  unfold SFltb at 2 4.
  rewrite (@SFcompare_aligned sx sy mx my ex ey Hx Hy).
  rewrite (@SFcompare_aligned sy sx my mx ey ex Hy Hx).
  unfold SF64sub, SFsub. rewrite (Z.min_comm ex ey).
  set (ez := Z.min ey ex).
  set (a := cond_Zopp sx (Zpos (fst (shl_align mx ex ez)))).
  set (b := cond_Zopp sy (Zpos (fst (shl_align my ey ez)))).
  assert (Hez : emin <= ez).
  { apply bounded_canonical in Hx, Hy. unfold ez. lia. }
  assert (Hsign := @binary_normalize_sign (b - a) ez Hez).
  destruct (Z.compare_spec (b - a) 0) as [Heq|Hlt|Hgt].
  - rewrite Hsign. replace b with a by lia. rewrite Z.compare_refl. split; reflexivity.
  - apply signed_negative in Hsign. destruct Hsign as [-> ->].
    assert (Hab : (a ?= b) = Gt) by (apply Z.compare_gt_iff; lia).
    assert (Hba : (b ?= a) = Lt) by (apply Z.compare_lt_iff; lia).
    rewrite Hab, Hba. split; reflexivity.
  - apply signed_positive in Hsign. destruct Hsign as [-> ->].
    assert (Hab : (a ?= b) = Lt) by (apply Z.compare_lt_iff; lia).
    assert (Hba : (b ?= a) = Gt) by (apply Z.compare_gt_iff; lia).
    rewrite Hab, Hba. split; reflexivity.
Qed.

(** The sign of a difference of two valid floats is their order. *)
Lemma SFsub_sign (x y : spec_float) :
  valid_binary x = true -> valid_binary y = true ->
  SFltb (S754_zero false) (SF64sub y x) = SFltb x y /\
  SFltb (SF64sub y x) (S754_zero false) = SFltb y x.
Proof.
  intros Hx Hy.
  destruct x as [sx|sx| |sx mx ex], y as [sy|sy| |sy my ey];
    try (now apply SFsub_sign_finite);
    repeat match goal with s : bool |- _ => destruct s end;
    split; reflexivity.
Qed.

Local Open Scope float_scope.

Theorem float_sub_sign (x y : float) :
  (0 <? y - x) = (x <? y) /\ (y - x <? 0) = (y <? x).
Proof.
  rewrite !FloatAxioms.ltb_spec, FloatAxioms.sub_spec.
  change (Prim2SF 0) with (S754_zero false).
  apply SFsub_sign; apply Prim2SF_valid.
Qed.

End Subtraction.

Section Order.

Lemma lex_spec (e1 : Z) (m1 : positive) (e2 : Z) (m2 : positive) :
  match lex e1 m1 e2 m2 with
  | Lt => e1 < e2 \/ (e1 = e2 /\ (m1 < m2)%positive)
  | Eq => e1 = e2 /\ m1 = m2
  | Gt => e2 < e1 \/ (e1 = e2 /\ (m2 < m1)%positive)
  end.
Proof.
  unfold lex. change (Pos.compare_cont Eq m1 m2) with (Pos.compare m1 m2).
  destruct (Z.compare_spec e1 e2); [|lia|lia].
  destruct (Pos.compare_spec m1 m2); [tauto|lia|lia].
Qed.

Ltac lex_facts :=
  repeat match goal with
         | |- context [lex ?e1 ?m1 ?e2 ?m2] =>
             let H := fresh "Hlex" in
             assert (H := lex_spec e1 m1 e2 m2);
             destruct (lex e1 m1 e2 m2)
         | H : context [lex ?e1 ?m1 ?e2 ?m2] |- _ =>
             let H' := fresh "Hlex" in
             assert (H' := lex_spec e1 m1 e2 m2);
             destruct (lex e1 m1 e2 m2)
         end.

Lemma lex_opp (e1 : Z) (m1 : positive) (e2 : Z) (m2 : positive) :
  match e1 ?= e2 with
  | Eq => CompOpp (Pos.compare_cont Eq m1 m2)
  | Lt => Gt
  | Gt => Lt
  end = CompOpp (lex e1 m1 e2 m2).
Proof. unfold lex. now destruct (e1 ?= e2). Qed.

Lemma lex_fold (e1 : Z) (m1 : positive) (e2 : Z) (m2 : positive) :
  match e1 ?= e2 with
  | Eq => Pos.compare_cont Eq m1 m2
  | Lt => Lt
  | Gt => Gt
  end = lex e1 m1 e2 m2.
Proof. reflexivity. Qed.

Ltac order_cases :=
  repeat match goal with s : bool |- _ => destruct s end;
  cbn [SFltb SFcompare] in *;
  rewrite ?lex_opp, ?lex_fold in *;
  lex_facts; cbn [CompOpp] in *;
  try reflexivity; try discriminate; try congruence; try (exfalso; lia).

Lemma SFltb_asym (x y : spec_float) : SFltb x y = true -> SFltb y x = false.
Proof.
  destruct x as [sx|sx| |sx mx ex], y as [sy|sy| |sy my ey]; intros Hxy; order_cases.
Qed.

Lemma SFltb_negtrans (x y z : spec_float) :
  y <> S754_nan -> SFltb x y = false -> SFltb y z = false -> SFltb x z = false.
Proof.
  destruct x as [sx|sx| |sx mx ex], y as [sy|sy| |sy my ey], z as [sz|sz| |sz mz ez];
    intros Hy Hxy Hyz; order_cases.
Qed.

End Order.

Section FloatOrder.

Local Open Scope float_scope.

Lemma not_nan_spec (x : float) : PrimFloat.is_nan x = false -> Prim2SF x <> S754_nan.
Proof.
  unfold PrimFloat.is_nan. rewrite FloatAxioms.eqb_spec. intros Hx Hnan.
  rewrite Hnan in Hx. discriminate.
Qed.

Lemma float_ltb_asym (x y : float) : (x <? y) = true -> (y <? x) = false.
Proof. rewrite !FloatAxioms.ltb_spec. apply SFltb_asym. Qed.

Lemma float_ltb_negtrans (x y z : float) :
  PrimFloat.is_nan y = false ->
  (x <? y) = false -> (y <? z) = false -> (x <? z) = false.
Proof.
  intros Hy. rewrite !FloatAxioms.ltb_spec. apply SFltb_negtrans. now apply not_nan_spec.
Qed.

End FloatOrder.

Section Addition.

Lemma signed_nonneg (r : spec_float) :
  signed false r -> SFleb (S754_zero false) r = true.
Proof. destruct r as [s|s| |s m e]; simpl; try tauto; intros ->; reflexivity. Qed.

(** A sum of two floats that are at least 0 is at least 0. *)
Lemma SFadd_nonneg (x y : spec_float) :
  SFleb (S754_zero false) x = true -> SFleb (S754_zero false) y = true ->
  valid_binary x = true -> valid_binary y = true ->
  SFleb (S754_zero false) (SF64add x y) = true.
Proof.
  destruct x as [sx|sx| |sx mx ex], y as [sy|sy| |sy my ey];
    repeat match goal with s : bool |- _ => destruct s end;
    intros Hx Hy Hvx Hvy; try discriminate; try reflexivity.
  unfold SF64add, SFadd. cbv beta iota delta [cond_Zopp].
  simpl in Hvx, Hvy.
  apply signed_nonneg.
  apply (@binary_normalize_sign
           (Zpos (fst (shl_align mx ex (Z.min ex ey)))
            + Zpos (fst (shl_align my ey (Z.min ex ey)))) (Z.min ex ey)).
  apply bounded_canonical in Hvx, Hvy. lia.
Qed.

(** A float that is at least 0 is positive unless it is zero. *)
Lemma SF_positive (x : spec_float) :
  SFleb (S754_zero false) x = true ->
  SFltb (S754_zero false) x = negb (SFeqb x (S754_zero false)).
Proof.
  destruct x as [s|s| |s m e]; try destruct s; intros Hx;
    try discriminate; reflexivity.
Qed.

Local Open Scope float_scope.

Lemma float_add_nonneg (x y : float) :
  (0 <=? x) = true -> (0 <=? y) = true -> (0 <=? x + y) = true.
Proof.
  rewrite !FloatAxioms.leb_spec, FloatAxioms.add_spec.
  change (Prim2SF 0) with (S754_zero false).
  intros Hx Hy. apply SFadd_nonneg; try assumption; apply Prim2SF_valid.
Qed.

Lemma float_positive (x : float) :
  (0 <=? x) = true -> (0 <? x) = negb (PrimFloat.is_zero x).
Proof.
  unfold PrimFloat.is_zero.
  rewrite FloatAxioms.leb_spec, FloatAxioms.ltb_spec, FloatAxioms.eqb_spec.
  change (Prim2SF 0) with (S754_zero false).
  change (Prim2SF PrimFloat.zero) with (S754_zero false).
  apply SF_positive.
Qed.

Lemma float_nonneg_not_nan (x : float) :
  (0 <=? x) = true -> PrimFloat.is_nan x = false.
Proof.
  unfold PrimFloat.is_nan.
  rewrite FloatAxioms.leb_spec, FloatAxioms.eqb_spec.
  change (Prim2SF 0) with (S754_zero false).
  destruct (Prim2SF x) as [s|s| |s m e]; try destruct s; intros Hx;
    try discriminate; try reflexivity;
    unfold SFeqb, SFcompare; now rewrite Z.compare_refl, Pos.compare_cont_refl.
Qed.

End Addition.

Section NegativeZero.

Lemma signed_not_zero (s s' : bool) (r : spec_float) : signed s r -> r <> S754_zero s'.
Proof. destruct r; simpl; try tauto; intros _ Hr; discriminate. Qed.

(** A sum is -0 only if its first term is. *)
Lemma SFadd_not_negative_zero (x y : spec_float) :
  valid_binary x = true -> valid_binary y = true ->
  x <> S754_zero true -> SF64add x y <> S754_zero true.
Proof.
  destruct x as [sx|sx| |sx mx ex], y as [sy|sy| |sy my ey];
    intros Hvx Hvy Hx;
    try (repeat match goal with s : bool |- _ => destruct s end;
         simpl; congruence).
  unfold SF64add, SFadd.
  set (d := cond_Zopp sx (Zpos (fst (shl_align mx ex (Z.min ex ey))))
            + cond_Zopp sy (Zpos (fst (shl_align my ey (Z.min ex ey))))).
  assert (He : emin <= Z.min ex ey).
  { simpl in Hvx, Hvy. apply bounded_canonical in Hvx, Hvy. lia. }
  assert (Hs := @binary_normalize_sign d (Z.min ex ey) He).
  destruct (d ?= 0).
  - rewrite Hs. discriminate.
  - now apply signed_not_zero with (s := true).
  - now apply signed_not_zero with (s := false).
Qed.

Lemma SF_zero_of_eqb (x : spec_float) :
  SFeqb x (S754_zero false) = true -> exists s, x = S754_zero s.
Proof.
  destruct x as [s|s| |s m e]; try destruct s; intros Hx; try discriminate; eauto.
Qed.

Local Open Scope float_scope.

Lemma float_add_not_negative_zero (x y : float) :
  Prim2SF x <> S754_zero true -> Prim2SF (x + y) <> S754_zero true.
Proof.
  rewrite FloatAxioms.add_spec. apply SFadd_not_negative_zero; apply Prim2SF_valid.
Qed.

(** [(x || 0)] is [x] for a number that is neither NaN nor -0. *)
Lemma float_or_zero (x : float) :
  PrimFloat.is_nan x = false -> Prim2SF x <> S754_zero true ->
  (if negb (PrimFloat.is_zero x || PrimFloat.is_nan x) then x else 0) = x.
Proof.
  intros Hnan Hneg. rewrite Hnan, orb_false_r.
  destruct (PrimFloat.is_zero x) eqn:Hz; [|reflexivity]. simpl.
  unfold PrimFloat.is_zero in Hz. rewrite FloatAxioms.eqb_spec in Hz.
  change (Prim2SF PrimFloat.zero) with (S754_zero false) in Hz.
  destruct (SF_zero_of_eqb _ Hz) as [s Hs].
  destruct s; [contradiction|].
  apply Prim2SF_inj. now rewrite Hs.
Qed.

End NegativeZero.

End Binary64Facts.

(* ================================================================== *)
(** * Part 14: the aggregation *)
(* ================================================================== *)

Section ListFacts.

Context {A B : Type}.

Lemma In_firstn (n : nat) (l : list A) (y : A) : In y (firstn n l) -> In y l.
Proof.
  revert n. induction l as [|z l IH]; intros [|n]; simpl; try tauto.
  intros [->|Hin]; [now left | right; eauto].
Qed.

Lemma StronglySorted_firstn (R : A -> A -> Prop) (n : nat) (l : list A) :
  StronglySorted R l -> StronglySorted R (firstn n l).
Proof.
  revert n. induction l as [|x l IH]; intros n Hs.
  - now rewrite firstn_nil.
  - destruct n as [|n]; [constructor|]. simpl.
    inversion Hs as [|? ? Hs' Hall]; subst.
    constructor; [now apply IH|].
    rewrite Forall_forall in Hall |- *. intros y Hy.
    apply Hall. exact (In_firstn n l y Hy).
Qed.

Lemma StronglySorted_map (R : A -> A -> Prop) (R' : B -> B -> Prop) (f : A -> B)
  (l : list A) :
  (forall x y, R x y -> R' (f x) (f y)) ->
  StronglySorted R l -> StronglySorted R' (map f l).
Proof.
  intros Hf. induction 1 as [|x l Hs IH Hall]; simpl; constructor; [assumption|].
  rewrite Forall_map. eapply Forall_impl; [|exact Hall]. auto.
Qed.

End ListFacts.

Section AggregationFacts.

Context {num : Type} `{Number num} {engine : JS.Engine}.

Local Open Scope js_scope.

Implicit Types (data : list (SalesRecord num)).

Lemma reduce_add_map (f : SalesRecord num -> num) data (a : num) :
  JS.reduce (fun acc r => acc + f r) a data = JS.reduce add a (map f data).
Proof.
  unfold JS.reduce. revert a. induction data as [|r data IH]; simpl; intros a;
    [reflexivity | apply IH].
Qed.

Lemma total_sales_sum data : total_sales data = sum (map (fun r => Sales r) data).
Proof. unfold total_sales, sum. apply reduce_add_map. Qed.

Lemma totalDiscount_sum data :
  totalDiscount data = sum (map (fun r => Sales r * Discount r) data).
Proof.
  unfold totalDiscount, sum.
  exact (reduce_add_map (fun r => Sales r * Discount r) data zero).
Qed.

(** Where [(acc || 0)] changes nothing the running total is the plain sum. *)
Lemma running_total_plain (l : list num) :
  Forall (fun p => or_else p zero = p) (partial_sums zero l) ->
  running_total l = sum l.
Proof.
  unfold running_total, sum, JS.reduce. generalize (zero : num) at 2 4 5.
  induction l as [|x l IH]; simpl; intros a Hp; [reflexivity|].
  inversion Hp as [|? ? Ha Hp']; subst. rewrite Ha. now apply IH.
Qed.

End AggregationFacts.

(** ** The discount percentage *)

Section FloatTotals.

Local Open Scope float_scope.

Lemma total_sales_nonneg (data : list (SalesRecord float)) :
  no_negative_sales data -> (0 <=? total_sales data) = true.
Proof.
  unfold total_sales, JS.reduce.
  assert (Hgen : forall acc : float,
             (0 <=? acc) = true -> no_negative_sales data ->
             (0 <=? fold_left (fun a r => (a + Sales r)%js) data acc) = true).
  { induction data as [|r data IH]; simpl; intros acc Hacc Hs; [exact Hacc|].
    inversion Hs as [|? ? Hr Hs']; subst.
    apply IH; [|exact Hs'].
    now apply float_add_nonneg. }
  now apply Hgen.
Qed.

Lemma running_total_nonneg (l : list float) :
  Forall (fun x => (0 <=? x) = true) l -> (0 <=? running_total l) = true.
Proof.
  unfold running_total.
  assert (Hgen : forall acc : float,
             (0 <=? acc) = true ->
             Forall (fun x => (0 <=? x) = true) l ->
             (0 <=? fold_left (fun a x => (or_else a zero + x)%js) l acc) = true).
  { induction l as [|x l IH]; simpl; intros acc Hacc Hl; [exact Hacc|].
    inversion Hl as [|? ? Hx Hl']; subst.
    apply IH; [|exact Hl'].
    apply float_add_nonneg; [|exact Hx].
    unfold or_else. now destruct (truthy acc). }
  now apply Hgen.
Qed.

Lemma partial_sums_plain (l : list float) :
  Forall (fun x => (0 <=? x) = true) l ->
  Forall (fun p => or_else p zero = p) (partial_sums zero l).
Proof.
  assert (Hgen : forall acc : float,
             (0 <=? acc) = true -> Prim2SF acc <> S754_zero true ->
             Forall (fun x => (0 <=? x) = true) l ->
             Forall (fun p => or_else p zero = p) (partial_sums acc l)).
  { induction l as [|x l IH]; simpl; intros acc Hacc Hneg Hl; [constructor|].
    inversion Hl as [|? ? Hx Hl']; subst.
    constructor.
    - apply (@float_or_zero acc); [now apply float_nonneg_not_nan | exact Hneg].
    - apply IH; [now apply float_add_nonneg| |exact Hl'].
      now apply float_add_not_negative_zero. }
  apply Hgen; [reflexivity | discriminate].
Qed.

Lemma group_sums_nonneg (key : SalesRecord float -> string)
  (data : list (SalesRecord float)) :
  no_negative_sales data ->
  Forall (fun e => (0 <=? snd e) = true) (group_by_sum key data).
Proof.
  intros Hs. apply Forall_forall. intros e He.
  unfold group_by_sum in He. apply in_map_iff in He.
  destruct He as [k [<- _]]. simpl.
  apply running_total_nonneg. unfold sales_of.
  apply Forall_forall. intros x Hx. apply in_map_iff in Hx.
  destruct Hx as [r [<- Hr]]. apply filter_In in Hr.
  unfold no_negative_sales in Hs. rewrite Forall_forall in Hs.
  now apply Hs.
Qed.

End FloatTotals.

Section Discount.

Context {engine : JS.Engine}.

(** C1 (as amended).  For every record set the total discount amount is
    the sum over the records of [Sales * Discount] (a sales-weighted sum:
    total sales is the plain sum of [Sales], next to it), and the
    discount percentage is [totalDiscount / totalSales * 100] when
    [totalSales > 0] and 0 in every other case: a total of 0, but also a
    negative total.  In the program's arithmetic, when no record has a
    negative sale, this is the quotient when [totalSales] is not 0 and 0
    when it is 0, as the specification words it.  For the two records of
    section 8 the total discount amount is 20 and the rounded percentage
    13.3, where the plain mean of the two discount rates would give 15. *)
Theorem discount_is_sales_weighted :
  (forall (num : Type) (N : Number num) (data : list (SalesRecord num)),
      totalDiscount data = sum (map (fun r => (Sales r * Discount r)%js) data) /\
      total_sales data = sum (map (fun r => Sales r) data) /\
      ((total_sales data >? zero)%js = true ->
         discount_percentage data
         = (totalDiscount data / total_sales data * lit 100)%js) /\
      ((total_sales data >? zero)%js = false -> discount_percentage data = zero)) /\
  (forall data : list (SalesRecord float),
      no_negative_sales data ->
      (PrimFloat.is_zero (total_sales data) = false ->
         discount_percentage data
         = (totalDiscount data / total_sales data * 100)%float) /\
      (PrimFloat.is_zero (total_sales data) = true ->
         discount_percentage data = 0%float) /\
      discount_percentage data
      = discount_percentage_spec (totalDiscount data) (total_sales data)) /\
  total_sales Sample.two_records = 150%float /\
  totalDiscount Sample.two_records = 20%float /\
  discountPercentage (response Sample.two_records) = 13.3%float /\
  mean_discount_percentage Sample.two_records = 15.000000000000002%float.
Proof.
  split; [|split].
  - intros num N data.
    split; [apply totalDiscount_sum|].
    split; [apply total_sales_sum|].
    unfold discount_percentage.
    split; now intros ->.
  - intros data Hs.
    assert (Hpos := @float_positive (total_sales data) (@total_sales_nonneg data Hs)).
    assert (Hnan := @float_nonneg_not_nan (total_sales data) (@total_sales_nonneg data Hs)).
    unfold discount_percentage, discount_percentage_spec.
    change ((total_sales data >? zero)%js) with (0 <? total_sales data)%float.
    change (truthy (total_sales data))
      with (negb (PrimFloat.is_zero (total_sales data)
                  || PrimFloat.is_nan (total_sales data))).
    rewrite Hpos, Hnan, orb_false_r.
    repeat split.
    + now intros ->.
    + now intros ->.
  - repeat split; vm_compute; reflexivity.
Qed.

End Discount.

(** The amended C1 on the example of section 8: its total is positive. *)
Lemma discount_of_two_records :
  discount_percentage Sample.two_records
  = (totalDiscount Sample.two_records / total_sales Sample.two_records * lit 100)%js.
Proof.
  apply (proj1 (proj2 (proj2 (proj1 (@discount_is_sales_weighted Sample.engine)
                                _ _ Sample.two_records)))).
  vm_compute. reflexivity.
Defined.

(** C1 as stated fails on a return: the total of sales, -100, is not zero,
    the quotient [totalDiscount / totalSales * 100] is 10, and the code
    answers 0 because the total is not positive. *)
Lemma discount_of_a_refund :
  total_sales Sample.refund = (-100)%float /\
  truthy (total_sales Sample.refund) = true /\
  discount_percentage_spec (totalDiscount Sample.refund) (total_sales Sample.refund)
  = 10%float /\
  discount_percentage Sample.refund = 0%float /\
  discount_percentage Sample.refund
  <> discount_percentage_spec (totalDiscount Sample.refund) (total_sales Sample.refund).
Proof.
  repeat split; try (vm_compute; reflexivity). float_neq.
Qed.

(** ** The top products *)

Section TopProducts.

Context {num : Type} `{Number num} {engine : JS.Engine}.

Local Open Scope js_scope.

Lemma sorted_products_perm (data : list (SalesRecord num)) :
  Permutation (sorted_products data) (grouping (fun r => Product_Name r) data).
Proof.
  unfold sorted_products. rewrite Array_sort_perm, Object_entries_perm.
  now rewrite productSalesMap_grouping.
Qed.

Lemma entries_of_grouping (data : list (SalesRecord num)) :
  Permutation (JS.Object_entries (productSalesMap data))
              (grouping (fun r => Product_Name r) data).
Proof. rewrite Object_entries_perm. now rewrite productSalesMap_grouping. Qed.

(** The top products over any numbers: length, content, and, where the
    comparison function is consistent, order and ties. *)
Lemma top_products_over_numbers (data : list (SalesRecord num)) :
  (List.length (top10Products data) <= 10)%nat /\
  top10Products data = map as_product (firstn 10 (sorted_products data)) /\
  Permutation (sorted_products data) (grouping (fun r => Product_Name r) data) /\
  (plain_keys (fun r => Product_Name r) data ->
     grouping (fun r => Product_Name r) data
     = as_cells (group_by_sum (fun r => Product_Name r) data)) /\
  enumeration_of (created_keys (map (fun r => Product_Name r) data))
                 (JS.Object_keys (productSalesMap data)) /\
  (consistent_on (grouping (fun r => Product_Name r) data) = true ->
     StronglySorted not_below (top10Products data) /\
     forall e, In e (grouping (fun r => Product_Name r) data) ->
       filter (tied e) (sorted_products data)
       = filter (tied e) (JS.Object_entries (productSalesMap data))) /\
  (plain_keys (fun r => Product_Name r) data ->
   (forall r, In r data -> JS.is_array_index (Product_Name r) = false) ->
   consistent_on (as_cells (group_by_sum (fun r => Product_Name r) data)) = true ->
     top10Products data = top_products_spec data).
Proof.
  split; [|split; [|split; [|split; [|split; [|split]]]]].
  - unfold top10Products, JS.slice0. rewrite length_map. apply firstn_le_length.
  - reflexivity.
  - apply sorted_products_perm.
  - apply grouping_plain.
  - rewrite <- grouping_keys, <- productSalesMap_grouping.
    apply Object_keys_enumeration.
  - intros Hc.
    assert (Hentries : consistent by_sales_descending
                         (JS.Object_entries (productSalesMap data)) = true).
    { apply (consistent_permutation _ (Permutation_sym (entries_of_grouping data))).
      exact Hc. }
    split.
    + unfold top10Products, JS.slice0.
      apply StronglySorted_map
        with (R := fun a b => in_order by_sales_descending a b = true).
      * intros x y Hxy. unfold not_below, in_order, by_sales_descending in *.
        simpl. now apply negb_true_iff in Hxy.
      * apply StronglySorted_firstn. now apply Array_sort_sorted.
    + intros e He. apply Array_sort_stable; [exact Hentries|].
      eapply Permutation_in; [symmetry; apply entries_of_grouping | exact He].
  - intros Hplain Hnames Hc.
    unfold top10Products, top_products_spec, sorted_products, JS.slice0.
    rewrite productSalesMap_grouping, (grouping_plain Hplain).
    rewrite Object_entries_named.
    + now rewrite (Array_sort_consistent _ _ Hc).
    + intros k Hk. rewrite as_cells_keys, group_by_sum_keys in Hk.
      apply (proj1 (first_occurrences_In _ _)), in_map_iff in Hk.
      destruct Hk as [r [<- Hr]]. now apply Hnames.
Qed.

End TopProducts.

Section FloatProducts.

Local Open Scope float_scope.

Lemma float_keeps (a b : string * cell float) :
  keeps a b = negb (to_number (snd a) <? to_number (snd b)).
Proof.
  change (keeps a b) with (negb (0 <? to_number (snd b) - to_number (snd a))).
  now rewrite (proj1 (float_sub_sign (to_number (snd a)) (to_number (snd b)))).
Qed.

(** In binary64 the comparison function [(a, b) => b[1] - a[1]] is
    consistent on every list of values none of which is NaN as a
    number. *)
Lemma float_consistent (l : list (string * cell float)) :
  Forall (fun e => PrimFloat.is_nan (to_number (snd e)) = false) l ->
  consistent_on l = true.
Proof.
  intros Hnan. rewrite Forall_forall in Hnan.
  unfold consistent_on, consistent. repeat (apply andb_true_intro; split).
  - apply forallb_forall. intros a _. apply forallb_forall. intros b _.
    change (Bool.eqb (to_number (snd b) - to_number (snd a) <? 0)
                     (0 <? to_number (snd a) - to_number (snd b)) = true).
    rewrite (proj2 (float_sub_sign (to_number (snd a)) (to_number (snd b)))).
    rewrite (proj1 (float_sub_sign (to_number (snd b)) (to_number (snd a)))).
    apply Bool.eqb_reflx.
  - apply forallb_forall. intros a _. apply forallb_forall. intros b _.
    change (keeps a b || keeps b a = true)%bool.
    rewrite !float_keeps.
    destruct (to_number (snd a) <? to_number (snd b)) eqn:E; [|reflexivity].
    now rewrite (@float_ltb_asym (to_number (snd a)) (to_number (snd b)) E).
  - apply forallb_forall. intros a _. apply forallb_forall. intros b Hb.
    apply forallb_forall. intros c _.
    change (implb (keeps a b && keeps b c) (keeps a c) = true).
    rewrite !float_keeps.
    destruct (to_number (snd a) <? to_number (snd b)) eqn:E1; [reflexivity|].
    destruct (to_number (snd b) <? to_number (snd c)) eqn:E2; [reflexivity|].
    now rewrite (@float_ltb_negtrans (to_number (snd a)) (to_number (snd b))
                   (to_number (snd c)) (Hnan b Hb) E1 E2).
Qed.

Lemma as_cells_not_nan (l : list (string * float)) :
  Forall (fun e => PrimFloat.is_nan (snd e) = false) l ->
  Forall (fun e => PrimFloat.is_nan (to_number (snd e)) = false) (as_cells l).
Proof. intros Hl. unfold as_cells. rewrite Forall_map. exact Hl. Qed.

End FloatProducts.

Section RankedProducts.

Context {engine : JS.Engine}.

(** C2 (as amended).  For every record set the top-products list is the
    first 10 elements of the sort of the entries of the per-product
    grouping, so its length is at most 10.  The grouping holds every
    product name other than [__proto__] once; under a name that is no
    member of [Object.prototype] it holds the running total of the
    product's sales, under a name that is one it holds a string.
    Whenever the comparison function [(a, b) => b[1] - a[1]] is
    consistent on these entries (the condition under which ECMAScript
    defines the sorted order), the list is in descending order of sales,
    and products whose sales rank equal stay in the order in which
    [Object.entries] enumerates the grouping object: names that are array
    indices first, in ascending numeric order, then the other names in
    encounter order of their first occurrence.  When no product name is a
    member of [Object.prototype] or an array index, and the comparison
    function is consistent, this is encounter order throughout, and the
    list is the one section 4.3 describes.  In the program's arithmetic
    the comparison function is consistent when no product is named like
    a member of [Object.prototype] and no sum is NaN, which is so when no
    record has a negative sale. *)
Theorem top_products_ranked :
  (forall (num : Type) (N : Number num) (data : list (SalesRecord num)),
      (List.length (top10Products data) <= 10)%nat /\
      top10Products data = map as_product (firstn 10 (sorted_products data)) /\
      Permutation (sorted_products data)
                  (grouping (fun r => Product_Name r) data) /\
      (plain_keys (fun r => Product_Name r) data ->
         grouping (fun r => Product_Name r) data
         = as_cells (group_by_sum (fun r => Product_Name r) data)) /\
      enumeration_of (created_keys (map (fun r => Product_Name r) data))
                     (JS.Object_keys (productSalesMap data)) /\
      (consistent_on (grouping (fun r => Product_Name r) data) = true ->
         StronglySorted not_below (top10Products data) /\
         forall e, In e (grouping (fun r => Product_Name r) data) ->
           filter (tied e) (sorted_products data)
           = filter (tied e) (JS.Object_entries (productSalesMap data))) /\
      (plain_keys (fun r => Product_Name r) data ->
       (forall r, In r data -> JS.is_array_index (Product_Name r) = false) ->
       consistent_on (as_cells (group_by_sum (fun r => Product_Name r) data)) = true ->
         top10Products data = top_products_spec data)) /\
  (forall data : list (SalesRecord float),
      plain_keys (fun r => Product_Name r) data ->
      Forall (fun e => PrimFloat.is_nan (snd e) = false)
             (group_by_sum (fun r => Product_Name r) data) ->
      consistent_on (grouping (fun r => Product_Name r) data) = true /\
      consistent_on (as_cells (group_by_sum (fun r => Product_Name r) data)) = true /\
      StronglySorted
        (fun p q => (to_number (Product.sales p) <? to_number (Product.sales q))%float
                    = false)
        (top10Products data)) /\
  (forall data : list (SalesRecord float),
      no_negative_sales data ->
      Forall (fun e => PrimFloat.is_nan (snd e) = false)
             (group_by_sum (fun r => Product_Name r) data)).
Proof.
  split; [|split].
  - intros num N data. apply top_products_over_numbers.
  - intros data Hplain Hnan.
    assert (Hc := float_consistent (as_cells_not_nan Hnan)).
    assert (Hg : consistent_on (grouping (fun r => Product_Name r) data) = true)
      by (now rewrite (grouping_plain Hplain)).
    split; [exact Hg|]. split; [exact Hc|].
    destruct (top_products_over_numbers data) as (_ & _ & _ & _ & _ & Hsorted & _).
    destruct (Hsorted Hg) as [Hdesc _].
    eapply StronglySorted_map with (f := fun p : Product.t float => p) in Hdesc.
    + rewrite map_id in Hdesc. exact Hdesc.
    + intros p q Hpq.
      change ((0 <? to_number (Product.sales q) - to_number (Product.sales p))%float
              = false) in Hpq.
      now rewrite (proj1 (float_sub_sign (to_number (Product.sales p))
                            (to_number (Product.sales q)))) in Hpq.
  - intros data Hs.
    eapply Forall_impl; [|exact (@group_sums_nonneg (fun r => Product_Name r) data Hs)].
    intros e. apply float_nonneg_not_nan.
Qed.

End RankedProducts.

(** The amended C2 on a catalogue of twelve products: no product is named
    like a member of [Object.prototype] or like an array index, and no sum
    is NaN. *)
Lemma top_products_of_the_catalogue :
  StronglySorted
    (fun p q => (to_number (Product.sales p) <? to_number (Product.sales q))%float
                = false)
    (top10Products (engine := Sample.engine) Sample.catalogue) /\
  top10Products (engine := Sample.engine) Sample.catalogue
  = top_products_spec Sample.catalogue.
Proof.
  assert (Hplain : plain_keys (fun r => Product_Name r) Sample.catalogue)
    by plain_names.
  assert (Hnan : Forall (fun e => PrimFloat.is_nan (snd e) = false)
                   (group_by_sum (fun r => Product_Name r) Sample.catalogue)).
  { apply Forall_forall. intros e He. vm_compute in He.
    repeat (destruct He as [<-|He]; [reflexivity|]). contradiction. }
  destruct (proj1 (proj2 (@top_products_ranked Sample.engine)) Sample.catalogue
              Hplain Hnan) as (_ & Hc & Hsorted).
  split; [exact Hsorted|].
  destruct (proj1 (@top_products_ranked Sample.engine) _ _ Sample.catalogue)
    as (_ & _ & _ & _ & _ & _ & Hspec).
  apply Hspec; [exact Hplain| |exact Hc].
  intros r Hr.
  unfold Sample.catalogue in Hr. simpl in Hr.
  repeat (destruct Hr as [<-|Hr]; [reflexivity|]). contradiction.
Defined.

(** C2 as stated fails on products named by numbers: "2" is met before
    "1", both sold for 5, and the list ranks "1" before "2", whatever the
    engine. *)
Lemma top_products_named_by_numbers :
  on_every_engine (fun engine =>
    map (fun p => Product.name p) (top10Products Sample.numbered)
    = ["Chair"; "1"; "2"]%string /\
    map (fun p => Product.name p) (top_products_spec Sample.numbered)
    = ["Chair"; "2"; "1"]%string /\
    top10Products Sample.numbered <> top_products_spec Sample.numbered).
Proof.
  intros engine.
  repeat split; try (vm_compute; reflexivity).
  intro E. apply (f_equal (map (fun p => Product.name p))) in E.
  vm_compute in E. discriminate E.
Qed.

(** ** The sub-category list *)

Section SubCategories.

Context {num : Type} `{Number num}.

Local Open Scope js_scope.

(** The sub-category list over any numbers. *)
Lemma sub_categories_over_numbers (data : list (SalesRecord num)) :
  NoDup (map (fun e => SubCategory.name e) (sales_by_sub_category data)) /\
  (forall k, In k (map (fun e => SubCategory.name e) (sales_by_sub_category data))
             <-> In k (map (fun r => Sub_Category r) data) /\ k <> "__proto__"%string) /\
  (forall e, In e (sales_by_sub_category data) ->
     SubCategory.value e
     = settled (SubCategory.name e)
               (sales_of (fun r => Sub_Category r) (SubCategory.name e) data) /\
     (JS.inherited (SubCategory.name e) = false ->
      SubCategory.value e
      = Num (running_total
               (sales_of (fun r => Sub_Category r) (SubCategory.name e) data)) /\
      (Forall (fun p => or_else p zero = p)
              (partial_sums zero
                 (sales_of (fun r => Sub_Category r) (SubCategory.name e) data)) ->
       SubCategory.value e
       = Num (sum (sales_of (fun r => Sub_Category r) (SubCategory.name e) data))))) /\
  enumeration_of (created_keys (map (fun r => Sub_Category r) data))
                 (map (fun e => SubCategory.name e) (sales_by_sub_category data)) /\
  (plain_keys (fun r => Sub_Category r) data ->
   (forall r, In r data -> JS.is_array_index (Sub_Category r) = false) ->
     sales_by_sub_category data = sub_categories_spec data /\
     map (fun e => SubCategory.name e) (sales_by_sub_category data)
     = first_occurrences (map (fun r => Sub_Category r) data)).
Proof.
  set (key := fun r : SalesRecord num => Sub_Category r).
  assert (Hnames : map (fun e => SubCategory.name e) (sales_by_sub_category data)
                   = JS.Object_keys (grouping key data)).
  { unfold sales_by_sub_category, JS.Object_keys.
    rewrite salesBy_grouping, map_map. reflexivity. }
  assert (Hperm : Permutation (JS.Object_keys (grouping key data))
                              (created_keys (map key data))).
  { rewrite <- grouping_keys. unfold JS.Object_keys, JS.own_keys.
    apply Permutation_map, Object_entries_perm. }
  split; [|split; [|split; [|split]]].
  - rewrite Hnames. eapply Permutation_NoDup; [symmetry; exact Hperm|].
    apply created_keys_NoDup.
  - intros k. rewrite Hnames, <- (created_keys_In (map key data) k).
    split; apply Permutation_in; [exact Hperm | symmetry; exact Hperm].
  - intros e He. unfold sales_by_sub_category in He.
    rewrite salesBy_grouping in He. apply in_map_iff in He.
    destruct He as [[k v] [<- Hkv]]. simpl.
    apply (Permutation_in _ (Object_entries_perm _)) in Hkv.
    unfold grouping in Hkv. apply in_map_iff in Hkv.
    destruct Hkv as [k' [Heq _]]. inversion Heq; subst.
    split; [reflexivity|]. intros Hk. unfold settled. rewrite Hk.
    split; [reflexivity|]. intros Hp. f_equal. exact (running_total_plain _ Hp).
  - rewrite Hnames, <- grouping_keys. apply Object_keys_enumeration.
  - intros Hplain Hidx.
    assert (Hg := grouping_plain Hplain). fold key in Hg.
    assert (Hid : JS.Object_entries (as_cells (group_by_sum key data))
                  = as_cells (group_by_sum key data)).
    { apply Object_entries_named. intros k Hk.
      rewrite as_cells_keys, group_by_sum_keys in Hk.
      apply (proj1 (first_occurrences_In _ _)), in_map_iff in Hk.
      destruct Hk as [r [<- Hr]]. now apply Hidx. }
    split.
    + unfold sales_by_sub_category, sub_categories_spec.
      fold key. now rewrite salesBy_grouping, Hg, Hid.
    + rewrite Hnames, Hg. unfold JS.Object_keys. rewrite Hid.
      fold (JS.own_keys (as_cells (group_by_sum key data))).
      rewrite as_cells_keys. apply group_by_sum_keys.
Qed.

End SubCategories.

(** C8 (as amended).  For every record set the sales-by-sub-category
    output holds one {name, value} pair per distinct sub-category other
    than [__proto__].  For a sub-category that is not named like a member
    of [Object.prototype] the value is the running total of the sales of
    the records with that sub-category (their plain sum wherever
    [(acc || 0)] changes nothing, that is, unless a subtotal is NaN or -0;
    in the program's arithmetic, whenever no record has a negative sale);
    for one that is, the value is a string.  The order is not a sort by
    value but the order in which [Object.entries] enumerates the grouping
    object: sub-categories whose names are array indices first, in
    ascending numeric order, then the others in encounter order of their
    first occurrence.  When no sub-category is named like a member of
    [Object.prototype] or like an array index, this is encounter order of
    first occurrence throughout. *)
Theorem sub_categories_enumerated :
  (forall (num : Type) (N : Number num) (data : list (SalesRecord num)),
      NoDup (map (fun e => SubCategory.name e) (sales_by_sub_category data)) /\
      (forall k, In k (map (fun e => SubCategory.name e) (sales_by_sub_category data))
                 <-> In k (map (fun r => Sub_Category r) data)
                     /\ k <> "__proto__"%string) /\
      (forall e, In e (sales_by_sub_category data) ->
         SubCategory.value e
         = settled (SubCategory.name e)
                   (sales_of (fun r => Sub_Category r) (SubCategory.name e) data) /\
         (JS.inherited (SubCategory.name e) = false ->
          SubCategory.value e
          = Num (running_total
                   (sales_of (fun r => Sub_Category r) (SubCategory.name e) data)) /\
          (Forall (fun p => or_else p zero = p)
                  (partial_sums zero
                     (sales_of (fun r => Sub_Category r) (SubCategory.name e) data)) ->
           SubCategory.value e
           = Num (sum (sales_of (fun r => Sub_Category r)
                         (SubCategory.name e) data))))) /\
      enumeration_of (created_keys (map (fun r => Sub_Category r) data))
                     (map (fun e => SubCategory.name e) (sales_by_sub_category data)) /\
      (plain_keys (fun r => Sub_Category r) data ->
       (forall r, In r data -> JS.is_array_index (Sub_Category r) = false) ->
         sales_by_sub_category data = sub_categories_spec data /\
         map (fun e => SubCategory.name e) (sales_by_sub_category data)
         = first_occurrences (map (fun r => Sub_Category r) data))) /\
  (forall (data : list (SalesRecord float)) (e : SubCategory.t float),
      no_negative_sales data -> In e (sales_by_sub_category data) ->
      JS.inherited (SubCategory.name e) = false ->
      SubCategory.value e
      = Num (sum (sales_of (fun r => Sub_Category r) (SubCategory.name e) data))).
Proof.
  split.
  - intros num N data. apply sub_categories_over_numbers.
  - intros data e Hs He Hk.
    destruct (sub_categories_over_numbers data) as (_ & _ & Hvalue & _).
    apply (proj2 (Hvalue e He) Hk). apply partial_sums_plain.
    unfold sales_of. apply Forall_forall. intros x Hx.
    apply in_map_iff in Hx. destruct Hx as [r [<- Hr]]. apply filter_In in Hr.
    unfold no_negative_sales in Hs. rewrite Forall_forall in Hs. now apply Hs.
Qed.

(** The amended C8 on four sales in three sub-categories, none named like
    a member of [Object.prototype] or like an array index: the list is in
    encounter order, Chairs first, which is neither the order of the
    values, 15, 30 and 20, nor that of the names. *)
Lemma sub_categories_of_the_shelves :
  (sales_by_sub_category Sample.shelves = sub_categories_spec Sample.shelves /\
   map (fun e => SubCategory.name e) (sales_by_sub_category Sample.shelves)
   = first_occurrences (map (fun r => Sub_Category r) Sample.shelves)) /\
  sales_by_sub_category Sample.shelves
  = [ {| SubCategory.name := "Chairs"; SubCategory.value := Num 15%float |};
      {| SubCategory.name := "Tables"; SubCategory.value := Num 30%float |};
      {| SubCategory.name := "Phones"; SubCategory.value := Num 20%float |} ].
Proof.
  split; [|vm_compute; reflexivity].
  apply (proj1 sub_categories_enumerated _ _ Sample.shelves).
  - plain_names.
  - intros r [<-|[<-|[<-|[<-|[]]]]]; reflexivity.
Defined.

(** C8 as stated fails on sub-categories named by numbers: "2" is met
    before "1", and the output lists "1" before "2". *)
Lemma sub_categories_named_by_numbers :
  map (fun e => SubCategory.name e) (sales_by_sub_category Sample.numbered)
  = ["1"; "2"; "Chairs"]%string /\
  first_occurrences (map (fun r => Sub_Category r) Sample.numbered)
  = ["2"; "1"; "Chairs"]%string /\
  map (fun e => SubCategory.name e) (sales_by_sub_category Sample.numbered)
  <> first_occurrences (map (fun r => Sub_Category r) Sample.numbered).
Proof.
  repeat split; try (vm_compute; reflexivity).
  intro E. vm_compute in E. discriminate E.
Qed.

(** ** Sales by city against total sales *)

Section ExactArithmetic.

Context {num : Type} `{Number num}.

Local Open Scope js_scope.

(** Addition as in exact arithmetic. *)
Hypothesis add_assoc : forall a b c : num, a + (b + c) = a + b + c.
Hypothesis add_comm : forall a b : num, a + b = b + a.
Hypothesis add_zero : forall a : num, zero + a = a.
(** [(a || 0)] is [a]: the only falsy number is 0. *)
Hypothesis or_zero_neutral : forall a : num, or_else a zero = a.

Lemma reduce_add_from (l : list num) (a : num) :
  JS.reduce add a l = a + sum l.
Proof.
  unfold sum, JS.reduce. revert a. induction l as [|x l IH]; simpl; intros a.
  - now rewrite add_comm, add_zero.
  - rewrite IH, (IH (zero + x)), add_zero. symmetry. apply add_assoc.
Qed.

Lemma sum_cons (x : num) (l : list num) : sum (x :: l) = x + sum l.
Proof.
  unfold sum at 1. unfold JS.reduce. simpl. fold (JS.reduce add (zero + x) l).
  now rewrite reduce_add_from, add_zero.
Qed.

Lemma sum_permutation (l l' : list num) : Permutation l l' -> sum l = sum l'.
Proof.
  induction 1 as [|x l l' _ IH|x y l|l l' l'' _ IH1 _ IH2].
  - reflexivity.
  - now rewrite !sum_cons, IH.
  - rewrite !sum_cons, !add_assoc. f_equal. apply add_comm.
  - now rewrite IH1.
Qed.

Lemma sum_after_set (o : JS.object (cell num)) (k : string) (x : num) :
  JS.inherited k = false -> all_numbers o ->
  all_numbers (JS.set_prop o k
                 (or_zero_plus (JS.along_prototype k (JS.get_prop o k)) x)) /\
  sum (numbers (JS.set_prop o k
                  (or_zero_plus (JS.along_prototype k (JS.get_prop o k)) x)))
  = sum (numbers o) + x.
Proof.
  unfold all_numbers, numbers. intros Hk.
  induction o as [|[k' v'] o IH]; intros Hall; cbn [JS.get_prop JS.set_prop].
  - unfold JS.along_prototype. rewrite Hk. simpl.
    split; [repeat constructor|].
    rewrite sum_cons. unfold sum at 1 2, JS.reduce. simpl.
    now rewrite (add_comm (zero + x)), !add_zero.
  - inversion Hall as [|? ? Hv Hall']; subst. simpl in Hv.
    destruct v' as [a|origin appended]; [|discriminate].
    destruct (String.eqb k' k); simpl.
    + split; [now constructor|].
      rewrite !sum_cons, or_zero_neutral.
      rewrite <- !add_assoc. f_equal. apply add_comm.
    + destruct (IH Hall') as [IH1 IH2].
      split; [now constructor|].
      rewrite !sum_cons, IH2. apply add_assoc.
Qed.

Lemma sum_of_groups (key : SalesRecord num -> string)
  (data : list (SalesRecord num)) (o : JS.object (cell num)) :
  plain_keys key data -> all_numbers o ->
  sum (numbers (fold_left (accumulate key) data o))
  = sum (numbers o) + sum (map (fun r => Sales r) data).
Proof.
  intros Hplain. revert o. induction Hplain as [|r data Hr Hplain IH]; simpl; intros o Ho.
  - unfold sum at 3. unfold JS.reduce. simpl. now rewrite add_comm, add_zero.
  - assert (Hstep : accumulate key o r
                    = JS.set_prop o (key r)
                        (or_zero_plus (JS.along_prototype (key r)
                                         (JS.get_prop o (key r))) (Sales r))).
    { unfold accumulate, JS.put, JS.get.
      destruct (String.eqb_spec (key r) "__proto__") as [E|_]; [|reflexivity].
      exfalso. now apply (plain_key_not_proto Hr). }
    destruct (@sum_after_set o (key r) (Sales r) Hr Ho) as [Hall Hsum].
    rewrite IH by (rewrite Hstep; exact Hall).
    rewrite Hstep, Hsum, sum_cons.
    symmetry. apply add_assoc.
Qed.

(** In exact arithmetic the city values add up to the total. *)
Lemma city_sales_exact (data : list (SalesRecord num)) :
  plain_keys (fun r => City r) data ->
  sum (map to_number (JS.Object_values (sales_by_city data))) = total_sales data.
Proof.
  intros Hplain. unfold JS.Object_values. rewrite map_map.
  rewrite (sum_permutation
             (Permutation_map (fun e => to_number (snd e))
                (Object_entries_perm (sales_by_city data)))).
  unfold sales_by_city, salesBy, JS.reduce.
  change (map (fun e => to_number (snd e)) ?o) with (numbers o).
  rewrite (sum_of_groups Hplain) by constructor.
  rewrite total_sales_sum. simpl.
  unfold sum at 1. unfold JS.reduce. simpl. apply add_zero.
Qed.

End ExactArithmetic.


(** The rationals are such an arithmetic. *)

Lemma exact_add_assoc (a b c : Qc) : add a (add b c) = add (add a b) c.
Proof. apply Qcplus_assoc. Qed.

Lemma exact_add_comm (a b : Qc) : add a b = add b a.
Proof. apply Qcplus_comm. Qed.

Lemma exact_add_zero (a : Qc) : add zero a = a.
Proof. apply Qcplus_0_l. Qed.

Lemma exact_or_zero (a : Qc) : or_else a zero = a.
Proof.
  unfold or_else. simpl. unfold Exact.to_boolean.
  destruct (Qc_eq_bool a (Exact.of_Z 0)) eqn:E; simpl; [|reflexivity].
  symmetry. now apply Qc_eq_bool_correct.
Qed.



(** What the loops make of names that [Object.prototype] has.  Of three
    sales in Texas, the product [__proto__] is not stored at all, the
    city constructor holds a string and the city [__proto__] is not
    stored, the sub-category valueOf holds a string: the values of
    salesByCity do not add up to the total of 175. *)
Lemma groupings_of_the_namesakes :
  productSalesMap Sample.namesakes = [("Stapler", Num 75)]%float%string /\
  sales_by_city Sample.namesakes
  = [("constructor", Text "constructor" [100; 25])]%float%string /\
  sales_by_sub_category Sample.namesakes
  = [ {| SubCategory.name := "valueOf";
         SubCategory.value := Text "valueOf" [100%float] |};
      {| SubCategory.name := "Fasteners"; SubCategory.value := Num 25%float |} ] /\
  total_sales Sample.namesakes = 175%float /\
  PrimFloat.is_nan
    (sum (map to_number (JS.Object_values (sales_by_city Sample.namesakes)))) = true.
Proof. repeat split; vm_compute; reflexivity. Qed.

(* ================================================================== *)
(** * Part 15: the filter stage *)
(* ================================================================== *)

Lemma filter_none {A : Type} (f : A -> bool) (l : list A) :
  (forall x, In x l -> f x = false) -> filter f l = [].
Proof.
  induction l as [|x l IH]; simpl; intros Hf; [reflexivity|].
  rewrite (Hf x (or_introl eq_refl)). apply IH. intros y Hy. apply Hf. now right.
Qed.

Section FilterStage.

Context {num : Type} `{Number num} {engine : JS.Engine}.

Variable Date_parse : string -> Date.t.

Local Abbreviation record := (SalesRecord num).

Lemma in_date_range_within (from to : string) (r : record) :
  in_date_range Date_parse (Some from) (Some to) r = within Date_parse from to r.
Proof.
  unfold in_date_range, within, Date.geb, Date.leb. simpl.
  destruct (Date_parse (Order_Date r)), (Date_parse from), (Date_parse to);
    simpl; try reflexivity.
  now rewrite andb_false_r.
Qed.

(** C4.  The filter stage of [getDashboardData]:
    (1) a region other than the sentinel keeps exactly the records whose
    State equals it, and the sentinel "All States" passes every record
    through unchanged (it filters like no region at all, and so does a
    region without text);
    (2) the date filter is applied only when both bounds are present: if
    either is absent, be it missing from the query or given without text,
    the result is that of the region filter alone, and with both bounds
    it keeps exactly the records whose order date lies between them, both
    ends included;
    (3) when the from bound is strictly after the to bound, nothing is
    kept: the bounds are not swapped. *)
Theorem filter_stage (data : list record) :
  (forall region from to,
      region <> EmptyString -> region <> "All States"%string ->
      filteredData Date_parse {| state := Some region; startDate := from; endDate := to |} data
      = filteredData Date_parse {| state := None; startDate := from; endDate := to |}
          (filter (fun r => String.eqb (State r) region) data)) /\
  (forall from to,
      filteredData Date_parse
        {| state := Some "All States"%string; startDate := from; endDate := to |} data
      = filteredData Date_parse {| state := None; startDate := from; endDate := to |} data) /\
  (forall from to,
      filteredData Date_parse
        {| state := Some EmptyString; startDate := from; endDate := to |} data
      = filteredData Date_parse {| state := None; startDate := from; endDate := to |} data) /\
  filteredData Date_parse
    {| state := Some "All States"%string; startDate := None; endDate := None |} data = data /\
  (forall region from to,
      absent from \/ absent to ->
      filteredData Date_parse {| state := region; startDate := from; endDate := to |} data
      = filteredData Date_parse {| state := region; startDate := None; endDate := None |} data) /\
  (forall region from to,
      from <> EmptyString -> to <> EmptyString ->
      filteredData Date_parse
        {| state := region; startDate := Some from; endDate := Some to |} data
      = filter (within Date_parse from to)
          (filteredData Date_parse
             {| state := region; startDate := None; endDate := None |} data)) /\
  (forall region from to lo hi,
      from <> EmptyString -> to <> EmptyString ->
      Date_parse from = Some lo -> Date_parse to = Some hi -> (hi < lo)%Z ->
      filteredData Date_parse
        {| state := region; startDate := Some from; endDate := Some to |} data = []).
Proof.
  assert (Hboth : forall region from to,
             from <> EmptyString -> to <> EmptyString ->
             filteredData Date_parse
               {| state := region; startDate := Some from; endDate := Some to |} data
             = filter (within Date_parse from to)
                 (filteredData Date_parse
                    {| state := region; startDate := None; endDate := None |} data)).
  { intros region from to Hfrom Hto. unfold filteredData, date_filter_applies. simpl.
    apply String.eqb_neq in Hfrom, Hto. rewrite Hfrom, Hto. simpl.
    unfold filterByDate. apply filter_ext. intros r. apply in_date_range_within. }
  split; [|split; [|split; [|split; [|split; [|split]]]]].
  - intros region from to Hne Hall. unfold filteredData, state_filter_applies. simpl.
    apply String.eqb_neq in Hne, Hall. rewrite Hne, Hall. simpl.
    unfold filterByState. simpl.
    rewrite (filter_ext (fun r : record => String.eqb region (State r))
                        (fun r : record => String.eqb (State r) region));
      [reflexivity | intros r; apply string_eqb_sym].
  - intros from to. reflexivity.
  - intros from to. reflexivity.
  - reflexivity.
  - intros region from to Habsent.
    assert (Hoff : date_filter_applies from to = false).
    { unfold date_filter_applies.
      destruct Habsent as [[-> | ->] | [-> | ->]]; simpl;
        try reflexivity; apply andb_false_r. }
    unfold filteredData. simpl. now rewrite Hoff.
  - exact Hboth.
  - intros region from to lo hi Hfrom Hto Hlo Hhi Hlt.
    rewrite (Hboth region from to Hfrom Hto). apply filter_none.
    intros r _. unfold within. rewrite Hlo, Hhi.
    destruct (Date_parse (Order_Date r)) as [time|]; [|reflexivity].
    destruct (Z.leb_spec lo time), (Z.leb_spec time hi); simpl; try reflexivity. lia.
Qed.

End FilterStage.

(** C4 on the example of section 8: February to January keeps nothing,
    and a from bound without text leaves the Texas record, which is
    dated after the to bound. *)
Lemma filter_stage_from_after_to :
  filteredData Date.parse_date_only
    {| state := Some "All States"%string;
       startDate := Some "2014-02-01"%string; endDate := Some "2014-01-01"%string |}
    Sample.two_records = [] /\
  filteredData Date.parse_date_only
    {| state := Some "Texas"%string;
       startDate := Some EmptyString; endDate := Some "2014-01-31"%string |}
    Sample.two_records
  = filteredData Date.parse_date_only
      {| state := Some "Texas"%string; startDate := None; endDate := None |}
      Sample.two_records.
Proof.
  split.
  - apply (proj2 (proj2 (proj2 (proj2 (proj2 (proj2
             (filter_stage Date.parse_date_only Sample.two_records)))))))
      with (lo := 1391212800000%Z) (hi := 1388534400000%Z);
      first [discriminate | reflexivity].
  - apply (proj1 (proj2 (proj2 (proj2 (proj2
             (filter_stage Date.parse_date_only Sample.two_records)))))).
    left. right. reflexivity.
Defined.

(* ================================================================== *)
(** * Part 16: the loader and the handlers *)
(* ================================================================== *)

Section Handlers.

Context {num : Type} `{Number num} {engine : JS.Engine}.

Variable JSON_parse : string -> option (list (SalesRecord num)).
Variable Date_parse : string -> Date.t.

Local Abbreviation record := (SalesRecord num).

Lemma length_zero (l : list record) : (List.length l =? 0)%nat = true <-> l = [].
Proof. destruct l; simpl; split; congruence. Qed.

(** C6.  The loader never raises: for every state of the data file it
    completes normally and leaves the file as it was.  It returns the
    parsed records when the file can be read and parsed, and the empty
    sequence, after a [console.error] line, when the file is missing or
    is not JSON. *)
Theorem loader_never_raises (w : World num) :
  exists salesData lines,
    getSalesData JSON_parse w = (JS.Normal salesData, log_to w lines) /\
    (forall raw parsed,
        sales_json w = Some raw -> JSON_parse raw = Some parsed ->
        salesData = parsed) /\
    (sales_json w = None ->
        salesData = [] /\
        In (console_error "Error reading sales data:"
              [LException (JS.SystemError "ENOENT")]) lines) /\
    (forall raw,
        sales_json w = Some raw -> JSON_parse raw = None ->
        salesData = [] /\
        In (console_error "Error reading sales data:"
              [LException (JS.SyntaxError "Unexpected token")]) lines).
Proof.
  exists (loaded JSON_parse w), (loader_lines JSON_parse w).
  split; [apply getSalesData_run|].
  unfold loaded, loader_lines.
  split; [|split].
  - intros raw parsed -> ->. reflexivity.
  - intros ->. split; [reflexivity | right; now left].
  - intros raw -> ->. split; [reflexivity | right; now left].
Qed.

(** C9.  [getDashboardData] is deterministic and leaves the backing store
    alone: in two worlds with the same data file (whatever their
    consoles hold) the same query gets the same answer; a call does not
    change the data file; so a second call, made in the world the first
    call left behind, answers what the first one did. *)
Theorem summary_is_deterministic (q : Query) :
  (forall w w' : World num,
      sales_json w = sales_json w' ->
      fst (getDashboardData JSON_parse Date_parse q w)
      = fst (getDashboardData JSON_parse Date_parse q w')) /\
  (forall w : World num,
      sales_json (snd (getDashboardData JSON_parse Date_parse q w)) = sales_json w) /\
  (forall w : World num,
      fst (getDashboardData JSON_parse Date_parse q
             (snd (getDashboardData JSON_parse Date_parse q w)))
      = fst (getDashboardData JSON_parse Date_parse q w)).
Proof.
  assert (Hsame : forall w w' : World num,
             sales_json w = sales_json w' ->
             fst (getDashboardData JSON_parse Date_parse q w)
             = fst (getDashboardData JSON_parse Date_parse q w')).
  { intros w w' Hfile.
    destruct (getDashboardData_run JSON_parse Date_parse q w) as [lines ->].
    destruct (getDashboardData_run JSON_parse Date_parse q w') as [lines' ->].
    simpl. unfold loaded. now rewrite Hfile. }
  assert (Hkeeps : forall w : World num,
             sales_json (snd (getDashboardData JSON_parse Date_parse q w))
             = sales_json w).
  { intros w.
    destruct (getDashboardData_run JSON_parse Date_parse q w) as [lines ->].
    reflexivity. }
  split; [exact Hsame | split; [exact Hkeeps|]].
  intros w. apply Hsame, Hkeeps.
Qed.

(** C10.  With the state parameter absent ([undefined]) or empty, no
    region filter is applied, and the answer is the one the sentinel
    "All States" gets: for a loaded record set that is not empty, all
    three are the summary of the records within the date bounds. *)
Theorem absent_state_is_all_states (from to : JS.param) (w : World num) :
  let answer st :=
    fst (getDashboardData JSON_parse Date_parse
           {| state := st; startDate := from; endDate := to |} w) in
  answer None = answer (Some "All States"%string) /\
  answer (Some EmptyString) = answer (Some "All States"%string) /\
  (forall salesData,
      fst (getSalesData JSON_parse w) = JS.Normal salesData -> salesData <> [] ->
      answer None
      = JS.Normal
          {| status := 200;
             body := DashboardBody
                       (response
                          (if date_filter_applies from to
                           then filterByDate Date_parse from to salesData
                           else salesData)) |}).
Proof.
  intros answer. unfold answer.
  destruct (getDashboardData_run JSON_parse Date_parse
              {| state := None; startDate := from; endDate := to |} w) as [l1 ->].
  destruct (getDashboardData_run JSON_parse Date_parse
              {| state := Some EmptyString; startDate := from; endDate := to |} w)
    as [l2 ->].
  destruct (getDashboardData_run JSON_parse Date_parse
              {| state := Some "All States"%string; startDate := from; endDate := to |} w)
    as [l3 ->].
  simpl. split; [reflexivity | split; [reflexivity|]].
  intros salesData Hload Hne. rewrite getSalesData_run in Hload. simpl in Hload.
  injection Hload as <-. unfold dashboard_reply.
  destruct (List.length (loaded JSON_parse w) =? 0)%nat eqn:E.
  - apply length_zero in E. contradiction.
  - reflexivity.
Qed.

End Handlers.

(** C6 on a missing data file and on one that is not JSON. *)
Lemma loader_without_a_file :
  fst (getSalesData (Sample.read_as Sample.two_records) Sample.no_disk) = JS.Normal [] /\
  fst (getSalesData (Sample.read_as Sample.two_records) Sample.corrupt_disk) = JS.Normal [].
Proof.
  split.
  - destruct (loader_never_raises (Sample.read_as Sample.two_records) Sample.no_disk)
      as (salesData & lines & -> & _ & Hmissing & _).
    simpl. f_equal. now apply Hmissing.
  - destruct (loader_never_raises (Sample.read_as Sample.two_records) Sample.corrupt_disk)
      as (salesData & lines & -> & _ & _ & Hcorrupt).
    simpl. f_equal. now apply (Hcorrupt "[ ...,"%string).
Defined.

(** C9 on the example of section 8: the console of the first call does
    not change the answer of the second. *)
Lemma summary_twice :
  fst (getDashboardData (engine := Sample.engine)
         (Sample.read_as Sample.two_records) Date.parse_date_only
         {| state := Some "Texas"%string; startDate := None; endDate := None |}
         (log_to Sample.disk [console_log "Server running on port 3001" []]))
  = fst (getDashboardData (engine := Sample.engine)
           (Sample.read_as Sample.two_records) Date.parse_date_only
           {| state := Some "Texas"%string; startDate := None; endDate := None |}
           Sample.disk).
Proof.
  apply (summary_is_deterministic (engine := Sample.engine)
           (Sample.read_as Sample.two_records)
           Date.parse_date_only
           {| state := Some "Texas"%string; startDate := None; endDate := None |}).
  reflexivity.
Defined.

(** C10 on the example of section 8, without date bounds. *)
Lemma summary_without_a_state :
  fst (getDashboardData (engine := Sample.engine)
         (Sample.read_as Sample.two_records) Date.parse_date_only
         {| state := None; startDate := None; endDate := None |} Sample.disk)
  = JS.Normal {| status := 200;
                 body := DashboardBody
                           (response (engine := Sample.engine) Sample.two_records) |}.
Proof.
  apply (proj2 (proj2 (absent_state_is_all_states (engine := Sample.engine)
                         (Sample.read_as Sample.two_records) Date.parse_date_only
                         None None Sample.disk))).
  - reflexivity.
  - discriminate.
Defined.

Section DashboardErrors.

Context {engine : JS.Engine}.

Variable JSON_parse : string -> option (list (SalesRecord float)).
Variable Date_parse : string -> Date.t.

(** C3.  [getDashboardData] answers with an error (status 500 and an
    error body, no summary) exactly when the loader yields the empty
    record set.  When the loader yields records it answers 200 with the
    summary of the filtered records; in particular, when the filters
    exclude every record, with the summary whose totals are all 0 and
    whose groupings are all empty. *)
Theorem summary_fails_only_without_data (q : Query) (w : World float) :
  exists salesData reply,
    fst (getSalesData JSON_parse w) = JS.Normal salesData /\
    fst (getDashboardData JSON_parse Date_parse q w) = JS.Normal reply /\
    (status reply = 500%nat <-> salesData = []) /\
    (salesData = [] -> body reply = ErrorBody "Failed to process dashboard data") /\
    (salesData <> [] ->
       reply = {| status := 200;
                  body := DashboardBody (response (filteredData Date_parse q salesData)) |}) /\
    (salesData <> [] -> filteredData Date_parse q salesData = [] ->
       reply = {| status := 200; body := DashboardBody empty_summary |}).
Proof.
  exists (loaded JSON_parse w), (dashboard_reply Date_parse q (loaded JSON_parse w)).
  split; [now rewrite getSalesData_run|].
  split; [now destruct (getDashboardData_run JSON_parse Date_parse q w) as [lines ->]|].
  unfold dashboard_reply.
  destruct (List.length (loaded JSON_parse w) =? 0)%nat eqn:E.
  - apply length_zero in E. rewrite E. simpl.
    repeat split; congruence.
  - assert (Hne : loaded JSON_parse w <> []).
    { intros Hnil. rewrite Hnil in E. discriminate. }
    simpl. split; [split; [discriminate | contradiction]|].
    split; [contradiction|].
    split; [reflexivity|].
    intros _ ->. reflexivity.
Qed.

End DashboardErrors.

(** C3 on the example of section 8: no record is from Ohio, and the
    answer is the all-zero summary, not an error. *)
Lemma summary_of_an_unknown_state :
  fst (getDashboardData (engine := Sample.engine)
         (Sample.read_as Sample.two_records) Date.parse_date_only
         {| state := Some "Ohio"%string; startDate := None; endDate := None |}
         Sample.disk)
  = JS.Normal {| status := 200; body := DashboardBody empty_summary |}.
Proof.
  destruct (summary_fails_only_without_data (engine := Sample.engine)
              (Sample.read_as Sample.two_records) Date.parse_date_only
              {| state := Some "Ohio"%string; startDate := None; endDate := None |}
              Sample.disk)
    as (salesData & reply & Hload & Hreply & _ & _ & _ & Hzero).
  rewrite Hreply. f_equal.
  injection Hload as <-.
  apply Hzero; [discriminate | reflexivity].
Defined.

Section DateRange.

Context {num : Type} `{Number num} {engine : JS.Engine}.

Variable JSON_parse : string -> option (list (SalesRecord num)).
Variable Date_parse : string -> Date.t.

Local Abbreviation record := (SalesRecord num).

Local Open Scope Z_scope.

Lemma of_time_in_range (ts : list Z) (m : Z) :
  Forall (fun x => Z.abs x <= 8640000000000000) ts -> In m ts ->
  Date.of_time (Some m) = Some m.
Proof.
  intros Hts Hin. rewrite Forall_forall in Hts. specialize (Hts m Hin).
  unfold Date.of_time. now apply Z.leb_le in Hts; rewrite Hts.
Qed.

(** C5 (as amended).  When the data file, if there is one, holds an array
    of sales records, [getDateRange] answers 404 with an error body if and
    only if no loaded record has the requested state.  When some record
    has it, their number is within what a call of the engine can pass as
    arguments, and every order date among them is a valid date, the
    answer is 200 with the earliest and the latest of these order dates,
    each written as the date part of its ISO text, which for the years 0
    to 9999 has the form YYYY-MM-DD.  When the state has more records
    than a call can pass, or one of their order dates is not a date, the
    answer is 500. *)
Theorem date_bounds (region : string) (w : World num) :
  holds_records JSON_parse w ->
  exists salesData reply,
    fst (getSalesData JSON_parse w) = JS.Normal salesData /\
    fst (getDateRange JSON_parse Date_parse region w) = JS.Normal reply /\
    let stateRecords := filter (fun r : record => String.eqb (State r) region) salesData in
    let dates := map (fun r : record => Date_parse (Order_Date r)) stateRecords in
    (status reply = 404%nat <-> stateRecords = []) /\
    (stateRecords = [] -> body reply = ErrorBody "State not found") /\
    (stateRecords <> [] ->
     (List.length stateRecords <= JS.max_arguments)%nat ->
     Forall (fun d => Date.valid d = true) dates ->
     exists lo hi,
       In (Some lo) dates /\ In (Some hi) dates /\
       (forall time, In (Some time) dates -> lo <= time <= hi) /\
       reply = {| status := 200;
                  body := DateRangeBody (Date.date_string lo) (Date.date_string hi) |} /\
       (0 <= Date.YearFromTime lo <= 9999 ->
          Date.is_calendar_date (Date.date_string lo) = true) /\
       (0 <= Date.YearFromTime hi <= 9999 ->
          Date.is_calendar_date (Date.date_string hi) = true)) /\
    ((JS.max_arguments < List.length stateRecords)%nat ->
       reply = {| status := 500; body := ErrorBody "Failed to fetch date range" |}) /\
    (In None dates ->
       reply = {| status := 500; body := ErrorBody "Failed to fetch date range" |}).
Proof.
  intros _.
  exists (loaded JSON_parse w), (date_range_reply Date_parse region (loaded JSON_parse w)).
  split; [now rewrite getSalesData_run|].
  split; [now rewrite getDateRange_run|].
  intros stateRecords dates. unfold date_range_reply.
  fold stateRecords. unfold Date.getTime. rewrite length_map.
  change (map (fun r : record => Date_parse (Order_Date r)) stateRecords) with dates.
  destruct (List.length stateRecords =? 0)%nat eqn:E.
  - apply length_zero in E. simpl.
    split; [split; congruence|]. split; [reflexivity|].
    split; [congruence|].
    split; [rewrite E; simpl; intros Hlt; inversion Hlt|].
    intros Hin. unfold dates in Hin. rewrite E in Hin. contradiction.
  - assert (Hne : stateRecords <> []).
    { intros Hnil. rewrite Hnil in E. discriminate. }
    destruct (Nat.ltb_spec JS.max_arguments (List.length stateRecords)) as [Hover|Hfit].
    + split; [split; [discriminate | contradiction]|].
      split; [contradiction|].
      split; [intros _ Hle; exfalso; apply (Nat.lt_irrefl JS.max_arguments);
              eapply Nat.lt_le_trans; [exact Hover | exact Hle]|].
      split; reflexivity.
    + split; [|split; [contradiction|split; [|split]]].
      * split; [|contradiction].
        destruct (Date.of_time (Date.Math_min dates)), (Date.of_time (Date.Math_max dates));
          simpl; intros Hstatus; discriminate Hstatus.
      * intros _ _ Hvalid.
        destruct (valid_times Hvalid) as [ts [Hts Hrange]].
        assert (Hts_ne : ts <> []).
        { intros Hnil. subst ts. apply Hne. unfold dates in Hts.
          now apply map_eq_nil in Hts. }
        destruct (Math_min_some Hts_ne) as [lo [Hmin [Hlo Hle]]].
        destruct (Math_max_some Hts_ne) as [hi [Hmax [Hhi Hge]]].
        exists lo, hi. rewrite Hts, Hmin, Hmax.
        rewrite (@of_time_in_range ts lo Hrange Hlo), (@of_time_in_range ts hi Hrange Hhi).
        rewrite !iso_date_part.
        split; [now apply in_map|]. split; [now apply in_map|].
        split.
        -- intros time Hin. apply in_map_iff in Hin. destruct Hin as [x [Hx Hin]].
           injection Hx as ->. split; [now apply Hle | now apply Hge].
        -- split; [reflexivity|]. split; apply date_string_shape.
      * intros Hover. exfalso. apply (Nat.lt_irrefl JS.max_arguments).
        eapply Nat.lt_le_trans; [exact Hover | exact Hfit].
      * intros Hnan. rewrite (Math_min_nan dates Hnan). reflexivity.
Qed.

End DateRange.

(** The data file of the examples holds records. *)
Lemma disk_holds_records {num : Type} (data : list (SalesRecord num)) :
  holds_records (Sample.read_as data) Sample.disk.
Proof. intros raw Hraw. injection Hraw as <-. now exists data. Qed.

(** The amended C5 on three small sales: New York has two of them, dated
    the fourth and the fifth of January 2014; on an engine whose calls
    pass one argument only, two dates are too many. *)
Lemma date_bounds_of_new_york :
  (fst (getDateRange (engine := Sample.engine)
          (Sample.read_as Sample.cents) Date.parse_date_only "New York" Sample.disk)
   = JS.Normal {| status := 200; body := DateRangeBody "2014-01-04" "2014-01-05" |} /\
   Date.is_calendar_date "2014-01-04" = true /\
   Date.is_calendar_date "2014-01-05" = true) /\
  fst (getDateRange (engine := Sample.narrow_engine)
         (Sample.read_as Sample.cents) Date.parse_date_only "New York" Sample.disk)
  = JS.Normal {| status := 500; body := ErrorBody "Failed to fetch date range" |}.
Proof.
  split.
  - destruct (@date_bounds float Sample.engine
                (Sample.read_as Sample.cents) Date.parse_date_only
                "New York"%string Sample.disk (disk_holds_records Sample.cents))
      as (salesData & reply & Hload & Hreply & _ & _ & Hdates & _).
    injection Hload as <-.
    destruct Hdates as (lo & hi & Hlo & Hhi & Hbounds & -> & _).
    + discriminate.
    + apply Nat.leb_le. vm_compute. reflexivity.
    + repeat constructor.
    + assert (H4 := Hbounds 1388793600000%Z (or_introl eq_refl)).
      assert (H5 := Hbounds 1388880000000%Z (or_intror (or_introl eq_refl))).
      assert (Elo : lo = 1388793600000%Z).
      { destruct Hlo as [Hlo|[Hlo|[]]]; injection Hlo as <-; [reflexivity | lia]. }
      assert (Ehi : hi = 1388880000000%Z).
      { destruct Hhi as [Hhi|[Hhi|[]]]; injection Hhi as <-; [lia | reflexivity]. }
      subst lo hi.
      split; [exact Hreply | split; reflexivity].
  - destruct (@date_bounds float Sample.narrow_engine
                (Sample.read_as Sample.cents) Date.parse_date_only
                "New York"%string Sample.disk (disk_holds_records Sample.cents))
      as (salesData & reply & Hload & Hreply & _ & _ & _ & Hover & _).
    injection Hload as <-.
    rewrite Hreply. f_equal. apply Hover. vm_compute. reflexivity.
Defined.

(** C5 as stated fails on a record whose order date is not a date: New
    York has a record, and the answer is 500, not a date range.  It also
    fails on a record dated in the year 10000: the answer is a date range,
    written with a sign and a six-digit year.  This is so on every engine
    (whose calls pass an argument at all). *)
Lemma date_bounds_of_an_undated_record :
  on_every_engine (fun engine =>
    (filter (fun r => String.eqb (State r) "New York") Sample.undated <> [] /\
     fst (getDateRange (Sample.read_as Sample.undated) Date.parse_date_only
            "New York" Sample.disk)
     = JS.Normal {| status := 500; body := ErrorBody "Failed to fetch date range" |}) /\
    ((1 <= JS.max_arguments)%nat ->
     fst (getDateRange (Sample.read_as Sample.far_future) Date.parse_date_only
            "New York" Sample.disk)
     = JS.Normal {| status := 200;
                    body := DateRangeBody "+010000-01-01" "+010000-01-01" |} /\
     Date.is_calendar_date "+010000-01-01" = false)).
Proof.
  intros engine. split; [split; [discriminate|]|].
  - rewrite getDateRange_run. cbn [fst]. unfold date_range_reply.
    change (loaded (Sample.read_as Sample.undated) Sample.disk) with Sample.undated.
    cbn -[Nat.ltb JS.max_arguments].
    now destruct (JS.max_arguments <? 1)%nat.
  - intros Hmax. split; [|vm_compute; reflexivity].
    rewrite getDateRange_run. cbn [fst]. unfold date_range_reply.
    change (loaded (Sample.read_as Sample.far_future) Sample.disk) with Sample.far_future.
    set (stateRecords := filter _ Sample.far_future).
    change stateRecords with Sample.far_future.
    change (List.length (map _ Sample.far_future)) with 1%nat.
    destruct (Nat.ltb_spec JS.max_arguments 1) as [Hlt|_]; [lia|].
    vm_compute. reflexivity.
Qed.
(* ================================================================== *)
(** * Part 17: further properties of the handlers *)
(* ================================================================== *)

Lemma distinct_app (seen l1 l2 : list string) :
  distinct seen (l1 ++ l2) = distinct seen l1 ++ distinct (l1 ++ seen) l2.
Proof.
  revert seen. induction l1 as [|v l1 IH]; intros seen; [reflexivity|].
  simpl. destruct (existsb (String.eqb v) seen) eqn:E.
  - rewrite IH. f_equal. apply distinct_ext. intros x.
    apply existsb_eqb_In in E. simpl. rewrite !in_app_iff.
    split; [tauto|]. intros [<-|Hx]; tauto.
  - simpl. rewrite IH. do 2 f_equal. apply distinct_ext. intros x.
    simpl. rewrite !in_app_iff. simpl. tauto.
Qed.

Lemma filter_and {A : Type} (p q : A -> bool) (l : list A) :
  filter p (filter q l) = filter (fun x => p x && q x) l.
Proof.
  induction l as [|x l IH]; simpl; [reflexivity|].
  destruct (q x); simpl.
  - rewrite andb_true_r. destruct (p x); now rewrite IH.
  - now rewrite andb_false_r.
Qed.

Lemma filter_nil_iff {A : Type} (p : A -> bool) (l : list A) :
  filter p l = [] <-> forall x, In x l -> p x = false.
Proof.
  split.
  - induction l as [|y l IH]; simpl; [tauto|].
    destruct (p y) eqn:E; [discriminate|].
    intros Hn x [<-|Hx]; auto.
  - apply filter_none.
Qed.

Section MoreHandlerFacts.

Context {num : Type} `{Number num} {engine : JS.Engine}.

Variable JSON_parse : string -> option (list (SalesRecord num)).
Variable Date_parse : string -> Date.t.

Local Abbreviation record := (SalesRecord num).

Lemma getStates_run (w : World num) :
  getStates JSON_parse w =
  (JS.Normal {| status := 200;
                body := StatesBody
                          (distinct [] (map (fun r : record => State r)
                                            (loaded JSON_parse w))) |},
   log_to w (loader_lines JSON_parse w)).
Proof. unfold getStates, try_catch, bind. now rewrite getSalesData_run. Qed.

Lemma filteredData_passes (q : Query) (data : list record) :
  filteredData Date_parse q data = filter (passes Date_parse q) data.
Proof.
  unfold filteredData, passes, filterByState, filterByDate.
  destruct (state_filter_applies (state q)),
    (date_filter_applies (startDate q) (endDate q)).
  - rewrite filter_and. apply filter_ext. intros r. apply andb_comm.
  - apply filter_ext. intros r. now rewrite andb_true_r.
  - reflexivity.
  - induction data as [|r data IH]; simpl; [reflexivity | now f_equal].
Qed.

Lemma state_records_nil (s : string) (data : list record) :
  filter (fun r : record => String.eqb (State r) s) data = [] <->
  ~ In s (map (fun r : record => State r) data).
Proof.
  rewrite filter_nil_iff, in_map_iff. split.
  - intros Hall [r [Hs Hr]]. specialize (Hall r Hr). subst s.
    now rewrite String.eqb_refl in Hall.
  - intros Hn r Hr. apply String.eqb_neq. intros Hs. apply Hn. now exists r.
Qed.

(** X1.  When the data file is missing, or holds an array of sales
    records, [getStates] answers 200: its own [catch] is not reached,
    because the loader raises nothing.  The body lists every State of the
    loaded records once, in the order of first occurrence: the states
    listed before that of a record [r] that is the first of its state are
    those of the records before [r].  When the file cannot be read, the
    list is empty. *)
Theorem states_listed_once (w : World num) :
  holds_records JSON_parse w ->
  exists states,
    fst (getStates JSON_parse w)
    = JS.Normal {| status := 200; body := StatesBody states |} /\
    NoDup states /\
    (forall s, In s states <->
               exists r, In r (loaded JSON_parse w) /\ State r = s) /\
    (forall earlier r later,
        loaded JSON_parse w = earlier ++ r :: later ->
        (forall r', In r' earlier -> State r' <> State r) ->
        exists before after,
          states = before ++ State r :: after /\
          forall s, In s before <-> exists r', In r' earlier /\ State r' = s) /\
    (sales_json w = None -> states = []).
Proof using Type.
  intros _.
  exists (distinct [] (map (fun r : record => State r) (loaded JSON_parse w))).
  split; [now rewrite getStates_run|].
  split; [apply distinct_NoDup|].
  split; [|split].
  - intros s. rewrite distinct_In, in_map_iff. simpl. split.
    + intros [[r [Hs Hr]] _]. now exists r.
    + intros [r [Hr Hs]]. split; [now exists r | intros Hf; exact Hf].
  - intros earlier r later Hsplit Hfirst. rewrite Hsplit.
    rewrite map_app, distinct_app. simpl.
    set (seen := (map (fun r0 : record => State r0) earlier ++ [])%list).
    assert (Hnew : existsb (String.eqb (State r)) seen = false).
    { apply existsb_eqb_notIn. unfold seen. rewrite app_nil_r, in_map_iff.
      intros [r' [Hs Hr']]. now apply (Hfirst r' Hr'). }
    rewrite Hnew.
    eexists. eexists. split; [reflexivity|].
    intros s. rewrite distinct_In, in_map_iff. simpl. split.
    + intros [[r' [Hs Hr']] _]. now exists r'.
    + intros [r' [Hr' Hs]]. split; [now exists r' | intros Hf; exact Hf].
  - intros Hnone. unfold loaded. now rewrite Hnone.
Qed.

(** X2.  When the data file is missing, or holds an array of sales
    records, the two endpoints agree on what a state is: [getDateRange]
    answers 404 for exactly the states that [getStates] does not list,
    also when it is asked after [getStates] has answered. *)
Theorem listed_states_have_date_ranges (s : string) (w : World num) :
  holds_records JSON_parse w ->
  exists states reply,
    fst (getStates JSON_parse w)
    = JS.Normal {| status := 200; body := StatesBody states |} /\
    fst (getDateRange JSON_parse Date_parse s (snd (getStates JSON_parse w)))
    = JS.Normal reply /\
    fst (getDateRange JSON_parse Date_parse s w) = JS.Normal reply /\
    (In s states <-> status reply <> 404%nat).
Proof.
  intros _.
  eexists. exists (date_range_reply Date_parse s (loaded JSON_parse w)).
  split; [now rewrite getStates_run|].
  split; [now rewrite getStates_run, getDateRange_run|].
  split; [now rewrite getDateRange_run|].
  rewrite distinct_In. unfold date_range_reply.
  set (stateRecords := filter (fun r : record => String.eqb (State r) s)
                              (loaded JSON_parse w)).
  assert (Hnil := state_records_nil s (loaded JSON_parse w)). fold stateRecords in Hnil.
  destruct (List.length stateRecords =? 0)%nat eqn:E.
  - apply Nat.eqb_eq, length_zero_iff_nil in E. simpl. split; [|congruence].
    intros [Hin _]. exfalso. now apply Hnil.
  - assert (Hne : stateRecords <> []).
    { intros Hn. rewrite Hn in E. discriminate. }
    assert (Hin : In s (map (fun r : record => State r) (loaded JSON_parse w))).
    { destruct (in_dec string_dec s
                  (map (fun r : record => State r) (loaded JSON_parse w)))
        as [Hin|Hout]; [exact Hin|].
      exfalso. apply Hne. now apply Hnil. }
    split; [|intros _; split; [exact Hin | simpl; tauto]].
    intros _.
    destruct (JS.max_arguments <? _)%nat; [simpl; discriminate|].
    repeat match goal with
           | |- context [match Date.of_time ?x with _ => _ end] =>
               destruct (Date.of_time x)
           end; simpl; discriminate.
Qed.

End MoreHandlerFacts.

(** X1 on three small sales, the first in Texas and two in New York. *)
Lemma states_of_three_sales :
  exists states,
    fst (getStates (Sample.read_as Sample.cents) Sample.disk)
    = JS.Normal {| status := 200; body := StatesBody states |} /\
    states = ["Texas"; "New York"]%string.
Proof.
  destruct (@states_listed_once float (Sample.read_as Sample.cents) Sample.disk
              (disk_holds_records Sample.cents))
    as (states & Hreply & _).
  exists states. split; [exact Hreply|].
  rewrite getStates_run in Hreply. now injection Hreply as <-.
Defined.

(** X2 on the example of section 8: Texas is listed and has a date range,
    Ohio is not listed and has none. *)
Lemma ohio_has_no_date_range :
  exists states texas ohio,
    fst (getStates (Sample.read_as Sample.two_records) Sample.disk)
    = JS.Normal {| status := 200; body := StatesBody states |} /\
    fst (getDateRange (engine := Sample.engine) (Sample.read_as Sample.two_records)
           Date.parse_date_only "Texas" Sample.disk) = JS.Normal texas /\
    fst (getDateRange (engine := Sample.engine) (Sample.read_as Sample.two_records)
           Date.parse_date_only "Ohio" Sample.disk) = JS.Normal ohio /\
    In "Texas"%string states /\ status texas = 200%nat /\
    ~ In "Ohio"%string states /\ status ohio = 404%nat.
Proof.
  destruct (@listed_states_have_date_ranges float Sample.engine
              (Sample.read_as Sample.two_records) Date.parse_date_only
              "Texas"%string Sample.disk (disk_holds_records Sample.two_records))
    as (states & texas & Hstates & _ & Htexas & _).
  destruct (@listed_states_have_date_ranges float Sample.engine
              (Sample.read_as Sample.two_records) Date.parse_date_only
              "Ohio"%string Sample.disk (disk_holds_records Sample.two_records))
    as (states' & ohio & Hstates' & _ & Hohio & Hlisted).
  exists states, texas, ohio.
  split; [exact Hstates|]. split; [exact Htexas|]. split; [exact Hohio|].
  rewrite Hstates in Hstates'. injection Hstates' as <-.
  rewrite getStates_run in Hstates. injection Hstates as <-.
  rewrite getDateRange_run in Htexas, Hohio.
  injection Htexas as <-. injection Hohio as <-.
  split; [right; now left|]. split; [reflexivity|].
  split; [|reflexivity].
  intros Hin. apply (proj1 Hlisted Hin). reflexivity.
Defined.

Section MoreFilterFacts.

Context {num : Type} `{Number num} {engine : JS.Engine}.

Variable Date_parse : string -> Date.t.

Local Abbreviation record := (SalesRecord num).

(** X3.  The filters decide record by record, and keep the records in
    the order of the file: the filtered set of two record sets put end to
    end is the two filtered sets put end to end.  So a record is kept or
    not whatever the other records are, nothing is kept that was not
    loaded, and filtering the filtered set again changes nothing. *)
Theorem filters_decide_record_by_record (q : Query) (a b : list record) :
  filteredData Date_parse q (a ++ b)
  = filteredData Date_parse q a ++ filteredData Date_parse q b /\
  (forall r, In r (filteredData Date_parse q a) -> In r a) /\
  (List.length (filteredData Date_parse q a) <= List.length a)%nat /\
  filteredData Date_parse q (filteredData Date_parse q a) = filteredData Date_parse q a.
Proof.
  rewrite !filteredData_passes. split; [apply filter_app|].
  split; [intros r Hr; now apply filter_In in Hr|].
  split; [apply filter_length_le|].
  rewrite filter_and. apply filter_ext. intros r. now destruct (passes Date_parse q r).
Qed.

(** X4.  A narrower date range can be applied to the result of a wider
    one: when both ranges have bounds that are dates and the first lies
    within the second, filtering by the first gives the same records
    from the loaded set as from the set already filtered by the second.
    In particular every record the narrow range keeps, the wide range
    keeps. *)
Theorem narrowing_a_date_range
  (region : JS.param) (from to from' to' : string) (lo hi lo' hi' : Z)
  (data : list record) :
  from <> EmptyString -> to <> EmptyString ->
  from' <> EmptyString -> to' <> EmptyString ->
  Date_parse from = Some lo -> Date_parse to = Some hi ->
  Date_parse from' = Some lo' -> Date_parse to' = Some hi' ->
  (lo' <= lo)%Z -> (hi <= hi')%Z ->
  let narrow := {| state := region; startDate := Some from; endDate := Some to |} in
  let wide := {| state := region; startDate := Some from'; endDate := Some to' |} in
  filteredData Date_parse narrow (filteredData Date_parse wide data)
  = filteredData Date_parse narrow data /\
  (forall r, In r (filteredData Date_parse narrow data) ->
             In r (filteredData Date_parse wide data)).
Proof.
  intros Hfrom Hto Hfrom' Hto' Hlo Hhi Hlo' Hhi' Hle Hge narrow wide.
  assert (Himp : forall r : record, passes Date_parse narrow r = true ->
                           passes Date_parse wide r = true).
  { intros r. unfold passes, narrow, wide, date_filter_applies. simpl.
    apply String.eqb_neq in Hfrom, Hto, Hfrom', Hto'.
    rewrite Hfrom, Hto, Hfrom', Hto'. simpl.
    rewrite !andb_true_iff. intros [Hs Hd]. split; [exact Hs|].
    revert Hd. unfold in_date_range, Date.geb, Date.leb. simpl.
    rewrite Hlo, Hhi, Hlo', Hhi'.
    destruct (Date_parse (Order_Date r)) as [time|]; [|discriminate].
    rewrite !andb_true_iff, !Z.leb_le. lia. }
  rewrite !filteredData_passes. split.
  - rewrite filter_and. apply filter_ext. intros r.
    destruct (passes Date_parse narrow r) eqn:E; [|reflexivity].
    now rewrite (Himp r E).
  - intros r. rewrite !filter_In. intros [Hin Hp]. split; [exact Hin | now apply Himp].
Qed.

End MoreFilterFacts.

(** X4 on the example of section 8: January within the year 2014. *)
Lemma narrowing_to_january :
  filteredData Date.parse_date_only
    {| state := None; startDate := Some "2014-01-01"%string;
       endDate := Some "2014-01-31"%string |}
    (filteredData Date.parse_date_only
       {| state := None; startDate := Some "2014-01-01"%string;
          endDate := Some "2014-12-31"%string |} Sample.two_records)
  = filteredData Date.parse_date_only
      {| state := None; startDate := Some "2014-01-01"%string;
         endDate := Some "2014-01-31"%string |} Sample.two_records.
Proof.
  refine (proj1 (@narrowing_a_date_range float Date.parse_date_only None
                   "2014-01-01"%string "2014-01-31"%string "2014-01-01"%string
                   "2014-12-31"%string
                   1388534400000%Z 1391126400000%Z 1388534400000%Z 1419984000000%Z
                   Sample.two_records _ _ _ _ _ _ _ _ _ _));
    first [discriminate | reflexivity | lia].
Defined.

Section UnreadableBounds.

Context {engine : JS.Engine}.

Variable JSON_parse : string -> option (list (SalesRecord float)).
Variable Date_parse : string -> Date.t.

(** X5.  A date bound that is given but is not a date raises no error
    and is not ignored: every comparison with it is false, so no record
    is kept, and [getDashboardData] answers 200 with the summary of no
    records, provided the loader yields records. *)
Theorem unreadable_bound_empties_summary
  (region : JS.param) (from to : string) (w : World float) :
  loaded JSON_parse w <> [] ->
  from <> EmptyString -> to <> EmptyString ->
  Date_parse from = None \/ Date_parse to = None ->
  fst (getDashboardData JSON_parse Date_parse
         {| state := region; startDate := Some from; endDate := Some to |} w)
  = JS.Normal {| status := 200; body := DashboardBody empty_summary |}.
Proof.
  intros Hdata Hfrom Hto Hbad.
  destruct (getDashboardData_run JSON_parse Date_parse
              {| state := region; startDate := Some from; endDate := Some to |} w)
    as [lines ->].
  simpl. unfold dashboard_reply.
  destruct (List.length (loaded JSON_parse w) =? 0)%nat eqn:E.
  { apply Nat.eqb_eq, length_zero_iff_nil in E. contradiction. }
  do 3 f_equal.
  rewrite filteredData_passes.
  rewrite (@filter_none _ _ (loaded JSON_parse w)); [reflexivity|].
  intros r _. unfold passes, date_filter_applies. simpl.
  apply String.eqb_neq in Hfrom, Hto. rewrite Hfrom, Hto. simpl.
  unfold in_date_range, Date.geb, Date.leb. simpl.
  destruct Hbad as [-> | ->];
    destruct (Date_parse (Order_Date r)); simpl;
    rewrite ?andb_false_r; try reflexivity;
    destruct (Date_parse from); simpl; now rewrite ?andb_false_r.
Qed.

End UnreadableBounds.

(** X5 on the example of section 8, asked for the sales since
    "yesterday". *)
Lemma summary_since_yesterday :
  fst (getDashboardData (engine := Sample.engine)
         (Sample.read_as Sample.two_records) Date.parse_date_only
         {| state := None; startDate := Some "yesterday"%string;
            endDate := Some "2014-12-31"%string |} Sample.disk)
  = JS.Normal {| status := 200; body := DashboardBody empty_summary |}.
Proof.
  apply (@unreadable_bound_empties_summary Sample.engine
           (Sample.read_as Sample.two_records) Date.parse_date_only
           None "yesterday"%string "2014-12-31"%string Sample.disk);
    first [discriminate | now left].
Defined.

Lemma get_prop_tabulate {V : Type} (f : string -> V) (ks : list string) (k : string) :
  JS.get_prop (map (fun k => (k, f k)) ks) k
  = if existsb (String.eqb k) ks then Some (f k) else None.
Proof.
  induction ks as [|k0 ks IH]; simpl; [reflexivity|].
  rewrite (string_eqb_sym k k0).
  destruct (String.eqb_spec k0 k) as [->|_]; [reflexivity | exact IH].
Qed.

Section MoreGroupings.

Context {num : Type} `{Number num}.

Local Open Scope js_scope.

(** What [o[k]] reads on a grouping. *)
Lemma salesBy_lookup (key : SalesRecord num -> string)
  (data : list (SalesRecord num)) (k : string) :
  (In k (map key data) -> k <> "__proto__"%string ->
   JS.get (salesBy key data) k = JS.Own (settled k (sales_of key k data))) /\
  (In k (map key data) -> JS.inherited k = false ->
   JS.get (salesBy key data) k = JS.Own (Num (running_total (sales_of key k data)))) /\
  (~ In k (map key data) \/ k = "__proto__"%string ->
   JS.get (salesBy key data) k
   = if JS.inherited k then JS.Inherited k else JS.Undefined).
Proof.
  assert (Hown : In k (map key data) -> k <> "__proto__"%string ->
                 JS.get (salesBy key data) k
                 = JS.Own (settled k (sales_of key k data))).
  { intros Hin Hk. unfold JS.get. rewrite salesBy_grouping. unfold grouping.
    rewrite (get_prop_tabulate (fun k => settled k (sales_of key k data))).
    assert (E : existsb (String.eqb k) (created_keys (map key data)) = true).
    { apply existsb_eqb_In, created_keys_In. now split. }
    now rewrite E. }
  split; [exact Hown|]. split.
  - intros Hin Hk. rewrite (Hown Hin (plain_key_not_proto Hk)).
    unfold settled. now rewrite Hk.
  - intros Hout. unfold JS.get. rewrite salesBy_grouping. unfold grouping.
    rewrite (get_prop_tabulate (fun k => settled k (sales_of key k data))).
    assert (E : existsb (String.eqb k) (created_keys (map key data)) = false).
    { apply existsb_eqb_notIn. rewrite created_keys_In. tauto. }
    now rewrite E.
Qed.

Lemma salesBy_keys (key : SalesRecord num -> string) (data : list (SalesRecord num)) :
  NoDup (JS.own_keys (salesBy key data)) /\
  (forall k, In k (JS.own_keys (salesBy key data))
             <-> In k (map key data) /\ k <> "__proto__"%string) /\
  (List.length (JS.own_keys (salesBy key data)) <= List.length data)%nat.
Proof.
  rewrite salesBy_grouping, grouping_keys.
  split; [apply created_keys_NoDup|].
  split; [apply created_keys_In|].
  unfold created_keys, first_occurrences.
  etransitivity; [apply filter_length_le|].
  rewrite <- (length_map key data).
  generalize (map key data) (@nil string). intros l.
  induction l as [|v l IH]; intros seen; simpl; [lia|].
  destruct (existsb (String.eqb v) seen); simpl;
    [specialize (IH seen) | specialize (IH (v :: seen))]; lia.
Qed.

End MoreGroupings.

(** X6.  The mappings [salesByCategory] and [salesBySegment] hold one
    own key for each category, or segment, of the records other than
    [__proto__], and no other.  Looking up a category that some record
    has gives what the loop has settled under it: the running total of
    the sales of its records, taken in record order, unless the category
    is named like a member of [Object.prototype], and then a string.
    Looking up a category that no record has, or [__proto__], gives the
    member of [Object.prototype] of that name if there is one, and
    [undefined] if not.  In the program's arithmetic, when no record has
    a negative sale, the running total is the plain sum and is not
    negative. *)
Theorem category_and_segment_lookup :
  (forall (num : Type) (N : Number num) (data : list (SalesRecord num)),
      (NoDup (JS.own_keys (sales_by_category data)) /\
       (forall c, In c (JS.own_keys (sales_by_category data))
                  <-> In c (map (fun r => Category r) data) /\ c <> "__proto__"%string) /\
       (forall c, In c (map (fun r => Category r) data) -> c <> "__proto__"%string ->
          JS.get (sales_by_category data) c
          = JS.Own (settled c (sales_of (fun r => Category r) c data))) /\
       (forall c, In c (map (fun r => Category r) data) -> JS.inherited c = false ->
          JS.get (sales_by_category data) c
          = JS.Own (Num (running_total (sales_of (fun r => Category r) c data)))) /\
       (forall c, ~ In c (map (fun r => Category r) data) \/ c = "__proto__"%string ->
          JS.get (sales_by_category data) c
          = if JS.inherited c then JS.Inherited c else JS.Undefined) /\
       (List.length (JS.own_keys (sales_by_category data)) <= List.length data)%nat) /\
      (NoDup (JS.own_keys (sales_by_segment data)) /\
       (forall s, In s (JS.own_keys (sales_by_segment data))
                  <-> In s (map (fun r => Segment r) data) /\ s <> "__proto__"%string) /\
       (forall s, In s (map (fun r => Segment r) data) -> s <> "__proto__"%string ->
          JS.get (sales_by_segment data) s
          = JS.Own (settled s (sales_of (fun r => Segment r) s data))) /\
       (forall s, In s (map (fun r => Segment r) data) -> JS.inherited s = false ->
          JS.get (sales_by_segment data) s
          = JS.Own (Num (running_total (sales_of (fun r => Segment r) s data)))) /\
       (forall s, ~ In s (map (fun r => Segment r) data) \/ s = "__proto__"%string ->
          JS.get (sales_by_segment data) s
          = if JS.inherited s then JS.Inherited s else JS.Undefined) /\
       (List.length (JS.own_keys (sales_by_segment data)) <= List.length data)%nat)) /\
  (forall (data : list (SalesRecord float)) (key : SalesRecord float -> string)
          (k : string),
      no_negative_sales data ->
      running_total (sales_of key k data) = sum (sales_of key k data) /\
      (0 <=? running_total (sales_of key k data))%float = true).
Proof.
  split.
  - intros num N data. split.
    + destruct (salesBy_keys (fun r => Category r) data) as (Hnd & Hkeys & Hlen).
      split; [exact Hnd|]. split; [exact Hkeys|].
      split; [intros c; apply (salesBy_lookup (fun r => Category r) data c)|].
      split; [intros c; apply (salesBy_lookup (fun r => Category r) data c)|].
      split; [intros c; apply (salesBy_lookup (fun r => Category r) data c)|].
      exact Hlen.
    + destruct (salesBy_keys (fun r => Segment r) data) as (Hnd & Hkeys & Hlen).
      split; [exact Hnd|]. split; [exact Hkeys|].
      split; [intros c; apply (salesBy_lookup (fun r => Segment r) data c)|].
      split; [intros c; apply (salesBy_lookup (fun r => Segment r) data c)|].
      split; [intros c; apply (salesBy_lookup (fun r => Segment r) data c)|].
      exact Hlen.
  - intros data key k Hs.
    assert (Hpos : Forall (fun x => (0 <=? x)%float = true) (sales_of key k data)).
    { unfold sales_of. apply Forall_forall. intros x Hx.
      apply in_map_iff in Hx. destruct Hx as [r [<- Hr]].
      apply filter_In in Hr. destruct Hr as [Hr _].
      unfold no_negative_sales in Hs. rewrite Forall_forall in Hs. now apply Hs. }
    split.
    + apply running_total_plain. now apply partial_sums_plain.
    + now apply running_total_nonneg.
Qed.

(** X6 on three sales with the categories toString, Office Supplies and
    toString again: the first holds a string, the second the number 50;
    valueOf, which no record has, reads the member of [Object.prototype],
    and Furniture reads [undefined].  No sale is negative, and the
    running total of the sales by city of the namesake of constructor is
    their sum. *)
Lemma categories_of_the_namesakes :
  JS.get (sales_by_category Sample.namesakes) "toString"
  = JS.Own (Text "toString" [100; 25]%float) /\
  JS.get (sales_by_category Sample.namesakes) "Office Supplies"
  = JS.Own (Num 50%float) /\
  JS.get (sales_by_category Sample.namesakes) "valueOf" = JS.Inherited "valueOf" /\
  JS.get (sales_by_category Sample.namesakes) "Furniture" = JS.Undefined /\
  JS.own_keys (sales_by_category Sample.namesakes)
  = ["toString"; "Office Supplies"]%string /\
  running_total (sales_of (fun r => City r) "constructor" Sample.namesakes)
  = sum (sales_of (fun r => City r) "constructor" Sample.namesakes).
Proof.
  destruct (proj1 category_and_segment_lookup float _ Sample.namesakes)
    as [(_ & _ & Hown & Hnumber & Habsent & _) _].
  split; [apply (Hown "toString"%string); [right; right; now left | discriminate]|].
  split; [apply (Hnumber "Office Supplies"%string); [right; now left | reflexivity]|].
  split; [apply (Habsent "valueOf"%string); left;
          intros [E|[E|[E|[]]]]; discriminate E|].
  split; [apply (Habsent "Furniture"%string); left;
          intros [E|[E|[E|[]]]]; discriminate E|].
  split; [reflexivity|].
  apply (proj2 category_and_segment_lookup Sample.namesakes
           (fun r => City r) "constructor"%string).
  repeat constructor.
Defined.

Section Frame.

Context {num : Type} `{Number num} {engine : JS.Engine}.

Variable JSON_parse : string -> option (list (SalesRecord num)).
Variable Date_parse : string -> Date.t.

(** X7.  When the data file is missing, or holds an array of sales
    records, no handler lets an exception escape, and no handler touches
    anything but the console: each one answers, leaves the data file as
    it is and adds lines to the console without changing the earlier
    ones.  [getStates] answers 200; [getDateRange] answers 200 with a
    date range, 404 or 500; [getDashboardData] answers 200 with a
    summary, or 500.  So what a handler answers does not depend on what
    was logged before: the requests served earlier do not change an
    answer. *)
Theorem handlers_only_log (w : World num) :
  holds_records JSON_parse w ->
  (exists reply lines,
      getStates JSON_parse w = (JS.Normal reply, log_to w lines) /\
      status reply = 200%nat) /\
  (forall s, exists reply lines,
      getDateRange JSON_parse Date_parse s w = (JS.Normal reply, log_to w lines) /\
      ((status reply = 200%nat /\ exists a b, body reply = DateRangeBody a b) \/
       (status reply = 404%nat /\ exists e, body reply = ErrorBody e) \/
       (status reply = 500%nat /\ exists e, body reply = ErrorBody e))) /\
  (forall q, exists reply lines,
      getDashboardData JSON_parse Date_parse q w = (JS.Normal reply, log_to w lines) /\
      ((status reply = 200%nat /\ exists d, body reply = DashboardBody d) \/
       (status reply = 500%nat /\ exists e, body reply = ErrorBody e))) /\
  (forall earlier,
      holds_records JSON_parse (log_to w earlier) /\
      fst (getStates JSON_parse (log_to w earlier)) = fst (getStates JSON_parse w) /\
      (forall s, fst (getDateRange JSON_parse Date_parse s (log_to w earlier))
                 = fst (getDateRange JSON_parse Date_parse s w)) /\
      (forall q, fst (getDashboardData JSON_parse Date_parse q (log_to w earlier))
                 = fst (getDashboardData JSON_parse Date_parse q w))).
Proof.
  intros Hfile.
  split; [|split; [|split]].
  - rewrite getStates_run. eauto.
  - intros s. rewrite getDateRange_run. eexists. eexists. split; [reflexivity|].
    unfold date_range_reply.
    destruct (List.length _ =? 0)%nat; simpl; [eauto 6|].
    destruct (JS.max_arguments <? _)%nat; simpl; [eauto 6|].
    repeat match goal with
           | |- context [match Date.of_time ?x with _ => _ end] =>
               destruct (Date.of_time x)
           end; simpl; eauto 6.
  - intros q. destruct (getDashboardData_run JSON_parse Date_parse q w) as [lines ->].
    eexists. eexists. split; [reflexivity|].
    unfold dashboard_reply.
    destruct (List.length _ =? 0)%nat; simpl; eauto 6.
  - intros earlier. split; [exact Hfile|]. split; [|split].
    + now rewrite !getStates_run.
    + intros s. now rewrite !getDateRange_run.
    + intros q.
      destruct (getDashboardData_run JSON_parse Date_parse q w) as [lines ->].
      destruct (getDashboardData_run JSON_parse Date_parse q (log_to w earlier))
        as [lines' ->].
      reflexivity.
Qed.

End Frame.

(** X7 on the example of section 8: after the line the server logs when
    it starts, the states are listed as before. *)
Lemma states_after_the_server_started :
  fst (getStates (Sample.read_as Sample.two_records)
         (log_to Sample.disk [console_log "Server running on port 3001" []]))
  = fst (getStates (Sample.read_as Sample.two_records) Sample.disk) /\
  fst (getStates (Sample.read_as Sample.two_records) Sample.disk)
  = JS.Normal {| status := 200; body := StatesBody ["New York"; "Texas"]%string |}.
Proof.
  destruct (@handlers_only_log float _ Sample.engine
              (Sample.read_as Sample.two_records) Date.parse_date_only
              Sample.disk (disk_holds_records Sample.two_records))
    as (_ & _ & _ & Hframe).
  split; [|reflexivity].
  apply (Hframe [console_log "Server running on port 3001" []]).
Defined.

(* ================================================================== *)
(** * Part 18: the largest entries of a grouping *)
(* ================================================================== *)

Lemma StronglySorted_app_cross {A : Type} (R : A -> A -> Prop) (l1 l2 : list A) :
  StronglySorted R (l1 ++ l2) ->
  forall a b, In a l1 -> In b l2 -> R a b.
Proof.
  induction l1 as [|x l1 IH]; simpl; intros Hs a b Ha Hb; [contradiction|].
  apply StronglySorted_inv in Hs. destruct Hs as [Hs Hx].
  destruct Ha as [<-|Ha].
  - rewrite Forall_forall in Hx. apply Hx, in_or_app. now right.
  - now apply IH.
Qed.

Lemma NoDup_firstn {A : Type} (n : nat) (l : list A) : NoDup l -> NoDup (firstn n l).
Proof.
  intros Hnd. rewrite <- (firstn_skipn n l) in Hnd.
  now apply NoDup_app_remove_r in Hnd.
Qed.

Lemma combine_fst_snd {A B : Type} (l : list (A * B)) :
  combine (map fst l) (map snd l) = l.
Proof.
  induction l as [|[a b] l IH]; simpl; [reflexivity | now rewrite IH].
Qed.

Section TopEntries.

Context {num : Type} `{Number num} {engine : JS.Engine}.

Variable n : nat.
Variable key : SalesRecord num -> string.
Variable data : list (SalesRecord num).

Lemma sorted_entries_perm :
  Permutation (Array_sort by_sales_descending (JS.Object_entries (salesBy key data)))
              (grouping key data).
Proof. now rewrite Array_sort_perm, Object_entries_perm, salesBy_grouping. Qed.

Lemma sorted_entries_keys :
  Permutation
    (map fst (Array_sort by_sales_descending (JS.Object_entries (salesBy key data))))
    (created_keys (map key data)).
Proof.
  rewrite <- grouping_keys. apply Permutation_map, sorted_entries_perm.
Qed.

Lemma in_grouping (e : string * cell num) :
  In e (grouping key data) <->
  In (fst e) (map key data) /\ fst e <> "__proto__"%string /\
  snd e = settled (fst e) (sales_of key (fst e) data).
Proof.
  unfold grouping. rewrite in_map_iff. split.
  - intros [k [<- Hk]]. apply (proj1 (created_keys_In _ _)) in Hk.
    cbn [fst snd]. tauto.
  - intros (Hk & Hp & Hv). exists (fst e). split.
    + rewrite <- Hv. now destruct e.
    + now apply created_keys_In.
Qed.

(** The first [n] entries name [n] different keys of the records, or all
    of them when there are fewer, each with what the loop has settled
    under it. *)
Lemma top_entries_content :
  NoDup (map fst (top_entries n (salesBy key data))) /\
  List.length (top_entries n (salesBy key data))
  = Nat.min n (List.length (created_keys (map key data))) /\
  (forall e, In e (top_entries n (salesBy key data)) ->
     In (fst e) (map key data) /\ fst e <> "__proto__"%string /\
     snd e = settled (fst e) (sales_of key (fst e) data)).
Proof.
  unfold top_entries. split; [|split].
  - rewrite <- firstn_map. apply NoDup_firstn.
    eapply Permutation_NoDup;
      [apply Permutation_sym, sorted_entries_keys | apply created_keys_NoDup].
  - rewrite length_firstn. f_equal.
    rewrite <- (length_map fst). apply Permutation_length, sorted_entries_keys.
  - intros e He. apply in_grouping.
    eapply Permutation_in; [apply sorted_entries_perm|].
    eapply In_firstn, He.
Qed.

(** A key that is not among the first [n] entries is among the others. *)
Lemma left_out_entry (k : string) :
  In k (map key data) -> k <> "__proto__"%string ->
  ~ In k (map fst (top_entries n (salesBy key data))) ->
  In (k, settled k (sales_of key k data))
     (skipn n (Array_sort by_sales_descending (JS.Object_entries (salesBy key data)))).
Proof.
  intros Hk Hp Hout.
  assert (Hin : In (k, settled k (sales_of key k data))
                   (Array_sort by_sales_descending
                      (JS.Object_entries (salesBy key data)))).
  { eapply Permutation_in; [apply Permutation_sym, sorted_entries_perm|].
    apply in_grouping. cbn [fst snd]. tauto. }
  rewrite <- (firstn_skipn n) in Hin. apply in_app_or in Hin.
  destruct Hin as [Hin|Hin]; [|exact Hin].
  exfalso. apply Hout. apply in_map_iff.
  now exists (k, settled k (sales_of key k data)).
Qed.

(** When there are at most [n] keys, none is left out. *)
Lemma top_entries_all (k : string) :
  (List.length (created_keys (map key data)) <= n)%nat ->
  In k (map key data) -> k <> "__proto__"%string ->
  In k (map fst (top_entries n (salesBy key data))).
Proof.
  intros Hfew Hk Hp. unfold top_entries.
  rewrite firstn_all2.
  - eapply Permutation_in; [apply Permutation_sym, sorted_entries_keys|].
    now apply created_keys_In.
  - rewrite <- (length_map fst).
    now rewrite (Permutation_length sorted_entries_keys).
Qed.

End TopEntries.

Section FloatEntries.

Context {engine : JS.Engine}.

Local Open Scope float_scope.

(** The entries of an object none of whose values is NaN as a number are
    sorted in descending order. *)
Lemma entries_descending (o : JS.object (cell float)) :
  Forall (fun e => PrimFloat.is_nan (to_number (snd e)) = false) o ->
  StronglySorted (fun a b => (to_number (snd a) <? to_number (snd b)) = false)
    (Array_sort by_sales_descending (JS.Object_entries o)).
Proof.
  intros Hnan.
  assert (Hc : consistent by_sales_descending (JS.Object_entries o) = true).
  { apply float_consistent.
    eapply Permutation_Forall; [symmetry; apply Object_entries_perm | exact Hnan]. }
  assert (Hs := Array_sort_sorted _ _ Hc).
  eapply StronglySorted_map with (f := fun e : string * cell float => e) in Hs.
  - rewrite map_id in Hs. exact Hs.
  - intros a b Hab. change (keeps a b = true) in Hab.
    rewrite float_keeps in Hab. now apply negb_true_iff in Hab.
Qed.

Variable n : nat.
Variable key : SalesRecord float -> string.
Variable data : list (SalesRecord float).

Hypothesis plain : plain_keys key data.

Hypothesis no_nan :
  Forall (fun e => PrimFloat.is_nan (snd e) = false) (group_by_sum key data).

Lemma sorted_entries_descending :
  StronglySorted (fun a b => (to_number (snd a) <? to_number (snd b)) = false)
    (Array_sort by_sales_descending (JS.Object_entries (salesBy key data))).
Proof.
  apply entries_descending.
  rewrite (salesBy_group_by_sum plain). now apply as_cells_not_nan.
Qed.

(** No entry that is left out is larger than an entry among the first
    [n]. *)
Lemma top_entries_largest (e : string * cell float) (k : string) :
  In e (top_entries n (salesBy key data)) ->
  In k (map key data) ->
  ~ In k (map fst (top_entries n (salesBy key data))) ->
  (to_number (snd e) <? running_total (sales_of key k data)) = false.
Proof.
  intros He Hk Hout.
  assert (Hs := sorted_entries_descending).
  rewrite <- (firstn_skipn n) in Hs.
  assert (Hplain := plain_keys_In k plain Hk).
  assert (Hleft := @left_out_entry _ _ _ n key data k Hk
                     (plain_key_not_proto Hplain) Hout).
  unfold settled in Hleft. rewrite Hplain in Hleft.
  exact (@StronglySorted_app_cross _ _ _ _ Hs e _ He Hleft).
Qed.

End FloatEntries.

Section LargestProducts.

Context {engine : JS.Engine}.

(** X8.  The top-products list names different products, as many as the
    records have, not counting [__proto__], when they are fewer than ten
    and ten otherwise; each one is a product of the records, with what
    the loop has settled under its name: the running total of its sales,
    unless the product is named like a member of [Object.prototype]; when
    there are at most ten products, the list names them all but
    [__proto__].  In the program's arithmetic, when no product is named
    like a member of [Object.prototype] and no per-product sum is NaN, no
    product that is left out has larger sales than a product on the
    list. *)
Theorem top_products_are_the_largest :
  (forall (num : Type) (N : Number num) (data : list (SalesRecord num)),
      NoDup (map (fun p => Product.name p) (top10Products data)) /\
      List.length (top10Products data)
      = Nat.min 10 (List.length (created_keys (map (fun r => Product_Name r) data))) /\
      (forall p, In p (top10Products data) ->
         In (Product.name p) (map (fun r => Product_Name r) data) /\
         Product.name p <> "__proto__"%string /\
         Product.sales p
         = settled (Product.name p)
                   (sales_of (fun r => Product_Name r) (Product.name p) data)) /\
      (forall p, In p (top10Products data) ->
         JS.inherited (Product.name p) = false ->
         Product.sales p
         = Num (running_total
                  (sales_of (fun r => Product_Name r) (Product.name p) data))) /\
      ((List.length (created_keys (map (fun r => Product_Name r) data)) <= 10)%nat ->
       forall k, In k (map (fun r => Product_Name r) data) ->
                 k <> "__proto__"%string ->
                 In k (map (fun p => Product.name p) (top10Products data)))) /\
  (forall data : list (SalesRecord float),
      plain_keys (fun r => Product_Name r) data ->
      Forall (fun e => PrimFloat.is_nan (snd e) = false)
             (group_by_sum (fun r => Product_Name r) data) ->
      forall (p : Product.t float) (k : string),
        In p (top10Products data) ->
        In k (map (fun r => Product_Name r) data) ->
        ~ In k (map (fun p => Product.name p) (top10Products data)) ->
        (to_number (Product.sales p)
           <? running_total (sales_of (fun r => Product_Name r) k data))%float = false).
Proof.
  split.
  - intros num N data.
    change (top10Products data)
      with (map as_product (top_entries 10 (salesBy (fun r => Product_Name r) data))).
    destruct (top_entries_content 10 (fun r => Product_Name r) data)
      as (Hnd & Hlen & Hin).
    rewrite map_map, length_map. simpl.
    split; [exact Hnd|]. split; [exact Hlen|].
    split; [|split].
    + intros p Hp. apply in_map_iff in Hp. destruct Hp as [e [<- He]].
      exact (Hin e He).
    + intros p Hp Hplain. apply in_map_iff in Hp. destruct Hp as [e [<- He]].
      destruct (Hin e He) as (_ & _ & Hv). simpl in *.
      rewrite Hv. unfold settled. now rewrite Hplain.
    + intros Hfew k Hk Hp.
      exact (@top_entries_all _ _ _ 10 (fun r => Product_Name r) data k Hfew Hk Hp).
  - intros data Hplain Hnan p k.
    change (top10Products data)
      with (map as_product (top_entries 10 (salesBy (fun r => Product_Name r) data))).
    rewrite map_map. simpl. intros Hp Hk Hout.
    apply in_map_iff in Hp. destruct Hp as [e [<- He]].
    exact (@top_entries_largest _ 10 _ _ Hplain Hnan e k He Hk Hout).
Qed.

End LargestProducts.

(** X8 on a catalogue of twelve products: "P07", sold for 1, is left
    out, and "P02", sold for 30, is on the list. *)
Lemma the_catalogue_leaves_out_the_smallest :
  (30 <? running_total (sales_of (fun r => Product_Name r) "P07" Sample.catalogue))%float
  = false.
Proof.
  apply (proj2 (@top_products_are_the_largest Sample.engine) Sample.catalogue)
    with (p := {| Product.name := "P02"; Product.sales := Num 30%float |}).
  - plain_names.
  - apply Forall_forall. intros e He. vm_compute in He.
    repeat (destruct He as [<-|He]; [reflexivity|]). contradiction.
  - vm_compute. tauto.
  - vm_compute. tauto.
  - vm_compute. intros Hin.
    repeat (destruct Hin as [Hin|Hin]; [discriminate Hin|]). contradiction.
Defined.

Section CityChart.

Context {engine : JS.Engine}.

(** X9.  The city chart draws the first eight entries of [salesByCity]
    sorted by [(a, b) => b - a]: its labels and its values have the same
    length, at most 8, and the value at a place is that of the city
    named at that place.  Before the answer has arrived both are empty.
    When none of the values the page holds is NaN as a number, the
    values drawn descend, and no city that is left out has a larger
    value than a city that is drawn. *)
Theorem city_chart_draws_the_largest_cities :
  (forall d : Dashboard float,
      List.length (Page.cityChart_yAxis_data (Some d))
      = List.length (Page.cityChart_series_data (Some d)) /\
      (List.length (Page.cityChart_yAxis_data (Some d)) <= 8)%nat /\
      (forall c v,
          In (c, v) (combine (Page.cityChart_yAxis_data (Some d))
                             (Page.cityChart_series_data (Some d))) ->
          In (c, v) (salesByCity d))) /\
  Page.cityChart_yAxis_data None = [] /\
  Page.cityChart_series_data None = [] /\
  (forall d : Dashboard float,
      Forall (fun e => PrimFloat.is_nan (to_number (snd e)) = false) (salesByCity d) ->
      StronglySorted (fun a b => (to_number a <? to_number b)%float = false)
                     (Page.cityChart_series_data (Some d)) /\
      forall c v drawn,
        In (c, v) (salesByCity d) ->
        ~ In c (Page.cityChart_yAxis_data (Some d)) ->
        In drawn (Page.cityChart_series_data (Some d)) ->
        (to_number drawn <? to_number v)%float = false).
Proof.
  split; [|split; [reflexivity | split; [reflexivity|]]].
  - intros d. unfold Page.cityChart_yAxis_data, Page.cityChart_series_data.
    rewrite !length_map. split; [reflexivity|].
    split; [apply firstn_le_length|].
    intros c v. rewrite combine_fst_snd. intros Hin.
    apply In_firstn in Hin.
    eapply Permutation_in; [apply Object_entries_perm|].
    eapply Permutation_in; [apply (Array_sort_perm Page.by_value_descending) | exact Hin].
  - intros d Hnan.
    unfold Page.cityChart_yAxis_data, Page.cityChart_series_data, JS.slice0.
    change Page.by_value_descending with (@by_sales_descending float _).
    assert (Hs := entries_descending Hnan).
    split.
    + apply StronglySorted_map
        with (R := fun a b : string * cell float =>
                     (to_number (snd a) <? to_number (snd b))%float = false);
        [intros x y Hxy; exact Hxy|].
      now apply StronglySorted_firstn.
    + intros c v drawn Hcv Hout Hdrawn.
      apply in_map_iff in Hdrawn. destruct Hdrawn as [e [<- He]].
      assert (Hin : In (c, v) (Array_sort by_sales_descending
                                 (JS.Object_entries (salesByCity d)))).
      { eapply Permutation_in; [symmetry; apply Array_sort_perm|].
        eapply Permutation_in; [symmetry; apply Object_entries_perm | exact Hcv]. }
      rewrite <- (firstn_skipn 8) in Hin, Hs. apply in_app_or in Hin.
      destruct Hin as [Hin|Hin].
      * exfalso. apply Hout. apply in_map_iff. now exists (c, v).
      * exact (@StronglySorted_app_cross _ _ _ _ Hs e (c, v) He Hin).
Qed.

End CityChart.

(** X9 on a summary with three cities, the largest held last. *)
Lemma city_chart_of_three_cities :
  StronglySorted (fun a b => (to_number a <? to_number b)%float = false)
    (Page.cityChart_series_data (engine := Sample.engine)
       (Some {| totalSales := 60; quantitySold := 3; discountPercentage := 0;
                totalProfit := 6;
                salesByCity := [("A", Num 10); ("B", Num 20); ("C", Num 30)];
                salesByProducts := []; salesByCategory := [];
                salesBySubCategory := []; salesBySegment := [] |}%float%string)) /\
  Page.cityChart_yAxis_data (engine := Sample.engine)
    (Some {| totalSales := 60; quantitySold := 3; discountPercentage := 0;
             totalProfit := 6;
             salesByCity := [("A", Num 10); ("B", Num 20); ("C", Num 30)];
             salesByProducts := []; salesByCategory := [];
             salesBySubCategory := []; salesBySegment := [] |}%float%string)
  = ["C"; "B"; "A"]%string.
Proof.
  split; [|vm_compute; reflexivity].
  apply (proj2 (proj2 (proj2 (@city_chart_draws_the_largest_cities Sample.engine)))).
  repeat constructor.
Defined.

Section ProductsChart.

Context {engine : JS.Engine}.


End ProductsChart.

(* ================================================================== *)
(** * Part 19: a date and its text *)
(* ================================================================== *)

Section Calendar.

Local Open Scope Z_scope.

(** The Gregorian calendar repeats every 146097 days.  The year that
    [Date.civil_from_days] finds for a day of such an era begins, on the
    first of March, not after that day and at most 365 days before it,
    and exactly 365 days only when its February has 29 days. *)
Lemma year_of_era (doe : Z) :
  0 <= doe < 146097 ->
  let yoe := (doe - doe / 1460 + doe / 36524 - doe / 146096) / 365 in
  0 <= yoe <= 399 /\
  365 * yoe + yoe / 4 - yoe / 100 <= doe <= 365 * yoe + yoe / 4 - yoe / 100 + 365 /\
  (doe = 365 * yoe + yoe / 4 - yoe / 100 + 365 ->
   (yoe + 1) mod 4 = 0 /\ ((yoe + 1) mod 100 <> 0 \/ (yoe + 1) mod 400 = 0)).
Proof.
  intros Hd yoe. unfold yoe. clear yoe.
  split; [|split]; Z.div_mod_to_equations; lia.
Qed.

Lemma DaysInMonth_era (y m era : Z) :
  Date.DaysInMonth (y + era * 400) m = Date.DaysInMonth y m.
Proof.
  unfold Date.DaysInMonth.
  replace (y + era * 400) with (y + (era * 100) * 4) at 1 by lia.
  replace (y + era * 400) with (y + (era * 4) * 100) at 1 by lia.
  now rewrite !Z.mod_add by lia.
Qed.

Lemma February (y d : Z) :
  1 <= d <= 29 ->
  (d = 29 -> y mod 4 = 0 /\ (y mod 100 <> 0 \/ y mod 400 = 0)) ->
  1 <= d <= Date.DaysInMonth y 2.
Proof.
  intros Hd Hleap. unfold Date.DaysInMonth. cbn [Z.eqb Pos.eqb].
  destruct ((y mod 4 =? 0) && negb (y mod 100 =? 0) || (y mod 400 =? 0)) eqn:E;
    [lia|].
  destruct (Z.eq_dec d 29) as [H29|H29]; [|lia].
  exfalso. destruct (Hleap H29) as [H4 H100].
  apply orb_false_iff in E. destruct E as [E1 E2].
  apply Z.eqb_neq in E2. apply andb_false_iff in E1.
  destruct E1 as [E1|E1].
  - apply Z.eqb_neq in E1. contradiction.
  - apply negb_false_iff, Z.eqb_eq in E1. destruct H100; contradiction.
Qed.

(** The date of a day number is a date of the calendar, and the day
    number of that date is the day number. *)
Lemma civil_round_trip (z : Z) :
  let '(y, m, d) := Date.civil_from_days z in
  1 <= m <= 12 /\ 1 <= d <= Date.DaysInMonth y m /\ Date.days_from_civil y m d = z /\
  (z + 719468) / 146097 * 400 <= y <= (z + 719468) / 146097 * 400 + 400.
Proof.
  unfold Date.civil_from_days.
  set (n := z + 719468).
  set (era := n / 146097).
  set (doe := n - era * 146097).
  assert (Hdoe : 0 <= doe < 146097).
  { unfold doe, era. pose proof (Z.div_mod n 146097).
    pose proof (Z.mod_pos_bound n 146097). lia. }
  destruct (year_of_era Hdoe) as (Hyoe & Hstart & Hleap).
  set (yoe := (doe - doe / 1460 + doe / 36524 - doe / 146096) / 365) in *.
  cbv zeta in Hleap.
  set (doy := doe - (365 * yoe + yoe / 4 - yoe / 100)) in *.
  assert (Hdoy : 0 <= doy <= 365) by (unfold doy; lia).
  assert (Hleap' : doy = 365 ->
            (yoe + 1) mod 4 = 0 /\ ((yoe + 1) mod 100 <> 0 \/ (yoe + 1) mod 400 = 0))
    by (intros E; apply Hleap; unfold doy in E; lia).
  assert (Edoy : doe = yoe * 365 + yoe / 4 - yoe / 100 + doy) by (unfold doy; lia).
  clearbody doy. clear Hleap Hstart.
  set (mp := (5 * doy + 2) / 153).
  assert (Hmp : 0 <= mp <= 11 /\ 153 * mp <= 5 * doy + 2 < 153 * mp + 153)
    by (unfold mp; Z.div_mod_to_equations; lia).
  clearbody mp.
  set (d := doy - (153 * mp + 2) / 5 + 1).
  set (m := if mp <? 10 then mp + 3 else mp - 9).
  assert (Hm : 1 <= m <= 12 /\ (if 2 <? m then m - 3 else m + 9) = mp).
  { unfold m. destruct (Z.ltb_spec mp 10).
    - destruct (Z.ltb_spec 2 (mp + 3)); lia.
    - destruct (Z.ltb_spec 2 (mp - 9)); lia. }
  assert (Hy : (if m <=? 2 then yoe + era * 400 + 1 else yoe + era * 400)
               = (if m <=? 2 then yoe + 1 else yoe) + era * 400)
    by (destruct (m <=? 2); lia).
  rewrite Hy. rewrite DaysInMonth_era.
  split; [lia|]. split; [|split].
  - assert (Hcases : mp = 0 \/ mp = 1 \/ mp = 2 \/ mp = 3 \/ mp = 4 \/ mp = 5 \/
                     mp = 6 \/ mp = 7 \/ mp = 8 \/ mp = 9 \/ mp = 10 \/ mp = 11) by lia.
    unfold m, d.
    destruct Hcases as [E|[E|[E|[E|[E|[E|[E|[E|[E|[E|[E|E]]]]]]]]]]];
      rewrite E in *;
      match goal with
      | |- context [if ?a <? 10 then ?b else ?c] =>
          let month := eval vm_compute in (if a <? 10 then b else c) in
          change (if a <? 10 then b else c) with month
      end;
      cbn [Z.leb Z.compare Pos.compare Pos.compare_cont];
      try (unfold Date.DaysInMonth;
           cbn [Z.eqb Pos.eqb orb]; Z.div_mod_to_equations; lia).
    apply February.
    + Z.div_mod_to_equations; lia.
    + intros E29. apply Hleap'. Z.div_mod_to_equations; lia.
  - unfold Date.days_from_civil.
    replace (if m <=? 2
             then (if m <=? 2 then yoe + 1 else yoe) + era * 400 - 1
             else (if m <=? 2 then yoe + 1 else yoe) + era * 400)
      with (yoe + era * 400) by (destruct (m <=? 2); lia).
    assert (He : (yoe + era * 400) / 400 = era).
    { rewrite Z.div_add by lia. rewrite Z.div_small by lia. lia. }
    rewrite He. destruct Hm as [_ ->].
    replace (yoe + era * 400 - era * 400) with yoe by lia.
    unfold d. unfold doe, n in Edoy. lia.
  - fold era. destruct (m <=? 2); lia.
Qed.

(** *** Reading the digits back *)

Lemma digit_of_digit (n : Z) : Date.digit_of (Date.digit n) = Some (n mod 10).
Proof.
  unfold Date.digit.
  assert (Hr : 0 <= n mod 10 < 10) by (apply Z.mod_pos_bound; lia).
  assert (Hc : exists k, (k < 10)%nat /\ n mod 10 = Z.of_nat k).
  { exists (Z.to_nat (n mod 10)). split; lia. }
  destruct Hc as [k [Hk ->]]. rewrite Nat2Z.id.
  do 10 (destruct k as [|k]; [reflexivity|]). lia.
Qed.

Lemma number_of_pad2 (n : Z) :
  0 <= n <= 99 -> Date.number_of [Date.digit (n / 10); Date.digit n] = Some n.
Proof.
  intros Hn. unfold Date.number_of. cbn [fold_left].
  rewrite !digit_of_digit. f_equal.
  Z.div_mod_to_equations. lia.
Qed.

Lemma number_of_pad4 (n : Z) :
  0 <= n <= 9999 ->
  Date.number_of [Date.digit (n / 1000); Date.digit (n / 100); Date.digit (n / 10);
                  Date.digit n] = Some n.
Proof.
  intros Hn. unfold Date.number_of. cbn [fold_left].
  rewrite !digit_of_digit. f_equal.
  Z.div_mod_to_equations. lia.
Qed.

Lemma number_of_pad6 (n : Z) :
  0 <= n <= 999999 ->
  Date.number_of [Date.digit (n / 100000); Date.digit (n / 10000);
                  Date.digit (n / 1000); Date.digit (n / 100); Date.digit (n / 10);
                  Date.digit n] = Some n.
Proof.
  intros Hn. unfold Date.number_of. cbn [fold_left].
  rewrite !digit_of_digit. f_equal.
  Z.div_mod_to_equations. lia.
Qed.


Lemma calendar_time_civil (z : Z) :
  - 100000000 <= z <= 100000000 ->
  let '(y, m, d) := Date.civil_from_days z in
  Date.calendar_time (Some y) (Some m) (Some d) = Some (z * Date.msPerDay) /\
  - 999999 <= y <= 999999.
Proof.
  intros Hz. pose proof (civil_round_trip z) as H.
  destruct (Date.civil_from_days z) as [[y m] d].
  destruct H as [Hm [Hd [Hdays Hy]]].
  split.
  - unfold Date.calendar_time.
    replace ((1 <=? m) && (m <=? 12) && (1 <=? d) && (d <=? Date.DaysInMonth y m))
      with true
      by (symmetry; rewrite !andb_true_iff; repeat split; apply Z.leb_le; lia).
    rewrite Hdays. unfold Date.of_time, Date.msPerDay.
    replace (Z.abs (z * 86400000) <=? 8640000000000000) with true
      by (symmetry; apply Z.leb_le; lia).
    reflexivity.
  - assert (- 680 <= (z + 719468) / 146097 <= 690).
    { split; [apply Z.div_le_lower_bound | apply Z.div_le_upper_bound]; lia. }
    lia.
Qed.

(** The date part of [toISOString] is the date-only form of the same day:
    read back, it is that day's midnight in UTC. *)
Lemma parse_date_string (ms : Z) :
  Z.abs ms <= 8640000000000000 ->
  Date.parse_date_only (Date.date_string ms)
  = Some (ms / Date.msPerDay * Date.msPerDay).
Proof.
  intros Hms.
  assert (Hz : - 100000000 <= ms / Date.msPerDay <= 100000000).
  { unfold Date.msPerDay.
    split; [apply Z.div_le_lower_bound | apply Z.div_le_upper_bound]; lia. }
  pose proof (calendar_time_civil Hz) as H.
  pose proof (civil_round_trip (ms / Date.msPerDay)) as Hc.
  unfold Date.date_string, Date.YearFromTime, Date.MonthFromTime, Date.DateFromTime.
  destruct (Date.civil_from_days (ms / Date.msPerDay)) as [[y m] d].
  cbn [fst snd]. destruct H as [Hcal Hy]. destruct Hc as [Hm [Hd _]].
  assert (Hd' : d <= 31).
  { unfold Date.DaysInMonth in Hd.
    repeat match type of Hd with context [if ?c then _ else _] => destruct c end; lia. }
  rewrite <- Hcal.
  unfold Date.year_string.
  destruct ((0 <=? y) && (y <=? 9999)) eqn:Hrange.
  - apply andb_true_iff in Hrange. destruct Hrange as [H0 H9].
    apply Z.leb_le in H0, H9.
    unfold Date.parse_date_only, Date.pad4, Date.pad3, Date.pad2.
    cbn -[Date.digit Date.number_of Date.calendar_time Z.div].
    now rewrite number_of_pad4, !number_of_pad2 by lia.
  - destruct (y <? 0) eqn:Hneg.
    + apply Z.ltb_lt in Hneg.
      unfold Date.parse_date_only, Date.pad6, Date.pad4, Date.pad3, Date.pad2.
      cbn -[Date.digit Date.number_of Date.calendar_time Z.div Z.eqb Z.opp].
      rewrite number_of_pad6, !number_of_pad2 by lia.
      replace (- y =? 0) with false by (symmetry; apply Z.eqb_neq; lia).
      cbn [negb]. now rewrite Z.opp_involutive.
    + unfold Date.parse_date_only, Date.pad6, Date.pad4, Date.pad3, Date.pad2.
      cbn -[Date.digit Date.number_of Date.calendar_time Z.div Z.eqb Z.opp].
      apply Z.ltb_ge in Hneg.
      now rewrite number_of_pad6, !number_of_pad2 by lia.
Qed.

End Calendar.

Section DateTexts.

Local Open Scope Z_scope.

Lemma day_start_bounds (ms : Z) : day_start ms <= ms < day_start ms + Date.msPerDay.
Proof.
  unfold day_start, Date.msPerDay.
  pose proof (Z.div_mod ms 86400000). pose proof (Z.mod_pos_bound ms 86400000). lia.
Qed.

Lemma day_start_midnight (day : Z) : day_start (day * Date.msPerDay) = day * Date.msPerDay.
Proof. unfold day_start, Date.msPerDay. now rewrite Z.div_mul by lia. Qed.

Lemma day_start_le (a b : Z) : a <= b -> day_start a <= day_start b.
Proof.
  intros Hab. unfold day_start, Date.msPerDay.
  apply Z.mul_le_mono_nonneg_r; [lia|]. apply Z.div_le_mono; lia.
Qed.

Lemma of_time_some (v : option Z) (ms : Z) :
  Date.of_time v = Some ms -> v = Some ms /\ Z.abs ms <= 8640000000000000.
Proof.
  unfold Date.of_time. destruct v as [x|]; [|discriminate].
  destruct (Z.leb_spec (Z.abs x) 8640000000000000); [|discriminate].
  intros E. injection E as <-. now split.
Qed.

Lemma Math_min_times (xs : list (option Z)) (m : Z) :
  Date.Math_min xs = Some m ->
  exists ts, xs = map Some ts /\ In m ts /\ forall x, In x ts -> m <= x.
Proof.
  revert m. induction xs as [|x xs IH]; intros m; [discriminate|].
  destruct xs as [|y xs'].
  - simpl. intros ->. exists [m]. split; [reflexivity|].
    split; [now left|]. intros x [<-|[]]. lia.
  - change (Date.Math_min (x :: y :: xs'))
      with (match x, Date.Math_min (y :: xs') with
            | Some a, Some b => Some (Z.min a b)
            | _, _ => None
            end).
    destruct x as [a|]; [|discriminate].
    destruct (Date.Math_min (y :: xs')) as [b|]; [|discriminate].
    intros E. injection E as <-.
    destruct (IH b eq_refl) as [ts [Hts [Hin Hmin]]].
    exists (a :: ts). split; [simpl; now rewrite Hts|].
    split.
    + destruct (Z.min_spec a b) as [[_ ->]|[_ ->]]; [|]; simpl; tauto.
    + intros t [<-|Ht]; [lia|]. specialize (Hmin t Ht). lia.
Qed.

Lemma Math_max_times (xs : list (option Z)) (m : Z) :
  Date.Math_max xs = Some m ->
  exists ts, xs = map Some ts /\ In m ts /\ forall x, In x ts -> x <= m.
Proof.
  revert m. induction xs as [|x xs IH]; intros m; [discriminate|].
  destruct xs as [|y xs'].
  - simpl. intros ->. exists [m]. split; [reflexivity|].
    split; [now left|]. intros x [<-|[]]. lia.
  - change (Date.Math_max (x :: y :: xs'))
      with (match x, Date.Math_max (y :: xs') with
            | Some a, Some b => Some (Z.max a b)
            | _, _ => None
            end).
    destruct x as [a|]; [|discriminate].
    destruct (Date.Math_max (y :: xs')) as [b|]; [|discriminate].
    intros E. injection E as <-.
    destruct (IH b eq_refl) as [ts [Hts [Hin Hmax]]].
    exists (a :: ts). split; [simpl; now rewrite Hts|].
    split.
    + destruct (Z.max_spec a b) as [[_ ->]|[_ ->]]; [|]; simpl; tauto.
    + intros t [<-|Ht]; [lia|]. specialize (Hmax t Ht). lia.
Qed.

Lemma filter_all {A : Type} (p : A -> bool) (l : list A) :
  (forall x, In x l -> p x = true) -> filter p l = l.
Proof.
  induction l as [|x l IH]; simpl; intros Hp; [reflexivity|].
  rewrite (Hp x (or_introl eq_refl)). f_equal. apply IH. intros y Hy. apply Hp. now right.
Qed.

(** X11.  The date part of [toISOString], which [getDateRange] sends,
    is the date-only form of the same day for every date there is, the
    years before 0 and after 9999 included: read back as [new Date]
    reads that form, it is the midnight in UTC that begins the day, and
    so the date itself when it is a midnight. *)
Theorem iso_date_reads_back (ms : Z) :
  Z.abs ms <= 8640000000000000 ->
  exists text,
    Date.toISOString (Date.of_time (Some ms)) = JS.Normal text /\
    Date.parse_date_only (JS.split_head "T" text) = Some (day_start ms) /\
    day_start ms <= ms < day_start ms + Date.msPerDay /\
    (ms mod Date.msPerDay = 0 ->
     Date.parse_date_only (JS.split_head "T" text) = Some ms).
Proof.
  intros Hms. unfold Date.of_time.
  replace (Z.abs ms <=? 8640000000000000) with true by (symmetry; now apply Z.leb_le).
  eexists. split; [reflexivity|].
  rewrite iso_date_part, parse_date_string by exact Hms.
  split; [reflexivity|]. split; [apply day_start_bounds|].
  intros Hmid. f_equal. unfold Date.msPerDay in *.
  pose proof (Z.div_mod ms 86400000). lia.
Qed.

End DateTexts.

(** X11 on the last millisecond of the year 9999 and on the first of the
    year 10000. *)
Lemma iso_dates_of_two_millennia :
  (exists text,
      Date.toISOString (Date.of_time (Some 253402300799999%Z)) = JS.Normal text /\
      Date.parse_date_only (JS.split_head "T" text) = Some (day_start 253402300799999) /\
      (day_start 253402300799999 <= 253402300799999
       < day_start 253402300799999 + Date.msPerDay)%Z /\
      ((253402300799999 mod Date.msPerDay = 0)%Z ->
       Date.parse_date_only (JS.split_head "T" text) = Some 253402300799999%Z)) /\
  (exists text,
      Date.toISOString (Date.of_time (Some 253402300800000%Z)) = JS.Normal text /\
      Date.parse_date_only (JS.split_head "T" text) = Some (day_start 253402300800000) /\
      (day_start 253402300800000 <= 253402300800000
       < day_start 253402300800000 + Date.msPerDay)%Z /\
      ((253402300800000 mod Date.msPerDay = 0)%Z ->
       Date.parse_date_only (JS.split_head "T" text) = Some 253402300800000%Z)).
Proof.
  split.
  - apply (iso_date_reads_back 253402300799999). simpl. lia.
  - apply (iso_date_reads_back 253402300800000). simpl. lia.
Defined.

Section DateRangeToDashboard.

Context {num : Type} `{Number num} {engine : JS.Engine}.

Variable JSON_parse : string -> option (list (SalesRecord num)).
Variable Date_parse : string -> Date.t.

Local Abbreviation record := (SalesRecord num).

Local Open Scope Z_scope.


End DateRangeToDashboard.


(* ================================================================== *)
(** * Part 20: how the endpoints fit together *)
(* ================================================================== *)

Lemma filter_permutation {A : Type} (p : A -> bool) (l l' : list A) :
  Permutation l l' -> Permutation (filter p l) (filter p l').
Proof.
  induction 1 as [|x l l' Hp IH|x y l|l l' l'' H1 IH1 H2 IH2]; simpl.
  - constructor.
  - destruct (p x); [now constructor | exact IH].
  - destruct (p x), (p y); try apply Permutation_refl. apply perm_swap.
  - now transitivity (filter p l').
Qed.

Section OrderOfRecords.

Local Open Scope Z_scope.

Lemma Math_min_cons (x y : option Z) (l : list (option Z)) :
  Date.Math_min (x :: y :: l)
  = match x, Date.Math_min (y :: l) with
    | Some a, Some b => Some (Z.min a b)
    | _, _ => None
    end.
Proof. reflexivity. Qed.

Lemma Math_max_cons (x y : option Z) (l : list (option Z)) :
  Date.Math_max (x :: y :: l)
  = match x, Date.Math_max (y :: l) with
    | Some a, Some b => Some (Z.max a b)
    | _, _ => None
    end.
Proof. reflexivity. Qed.

(** [Math.min] and [Math.max] do not depend on the order of their
    arguments. *)
Lemma Math_min_permutation (xs xs' : list (option Z)) :
  Permutation xs xs' -> Date.Math_min xs = Date.Math_min xs'.
Proof.
  induction 1 as [|x l l' Hp IH|x y l|l l' l'' H1 IH1 H2 IH2].
  - reflexivity.
  - destruct l as [|y l].
    + apply Permutation_nil in Hp. now subst l'.
    + destruct l' as [|y' l'].
      * apply Permutation_sym, Permutation_nil in Hp. discriminate Hp.
      * now rewrite !Math_min_cons, IH.
  - destruct l as [|z l].
    + simpl. destruct x, y; try reflexivity. now rewrite Z.min_comm.
    + rewrite (Math_min_cons y x (z :: l)), (Math_min_cons x y (z :: l)).
      rewrite (Math_min_cons x z l), (Math_min_cons y z l).
      destruct (Date.Math_min (z :: l)), x, y; try reflexivity; f_equal; lia.
  - now transitivity (Date.Math_min l').
Qed.

Lemma Math_max_permutation (xs xs' : list (option Z)) :
  Permutation xs xs' -> Date.Math_max xs = Date.Math_max xs'.
Proof.
  induction 1 as [|x l l' Hp IH|x y l|l l' l'' H1 IH1 H2 IH2].
  - reflexivity.
  - destruct l as [|y l].
    + apply Permutation_nil in Hp. now subst l'.
    + destruct l' as [|y' l'].
      * apply Permutation_sym, Permutation_nil in Hp. discriminate Hp.
      * now rewrite !Math_max_cons, IH.
  - destruct l as [|z l].
    + simpl. destruct x, y; try reflexivity. now rewrite Z.max_comm.
    + rewrite (Math_max_cons y x (z :: l)), (Math_max_cons x y (z :: l)).
      rewrite (Math_max_cons x z l), (Math_max_cons y z l).
      destruct (Date.Math_max (z :: l)), x, y; try reflexivity; f_equal; lia.
  - now transitivity (Date.Math_max l').
Qed.

End OrderOfRecords.

Section Together.

Context {num : Type} `{Number num} {engine : JS.Engine}.

Variable JSON_parse : string -> option (list (SalesRecord num)).
Variable Date_parse : string -> Date.t.

Local Abbreviation record := (SalesRecord num).

Lemma created_keys_nil (keys : list string) (k : string) :
  created_keys keys = [] -> In k keys -> k = "__proto__"%string.
Proof.
  intros Hnil Hk.
  destruct (string_dec k "__proto__") as [E|E]; [exact E|].
  assert (Hin : In k (created_keys keys)) by (apply created_keys_In; now split).
  rewrite Hnil in Hin. contradiction.
Qed.

(** The top-products list is empty only if every record is of the
    product [__proto__]. *)
Lemma top10Products_nil (data : list record) (r : record) :
  top10Products data = [] -> In r data -> Product_Name r = "__proto__"%string.
Proof.
  intros Hnil Hr. apply (f_equal (@List.length _)) in Hnil.
  change (top10Products data)
    with (map as_product (top_entries 10 (salesBy (fun r => Product_Name r) data)))
    in Hnil.
  rewrite length_map in Hnil.
  destruct (top_entries_content 10 (fun r => Product_Name r) data) as (_ & Hlen & _).
  rewrite Hlen in Hnil.
  apply (@created_keys_nil (map (fun r => Product_Name r) data)).
  - destruct (created_keys (map (fun r => Product_Name r) data)); [reflexivity|].
    simpl in Hnil. discriminate Hnil.
  - now apply in_map.
Qed.

(** [salesByCity] is empty only if every record is of the city
    [__proto__]. *)
Lemma sales_by_city_nil (data : list record) (r : record) :
  sales_by_city data = [] -> In r data -> City r = "__proto__"%string.
Proof.
  unfold sales_by_city. intros Hnil Hr.
  apply (f_equal (@JS.own_keys _)) in Hnil.
  rewrite salesBy_grouping, grouping_keys in Hnil.
  apply (@created_keys_nil (map (fun r => City r) data)); [exact Hnil|].
  now apply in_map.
Qed.

(** X13.  When the data file is missing or holds an array of sales
    records, none of them of a product or a city named [__proto__], a
    state that [getStates] lists never gives an empty dashboard: asked
    for that state alone, without date bounds, [getDashboardData]
    answers 200 with a summary that has a top product and a city; asked
    for a state that is not listed, it answers 200 with the summary of
    no records when there are records at all.  (The names "" and "All
    States" stand for no choice of state.) *)
Theorem listed_states_have_sales (s : string) (w : World num) :
  holds_records JSON_parse w ->
  (forall r, In r (loaded JSON_parse w) ->
     Product_Name r <> "__proto__"%string /\ City r <> "__proto__"%string) ->
  s <> EmptyString -> s <> "All States"%string ->
  exists states reply,
    fst (getStates JSON_parse w)
    = JS.Normal {| status := 200; body := StatesBody states |} /\
    fst (getDashboardData JSON_parse Date_parse
           {| state := Some s; startDate := None; endDate := None |} w)
    = JS.Normal reply /\
    (In s states <->
       exists d, reply = {| status := 200; body := DashboardBody d |} /\
                 salesByProducts d <> [] /\ salesByCity d <> []) /\
    (~ In s states -> loaded JSON_parse w <> [] ->
       reply = {| status := 200; body := DashboardBody (response []) |}).
Proof.
  intros _ Hnames Hs Hall.
  eexists. eexists.
  split; [now rewrite getStates_run|].
  split.
  { destruct (getDashboardData_run JSON_parse Date_parse
                {| state := Some s; startDate := None; endDate := None |} w)
      as [lines ->]. reflexivity. }
  rewrite distinct_In.
  assert (Hnil := state_records_nil s (loaded JSON_parse w)).
  unfold dashboard_reply, filteredData, state_filter_applies, date_filter_applies,
    filterByState.
  cbn [state startDate endDate JS.truthy_param JS.param_is andb].
  apply String.eqb_neq in Hs, Hall. rewrite Hs, Hall. cbn [negb andb].
  rewrite (filter_ext (fun r : record => String.eqb s (State r))
                      (fun r : record => String.eqb (State r) s))
    by (intros r; apply string_eqb_sym).
  set (stateRecords := filter (fun r : record => String.eqb (State r) s)
                              (loaded JSON_parse w)) in *.
  destruct (List.length (loaded JSON_parse w) =? 0)%nat eqn:E.
  - apply Nat.eqb_eq, length_zero_iff_nil in E. rewrite E. simpl. split.
    + split; [tauto|]. intros [d [Hd _]]. discriminate Hd.
    + intros _ Hne. now contradiction Hne.
  - split.
    + split.
      * intros [Hin _]. exists (response stateRecords).
        split; [reflexivity|].
        assert (Hne : stateRecords <> []) by (rewrite Hnil; tauto).
        destruct stateRecords as [|r rest] eqn:Erecords; [contradiction|].
        assert (Hr : In r (loaded JSON_parse w)).
        { assert (Hin' : In r (r :: rest)) by now left.
          rewrite <- Erecords in Hin'. now apply filter_In in Hin'. }
        destruct (Hnames r Hr) as [Hproduct Hcity].
        split; intros Hempty.
        -- apply Hproduct. apply (@top10Products_nil (r :: rest) r Hempty). now left.
        -- apply Hcity. apply (@sales_by_city_nil (r :: rest) r Hempty). now left.
      * intros [d [Hd [Hp _]]]. injection Hd as <-.
        split; [|simpl; tauto].
        destruct (in_dec string_dec s
                    (map (fun r : record => State r) (loaded JSON_parse w)))
          as [Hin|Hout]; [exact Hin|].
        exfalso. apply Hp. apply Hnil in Hout. now rewrite Hout.
    + intros Hout _.
      assert (Hempty : stateRecords = []) by (apply Hnil; tauto).
      now rewrite Hempty.
Qed.

Lemma date_range_reply_permutation (s : string) (data data' : list record) :
  Permutation data data' ->
  date_range_reply Date_parse s data = date_range_reply Date_parse s data'.
Proof.
  intros Hp. unfold date_range_reply.
  assert (Hs := filter_permutation (fun r : record => String.eqb (State r) s) Hp).
  rewrite (Permutation_length Hs).
  assert (Ht := Permutation_map
                  (fun r : record => Date.getTime (Date_parse (Order_Date r))) Hs).
  now rewrite (Permutation_length Ht), (Math_min_permutation Ht),
    (Math_max_permutation Ht).
Qed.


End Together.

(** X13 on the example of section 8: Texas is listed. *)
Lemma texas_has_sales :
  exists states reply,
    fst (getStates (Sample.read_as Sample.two_records) Sample.disk)
    = JS.Normal {| status := 200; body := StatesBody states |} /\
    fst (getDashboardData (engine := Sample.engine)
           (Sample.read_as Sample.two_records) Date.parse_date_only
           {| state := Some "Texas"%string; startDate := None; endDate := None |}
           Sample.disk)
    = JS.Normal reply /\
    (In "Texas"%string states <->
       exists d, reply = {| status := 200; body := DashboardBody d |} /\
                 salesByProducts d <> [] /\ salesByCity d <> []) /\
    (~ In "Texas"%string states ->
     loaded (Sample.read_as Sample.two_records) Sample.disk <> [] ->
     reply = {| status := 200;
                body := DashboardBody (response (engine := Sample.engine) []) |}).
Proof.
  apply (@listed_states_have_sales float _ Sample.engine
           (Sample.read_as Sample.two_records)
           Date.parse_date_only "Texas"%string Sample.disk);
    try discriminate.
  - apply disk_holds_records.
  - intros r [<-|[<-|[]]]; split; discriminate.
Defined.


(* ================================================================== *)
(** * Part 21: the sign of the summary *)
(* ================================================================== *)

Section Signs.

Context {engine : JS.Engine}.

Local Open Scope float_scope.

(** An integer that is not negative is a float that is not negative. *)
Lemma of_uint63_nonneg (i : int) : (0 <=? PrimFloat.of_uint63 i) = true.
Proof.
  rewrite FloatAxioms.leb_spec, FloatAxioms.of_uint63_spec.
  change (Prim2SF 0) with (S754_zero false).
  assert (Hpos : (0 <= Uint63.to_Z i)%Z) by apply Uint63.to_Z_bounded.
  assert (Hsign := @binary_normalize_sign (Uint63.to_Z i) 0).
  destruct (Uint63.to_Z i ?= 0)%Z eqn:E.
  - rewrite Hsign; [reflexivity | now vm_compute].
  - change (Uint63.to_Z i < 0)%Z in E. lia.
  - apply signed_nonneg, Hsign. now vm_compute.
Qed.

(** [Math.round] of a number that is not negative is not negative. *)
Lemma round_nonneg (x : float) : (0 <=? x) = true -> (0 <=? Float64.round x) = true.
Proof.
  intros Hx. unfold Float64.round.
  destruct (Prim2SF x) as [s|s| |s m e] eqn:E; try exact Hx.
  destruct (Z.leb_spec 0 e) as [_|He]; [exact Hx|].
  assert (Hs : s = false).
  { rewrite FloatAxioms.leb_spec, E in Hx.
    change (Prim2SF 0) with (S754_zero false) in Hx.
    destruct s; [discriminate Hx | reflexivity]. }
  subst s.
  destruct ((2 * Zpos m + 2 ^ (- e)) / 2 ^ (- e + 1) =? 0)%Z; [reflexivity|].
  unfold Float64.of_Z.
  destruct ((2 * Zpos m + 2 ^ (- e)) / 2 ^ (- e + 1))%Z as [|n|n] eqn:En.
  - reflexivity.
  - apply of_uint63_nonneg.
  - exfalso.
    assert (0 <= (2 * Zpos m + 2 ^ (- e)) / 2 ^ (- e + 1))%Z.
    { apply Z.div_pos.
      - assert (0 <= 2 ^ (- e))%Z by (apply Z.pow_nonneg; lia). lia.
      - apply Z.pow_pos_nonneg; lia. }
    lia.
Qed.

(** X15.  When no record has a negative sale, the summary draws no
    negative bar: the rounded total of sales is at least 0, and every
    value of the five groupings (cities, top products, categories,
    sub-categories, segments) is a number that is at least 0, and so not
    NaN, unless its key is named like a member of [Object.prototype]:
    then it is a string. *)
Theorem no_negative_sale_no_negative_value (data : list (SalesRecord float)) :
  no_negative_sales data ->
  (0 <=? totalSales (response data)) = true /\
  (forall c v, In (c, v) (salesByCity (response data)) -> not_negative c v) /\
  (forall p, In p (salesByProducts (response data)) ->
             not_negative (Product.name p) (Product.sales p)) /\
  (forall c v, In (c, v) (salesByCategory (response data)) -> not_negative c v) /\
  (forall e, In e (salesBySubCategory (response data)) ->
             not_negative (SubCategory.name e) (SubCategory.value e)) /\
  (forall s v, In (s, v) (salesBySegment (response data)) -> not_negative s v).
Proof.
  intros Hs.
  assert (Hgroup : forall (key : SalesRecord float -> string) (e : string * cell float),
             In e (salesBy key data) -> not_negative (fst e) (snd e)).
  { intros key e He. rewrite salesBy_grouping in He.
    apply in_grouping in He. destruct He as (_ & _ & ->).
    unfold settled, not_negative.
    destruct (JS.inherited (fst e)); [reflexivity|].
    apply running_total_nonneg. unfold sales_of.
    apply Forall_forall. intros x Hx. apply in_map_iff in Hx.
    destruct Hx as [r [<- Hr]]. apply filter_In in Hr.
    unfold no_negative_sales in Hs. rewrite Forall_forall in Hs.
    now apply Hs. }
  assert (Hentries : forall (key : SalesRecord float -> string) (e : string * cell float),
             In e (JS.Object_entries (salesBy key data)) ->
             not_negative (fst e) (snd e)).
  { intros key e He. apply (Hgroup key).
    eapply Permutation_in; [apply Object_entries_perm | exact He]. }
  split; [|split; [|split; [|split; [|split]]]].
  - apply round_nonneg. now apply total_sales_nonneg.
  - intros c v Hin. exact (Hgroup (fun r => City r) (c, v) Hin).
  - intros p Hp.
    change (salesByProducts (response data))
      with (map as_product (top_entries 10 (salesBy (fun r => Product_Name r) data)))
      in Hp.
    apply in_map_iff in Hp. destruct Hp as [e [<- He]].
    apply (Hentries (fun r => Product_Name r)).
    unfold top_entries in He. apply In_firstn in He.
    eapply Permutation_in; [apply (Array_sort_perm by_sales_descending) | exact He].
  - intros c v Hin. exact (Hgroup (fun r => Category r) (c, v) Hin).
  - intros e He.
    change (salesBySubCategory (response data)) with (sales_by_sub_category data) in He.
    unfold sales_by_sub_category in He.
    apply in_map_iff in He. destruct He as [e' [<- He']].
    exact (Hentries (fun r => Sub_Category r) e' He').
  - intros s v Hin. exact (Hgroup (fun r => Segment r) (s, v) Hin).
Qed.

End Signs.

(** X15 on three sales, none negative, two of them in a city named
    constructor: the city holds a string, the segment a number. *)
Lemma namesakes_have_no_negative_value :
  not_negative "constructor" (Text "constructor" [100; 25]%float) /\
  not_negative "Consumer" (Num 175%float).
Proof.
  destruct (@no_negative_sale_no_negative_value Sample.engine Sample.namesakes)
    as (_ & Hcity & _ & _ & _ & Hsegment).
  - repeat constructor.
  - split.
    + apply Hcity. vm_compute. now left.
    + apply Hsegment. vm_compute. now left.
Defined.
